(** * statement-parser (FAB fork): line reconstruction and the FAB plugin

    A shallow embedding of
    - [src/pdf/read-pdf.ts] (the positional line reconstructor [readPdf]),
    - [src/parser/implemented-parsers/fab-bank-account-parser.ts] and its
      two sibling revisions (the FAB format plugin),
    together with the properties the specification states about them.

    Conventions of the embedding.
    - A JavaScript string is a [string]: a sequence of code units.  The
      development covers code units below 256, a set closed under every
      string operation the sources use ([trim], [toLowerCase], [split],
      [replace], the regular-expression classes).
    - A JavaScript number that holds a coordinate or an amount is a
      rational: the value of the decimal text, without the rounding of
      IEEE doubles.  [NaN] and the infinities are explicit.
    - [undefined] / a thrown and caught exception is [None]. *)

From Stdlib Require Import List String Ascii Bool Arith ZArith QArith Qround Qabs Lia Lqa.
From Stdlib Require Import Sorting.Sorted Sorting.Permutation.
From Stdlib Require DecimalString DecimalN DecimalPos HexadecimalN.
Import ListNotations.

Local Close Scope Q_scope.
Local Open Scope string_scope.
Local Open Scope list_scope.
Local Open Scope nat_scope.

(* ================================================================== *)
(** * JavaScript strings *)
(* ================================================================== *)

Module JsString.

(** [WhiteSpace] and [LineTerminator] code units below 256: TAB, LF, VT,
    FF, CR, SPACE and NO-BREAK SPACE.  This is the set [\s] matches and
    the set [String.prototype.trim] strips. *)
Definition isWhiteSpace (c : ascii) : bool :=
  let n := nat_of_ascii c in
  ((9 <=? n) && (n <=? 13)) || (n =? 32) || (n =? 160).

Fixpoint trimStart (s : string) : string :=
  match s with
  | String c s' => if isWhiteSpace c then trimStart s' else s
  | EmptyString => EmptyString
  end.

(** Drops the trailing white space: a character is kept when something
    that is kept follows it, or when it is not white space itself. *)
Fixpoint trimEnd (s : string) : string :=
  match s with
  | EmptyString => EmptyString
  | String c s' =>
      match trimEnd s' with
      | EmptyString => if isWhiteSpace c then EmptyString else String c EmptyString
      | t => String c t
      end
  end.

Definition trim (s : string) : string := trimEnd (trimStart s).

(** [Array.prototype.join]. *)
Fixpoint join (sep : string) (l : list string) : string :=
  match l with
  | [] => EmptyString
  | [s] => s
  | s :: l' => s ++ sep ++ join sep l'
  end.

(** Truthiness of a string: the empty string is the only falsy one. *)
Definition truthy (s : string) : bool :=
  match s with EmptyString => false | _ => true end.

Definition startsWith (s pre : string) : bool := prefix pre s.

(** [String.prototype.includes]. *)
Fixpoint includes (s sub : string) : bool :=
  prefix sub s ||
  match s with
  | EmptyString => false
  | String _ s' => includes s' sub
  end.

(** [toLowerCase] on code units below 256: A-Z, and the Latin-1 capitals
    U+00C0..U+00DE without the multiplication sign U+00D7. *)
Definition lowerChar (c : ascii) : ascii :=
  let n := nat_of_ascii c in
  if ((65 <=? n) && (n <=? 90))
     || ((192 <=? n) && (n <=? 222) && negb (n =? 215))
  then ascii_of_nat (n + 32) else c.

Fixpoint toLowerCase (s : string) : string :=
  match s with
  | EmptyString => EmptyString
  | String c s' => String (lowerChar c) (toLowerCase s')
  end.

(** [s.split(sep)] for a one-character separator. *)
Fixpoint splitAux (sep : ascii) (cur : string) (s : string) : list string :=
  match s with
  | EmptyString => [cur]
  | String c s' =>
      if Ascii.eqb c sep then cur :: splitAux sep EmptyString s'
      else splitAux sep (cur ++ String c EmptyString) s'
  end.

Definition split (sep : ascii) (s : string) : list string :=
  splitAux sep EmptyString s.

Fixpoint repeatChar (c : ascii) (n : nat) : string :=
  match n with
  | O => EmptyString
  | S n' => String c (repeatChar c n')
  end.

(** [s.padStart(n, c)] for a one-character filler. *)
Definition padStart (n : nat) (c : ascii) (s : string) : string :=
  repeatChar c (n - String.length s) ++ s.

(** [s.replace(/,/g, '')]: what augment-vir's
    [removeCommasFromNumberString] does. *)
Fixpoint removeCommasFromNumberString (s : string) : string :=
  match s with
  | EmptyString => EmptyString
  | String c s' =>
      if Ascii.eqb c "," then removeCommasFromNumberString s'
      else String c (removeCommasFromNumberString s')
  end.

(** [s.replace(/\s+/g, ' ')]: every maximal run of white space becomes
    one space. *)
Fixpoint collapseSpaces (inRun : bool) (s : string) : string :=
  match s with
  | EmptyString => EmptyString
  | String c s' =>
      if isWhiteSpace c
      then if inRun then collapseSpaces true s'
           else String " " (collapseSpaces true s')
      else String c (collapseSpaces false s')
  end.

(** The text begins, or ends, with a white space character. *)
Definition startsWithSpace (s : string) : bool :=
  match s with
  | String c _ => isWhiteSpace c
  | EmptyString => false
  end.

Fixpoint endsWithSpace (s : string) : bool :=
  match s with
  | EmptyString => false
  | String c EmptyString => isWhiteSpace c
  | String _ s' => endsWithSpace s'
  end.

End JsString.

(* ================================================================== *)
(** * Stable sorting, as [Array.prototype.sort] with a comparator *)
(* ================================================================== *)

(** [Array.prototype.sort] is stable and, for a comparator that is a
    total preorder, its result is the unique stable sorted arrangement.
    Insertion from the right computes exactly that arrangement.
    [le a b] stands for [compare(a, b) <= 0]. *)
Section StableSort.
Context {A : Type}.
Variable le : A -> A -> bool.

Fixpoint sortInsert (x : A) (l : list A) : list A :=
  match l with
  | [] => [x]
  | y :: l' => if le x y then x :: y :: l' else y :: sortInsert x l'
  end.

Fixpoint jsSort (l : list A) : list A :=
  match l with
  | [] => []
  | x :: l' => sortInsert x (jsSort l')
  end.
End StableSort.

(* ================================================================== *)
(** * [src/pdf/read-pdf.ts] *)
(* ================================================================== *)

Module ReadPdf.
Import JsString.

(** An entry of [textContent.items]: pdf.js yields text items, which
    carry [str] and the 6-entry [transform] array, and marked-content
    items, which carry neither. *)
Inductive item : Type :=
| TextItem (str : string) (transform : list Q)
| TextMarkedContent.

Definition page := list item.
Definition document := list page.

Definition str (it : item) : string :=
  match it with TextItem s _ => s | TextMarkedContent => EmptyString end.

(** [Math.round]: the nearest integer, halves towards +infinity. *)
Definition mathRound (q : Q) : Z := Qfloor (q + (1 # 2)).

(** The guard ['str' in item && item.transform && item.transform[5] !==
    undefined] together with [Math.round(item.transform[5])]. *)
Definition bucketOf (it : item) : option Z :=
  match it with
  | TextItem _ t =>
      match nth_error t 5 with
      | Some y => Some (mathRound y)
      | None => None
      end
  | TextMarkedContent => None
  end.

(** [item.transform[4]].  Items that reach a bucket have a sixth
    transform entry, hence a fifth. *)
Definition xCoord (it : item) : Q :=
  match it with
  | TextItem _ t => nth 4 t 0%Q
  | TextMarkedContent => 0%Q
  end.

(** ** Numbers as property names, and [parseInt]

    [itemsByY[y]] turns the number [y] into a property name, and
    [Object.keys] hands the names back as strings, which [parseInt]
    reads again.  The round trip is modelled as the engine performs it,
    since it is not the identity: at and beyond [10^21] the name of a
    number is in exponent form, of which [parseInt] reads the leading
    digit only. *)

(** The decimal digits of [|n|], most significant first. *)
Definition digitsOf (n : Z) : string :=
  DecimalString.NilEmpty.string_of_uint (N.to_uint (Z.abs_N n)).

Fixpoint dropTrailingZeros (s : string) : string :=
  match s with
  | EmptyString => EmptyString
  | String c s' =>
      match dropTrailingZeros s' with
      | EmptyString => if Ascii.eqb c "0" then EmptyString else String c EmptyString
      | t => String c t
      end
  end.

(** The exponent form of a digit sequence: the first digit, then a
    point and the remaining digits without their trailing zeros when
    any are left, then [e+] and the exponent. *)
Definition exponentForm (digits : string) : string :=
  match digits with
  | String c rest =>
      (String c (match dropTrailingZeros rest with
                 | EmptyString => EmptyString
                 | fraction => "." ++ fraction
                 end)
       ++ "e+" ++ digitsOf (Z.of_nat (String.length rest)))%string
  | EmptyString => EmptyString
  end.

(** [Number::toString] of an integer, which is the property name of the
    number: the decimal text below [10^21] in absolute value, the
    exponent form from there on ([1e+21], [-1.5e+21]).  [-0] and [0]
    are both named [0].  The digits are those of the integer itself,
    numbers being exact in this development. *)
Definition propertyName (n : Z) : string :=
  ((if (n <? 0)%Z then "-" else "")
   ++ (if (Z.abs n <? 10 ^ 21)%Z then digitsOf n else exponentForm (digitsOf n)))%string.

Definition decimalDigit (c : ascii) : option (Decimal.uint -> Decimal.uint) :=
  match c with
  | "0"%char => Some Decimal.D0 | "1"%char => Some Decimal.D1
  | "2"%char => Some Decimal.D2 | "3"%char => Some Decimal.D3
  | "4"%char => Some Decimal.D4 | "5"%char => Some Decimal.D5
  | "6"%char => Some Decimal.D6 | "7"%char => Some Decimal.D7
  | "8"%char => Some Decimal.D8 | "9"%char => Some Decimal.D9
  | _ => None
  end.

(** The longest prefix of [s] made of decimal digits. *)
Fixpoint decimalPrefix (s : string) : Decimal.uint :=
  match s with
  | String c s' =>
      match decimalDigit c with
      | Some d => d (decimalPrefix s')
      | None => Decimal.Nil
      end
  | EmptyString => Decimal.Nil
  end.

Definition hexDigit (c : ascii) : option (Hexadecimal.uint -> Hexadecimal.uint) :=
  match c with
  | "0"%char => Some Hexadecimal.D0 | "1"%char => Some Hexadecimal.D1
  | "2"%char => Some Hexadecimal.D2 | "3"%char => Some Hexadecimal.D3
  | "4"%char => Some Hexadecimal.D4 | "5"%char => Some Hexadecimal.D5
  | "6"%char => Some Hexadecimal.D6 | "7"%char => Some Hexadecimal.D7
  | "8"%char => Some Hexadecimal.D8 | "9"%char => Some Hexadecimal.D9
  | "a"%char | "A"%char => Some Hexadecimal.Da
  | "b"%char | "B"%char => Some Hexadecimal.Db
  | "c"%char | "C"%char => Some Hexadecimal.Dc
  | "d"%char | "D"%char => Some Hexadecimal.Dd
  | "e"%char | "E"%char => Some Hexadecimal.De
  | "f"%char | "F"%char => Some Hexadecimal.Df
  | _ => None
  end.

Fixpoint hexPrefix (s : string) : Hexadecimal.uint :=
  match s with
  | String c s' =>
      match hexDigit c with
      | Some d => d (hexPrefix s')
      | None => Hexadecimal.Nil
      end
  | EmptyString => Hexadecimal.Nil
  end.

(** The value of the digits a text begins with, in base 16 after [0x]
    or [0X] and in base 10 otherwise; no digit at all gives [NaN]. *)
Definition unsignedValue (s : string) : option Z :=
  match s with
  | String "0" (String "x" s') | String "0" (String "X" s') =>
      match hexPrefix s' with
      | Hexadecimal.Nil => None
      | u => Some (Z.of_N (N.of_hex_uint u))
      end
  | _ =>
      match decimalPrefix s with
      | Decimal.Nil => None
      | u => Some (Z.of_N (N.of_uint u))
      end
  end.

(** [parseInt(s)] without a radix: leading white space is skipped, a
    sign is read, and the digits that follow give the value; what comes
    after the digits is ignored.  [None] is [NaN]. *)
Definition parseInt (s : string) : option Z :=
  match trimStart s with
  | String "-" s' => option_map Z.opp (unsignedValue s')
  | String "+" s' => unsignedValue s'
  | s' => unsignedValue s'
  end.

(** The property name of a value [parseInt] returned. *)
Definition numberName (y : option Z) : string :=
  match y with
  | Some k => propertyName k
  | None => "NaN"
  end.

(** ** The two loops *)

(** The object [itemsByY], as its entries in insertion order: property
    names and the arrays they hold. *)
Definition buckets := list (string * list item).

Fixpoint lookup (name : string) (m : buckets) : option (list item) :=
  match m with
  | [] => None
  | (k, arr) :: m' => if String.eqb k name then Some arr else lookup name m'
  end.

(** [if (!itemsByY[y]) itemsByY[y] = []; itemsByY[y].push(item)]. *)
Fixpoint pushAt (name : string) (it : item) (m : buckets) : buckets :=
  match m with
  | [] => [(name, [it])]
  | (k, arr) :: m' =>
      if String.eqb k name then (k, arr ++ [it]) :: m' else (k, arr) :: pushAt name it m'
  end.

(** The [forEach] over [textContent.items]. *)
Definition groupStep (m : buckets) (it : item) : buckets :=
  match bucketOf it with
  | Some y => pushAt (propertyName y) it m
  | None => m
  end.

Definition itemsByY (p : page) : buckets := fold_left groupStep p [].

(** [Object.keys(itemsByY)].  The engine lists the names that are array
    indices first, in ascending order, and the others after them in
    insertion order; the numbers read from the names are sorted at
    once, and equal numbers are interchangeable, so the order in which
    the names are listed does not reach the result. *)
Definition keys (m : buckets) : list string := map fst m.

(** The comparator [(a, b) => b - a] on two numbers: [compare(a, b) <=
    0]. *)
Definition descending (a b : Z) : bool := (b - a <=? 0)%Z.

(** The same on what [parseInt] returns; a comparator result that is
    [NaN] counts as zero. *)
Definition compareKeys (a b : option Z) : bool :=
  match a, b with
  | Some x, Some y => descending x y
  | _, _ => true
  end.

(** [.sort((a, b) => b - a)]. *)
Definition sortKeys (ks : list (option Z)) : list (option Z) :=
  jsSort compareKeys ks.

(** [lineData.sort((a, b) => a.transform[4] - b.transform[4])]. *)
Definition sortByX (l : list item) : list item :=
  jsSort (fun a b => Qle_bool (xCoord a - xCoord b) 0) l.

(** [lineItems.map(item => item.str).join(' ').trim()]. *)
Definition lineTextOf (lineItems : list item) : string :=
  trim (join " " (map str lineItems)).

(** The body of the [forEach] over the sorted keys. *)
Definition lineStep (m : buckets) (lines : list string) (y : option Z)
  : list string :=
  match lookup (numberName y) m with
  | Some lineData =>
      let lineItems := sortByX lineData in
      let lineText := lineTextOf lineItems in
      if truthy lineText then lines ++ [lineText] else lines
  | None => lines
  end.

(** [Object.keys(itemsByY).map(y => parseInt(y)).sort(...).forEach(...)]
    for one page. *)
Definition pageLines (p : page) : list string :=
  let m := itemsByY p in
  fold_left (lineStep m) (sortKeys (map parseInt (keys m))) [].

(** The loop over the pages: [pages.push(lines)]. *)
Definition readPages (d : document) : list (list string) :=
  fold_left (fun pages p => pages ++ [pageLines p]) d [].

(** [readPdf(path)].  [fs] stands for the file system and pdf.js: the
    document behind a path, or nothing when the file does not exist or
    cannot be loaded, in which case [readPdf] throws. *)
Definition readPdf (fs : string -> option document) (path : string)
  : option (list (list string)) :=
  match fs path with
  | Some d => Some (readPages d)
  | None => None
  end.

(** ** Vocabulary for the properties of [readPdf] *)

(** The fragment belongs to the bucket with key [k]. *)
Definition inBucket (k : Z) (it : item) : bool :=
  match bucketOf it with
  | Some y => Z.eqb y k
  | None => false
  end.

(** The fragment belongs to the array stored under [name]. *)
Definition inNamedBucket (name : string) (it : item) : bool :=
  match bucketOf it with
  | Some y => String.eqb (propertyName y) name
  | None => false
  end.

(** The rows of a page: for each number the second [forEach] visits
    and finds an array for, in the order it visits them, the number and
    the value of [lineItems]. *)
Definition rows (p : page) : list (Z * list item) :=
  let m := itemsByY p in
  flat_map (fun y => match y, lookup (numberName y) m with
                     | Some k, Some lineData => [(k, sortByX lineData)]
                     | _, _ => []
                     end)
           (sortKeys (map parseInt (keys m))).

(** The numbers among the values [parseInt] returned. *)
Definition numbersOf (l : list (option Z)) : list Z :=
  flat_map (fun y => match y with Some k => [k] | None => [] end) l.

(** The numbers read from the names, in the order [Object.keys] lists
    the names. *)
Definition parsedKeys (p : page) : list Z :=
  numbersOf (map parseInt (keys (itemsByY p))).

(** The numbers the second [forEach] visits, in the order it visits
    them. *)
Definition visitedKeys (p : page) : list Z :=
  numbersOf (sortKeys (map parseInt (keys (itemsByY p)))).

(** Every rounded coordinate of the page is below [10^21] in absolute
    value: the range in which the name of a number is its decimal
    text. *)
Definition decimalKeys (p : page) : Prop :=
  Forall (fun it => match bucketOf it with
                    | Some k => (Z.abs k < 10 ^ 21)%Z
                    | None => True
                    end) p.

(** What a row contributes to [lines]: its text, unless that is empty. *)
Definition rowLine (r : Z * list item) : list string :=
  let lineText := lineTextOf (snd r) in
  if truthy lineText then [lineText] else [].

Definition linesOfRows (rs : list (Z * list item)) : list string :=
  flat_map rowLine rs.

(** The row that holds [f1] comes strictly before the row that holds
    [f2], and so do the lines the two rows contribute to the output. *)
Definition precedes (p : page) (f1 f2 : item) : Prop :=
  exists pre r1 mid r2 post,
    rows p = pre ++ r1 :: mid ++ r2 :: post
    /\ In f1 (snd r1) /\ In f2 (snd r2)
    /\ pageLines p
       = linesOfRows pre ++ rowLine r1 ++ linesOfRows mid ++ rowLine r2
         ++ linesOfRows post.

(** The vertical coordinate of a fragment that has one. *)
Definition yCoord (it : item) : option Q :=
  match it with
  | TextItem _ t => nth_error t 5
  | TextMarkedContent => None
  end.

(** A value [readPdf] may resolve to, seen from JavaScript: a string or
    an array.  [string[]] and [string[][]] are different values. *)
#[local] Set Warnings "-register-all".
Inductive jsValue : Type :=
| JsStr (s : string)
| JsArr (l : list jsValue).

Definition linesValue (lines : list string) : jsValue := JsArr (map JsStr lines).
Definition pagesValue (pages : list (list string)) : jsValue :=
  JsArr (map linesValue pages).

(** ** Sample pages *)

Definition fragment (s : string) (x y : Q) : item :=
  TextItem s [1%Q; 0%Q; 0%Q; 1%Q; x; y].


(** A page of a table: two rows, fragments arriving out of order, a
    marked-content item and a blank fragment on a row of its own. *)
Definition tablePage : page :=
  [ fragment "150.00" 300 700; fragment "Balance" 40 (6401 # 10);
    TextMarkedContent; fragment "01 JAN 2024" 40 (7002 # 10);
    fragment " " 40 680; fragment "POS" 120 (6999 # 10) ].

(** A fragment a long way up the page, at [10^21], and one at 1. *)
Definition farPage : page :=
  [ fragment "BIG" 0 (inject_Z (10 ^ 21)); fragment "one" 0 1 ].

Definition twoPages : document :=
  [ [fragment "A" 0 10]; [fragment "C" 0 10; fragment "B" 0 20] ].

(** The fragment passes the guard of the first [forEach]. *)
Definition hasCoordinate (it : item) : bool :=
  match bucketOf it with Some _ => true | None => false end.

(** The fragment sits at the horizontal coordinate [x]. *)
Definition atX (x : Q) (it : item) : bool := Qeq_bool (xCoord it) x.

(** Where a fragment lands: its bucket and its horizontal coordinate, in
    lowest terms. *)
Definition place (it : item) : option Z * Q := (bucketOf it, Qred (xCoord it)).

(** No two fragments of the page that have a vertical coordinate land
    in the same bucket at the same horizontal coordinate. *)
Definition distinctX (p : page) : Prop :=
  NoDup (map place (filter hasCoordinate p)).

End ReadPdf.


(* ================================================================== *)
(** * JavaScript numbers *)
(* ================================================================== *)

Module JsNumber.
Import JsString.

(** A number: not-a-number, an infinity, or a finite value.  Finite values
    are exact rationals, kept in lowest terms; [-0] is [0]. *)
Inductive number : Type :=
| NaN
| PInf
| NInf
| Num (q : Q).

(** [Math.abs]. *)
Definition mathAbs (x : number) : number :=
  match x with
  | NaN => NaN
  | PInf | NInf => PInf
  | Num q => Num (Qabs q)
  end.

(** Unary minus. *)
Definition neg (x : number) : number :=
  match x with
  | NaN => NaN
  | PInf => NInf
  | NInf => PInf
  | Num q => Num (Qopp q)
  end.

(** [x > 0]; false for [NaN]. *)
Definition gt0 (x : number) : bool :=
  match x with
  | NaN | NInf => false
  | PInf => true
  | Num q => negb (Qle_bool q 0)
  end.

(** [x < 0]; false for [NaN]. *)
Definition lt0 (x : number) : bool :=
  match x with
  | NaN | PInf => false
  | NInf => true
  | Num q => negb (Qle_bool 0 q)
  end.

(** [isNaN]. *)
Definition isNaN (x : number) : bool :=
  match x with NaN => true | _ => false end.

(** [x === 0]. *)
Definition isZero (x : number) : bool :=
  match x with Num q => Qeq_bool q 0 | _ => false end.

(** Truthiness of a number: [NaN] and zero are falsy. *)
Definition truthyNum (x : number) : bool :=
  match x with
  | NaN => false
  | PInf | NInf => true
  | Num q => negb (Qeq_bool q 0)
  end.

Definition isDigit (c : ascii) : bool :=
  let n := nat_of_ascii c in (48 <=? n) && (n <=? 57).

Definition digitValue (c : ascii) : Z := Z.of_nat (nat_of_ascii c - 48).

(** Reads the longest run of decimal digits: its value continuing [acc],
    the number of digits read, and what follows. *)
Fixpoint readDigits (acc : Z) (n : nat) (s : string) : Z * nat * string :=
  match s with
  | String c s' =>
      if isDigit c then readDigits (10 * acc + digitValue c)%Z (S n) s'
      else (acc, n, s)
  | EmptyString => (acc, n, s)
  end.

(** The exponent part [e], [e+] or [e-] followed by digits; without
    digits there is no exponent part and the power is [0]. *)
Definition readExponent (s : string) : Z :=
  match s with
  | String c s' =>
      if Ascii.eqb c "e" || Ascii.eqb c "E" then
        let '(sign, s'') :=
          match s' with
          | String "+" t => (1%Z, t)
          | String "-" t => ((-1)%Z, t)
          | _ => (1%Z, s')
          end in
        let '(e, n, _) := readDigits 0 0 s'' in
        if n =? 0 then 0%Z else (sign * e)%Z
      else 0%Z
  | EmptyString => 0%Z
  end.

(** The unsigned decimal literal at the head of [s]: digits, an optional
    fraction, an optional exponent; at least one digit is required. *)
Definition readUnsigned (s : string) : option Q :=
  let '(i, ni, s1) := readDigits 0 0 s in
  let '(m, nf, s2) :=
    match s1 with
    | String "." t => readDigits i 0 t
    | _ => (i, 0, s1)
    end in
  if (ni + nf =? 0) then None
  else Some (Qred (inject_Z m / inject_Z (10 ^ Z.of_nat nf)
                   * Qpower (inject_Z 10) (readExponent s2))).

(** The global [parseFloat]: leading white space is skipped, then the
    longest prefix that is a decimal literal is read; [NaN] when there is
    none.  Overflow to an infinity and underflow to zero do not occur on
    exact values. *)
Definition parseFloat (s : string) : number :=
  let s0 := trimStart s in
  let '(negative, s1) :=
    match s0 with
    | String "+" t => (false, t)
    | String "-" t => (true, t)
    | _ => (false, s0)
    end in
  if prefix "Infinity" s1 then (if negative then NInf else PInf)
  else
    match readUnsigned s1 with
    | Some q => Num (if negative then Qred (Qopp q) else q)
    | None => NaN
    end.

End JsNumber.

(* ================================================================== *)
(** * JavaScript regular expressions *)
(* ================================================================== *)

(** The fragment of the pattern language the sources use: literals,
    character classes, concatenation, alternation, capturing groups, the
    anchors, and quantifiers (greedy or lazy, with bounds) over a single
    character class.  Matching is the backtracking search of ECMAScript:
    alternatives left to right, a greedy quantifier longest first, a lazy
    one shortest first, the first success wins. *)
Module JsRegExp.
Import JsString.

Inductive regex : Type :=
| Empty
| Class (p : ascii -> bool)
| Cat (r1 r2 : regex)
| Alt (r1 r2 : regex)
| Repeat (greedy : bool) (min : nat) (max : option nat) (p : ascii -> bool)
| Group (i : nat) (r : regex)
| Bol
| Eol.

Definition captures := list (nat * string).

(** A position in the subject: how many code units lie before it, what
    lies after it, and the groups captured so far (latest first). *)
Record mstate : Type := MState { pos : nat; rest : string; caps : captures }.

Definition cont := mstate -> option mstate.
Definition matcher := mstate -> cont -> option mstate.

Definition orElse (a : option mstate) (b : option mstate) : option mstate :=
  match a with Some _ => a | None => b end.

(** ECMAScript's RepeatMatcher for a one-character atom. *)
Fixpoint repeatClass (p : ascii -> bool) (greedy : bool) (min : nat)
  (max : option nat) (n : nat) (s : string) (cs : captures) (k : cont)
  {struct s} : option mstate :=
  let stop := if min =? 0 then k (MState n s cs) else None in
  let more :=
    match s with
    | String c s' =>
        if p c && negb (match max with Some 0 => true | _ => false end)
        then repeatClass p greedy (pred min) (option_map pred max) (S n) s' cs k
        else None
    | EmptyString => None
    end in
  if greedy then orElse more stop
  else if min =? 0 then orElse stop more else more.

(** The text between two positions of the same subject. *)
Definition consumed (before after : mstate) : string :=
  substring 0 (pos after - pos before) (rest before).

Fixpoint compile (r : regex) : matcher :=
  match r with
  | Empty => fun x k => k x
  | Class p => fun x k =>
      match rest x with
      | String c s' => if p c then k (MState (S (pos x)) s' (caps x)) else None
      | EmptyString => None
      end
  | Cat r1 r2 => fun x k => compile r1 x (fun y => compile r2 y k)
  | Alt r1 r2 => fun x k => orElse (compile r1 x k) (compile r2 x k)
  | Repeat greedy min max p => fun x k =>
      repeatClass p greedy min max (pos x) (rest x) (caps x) k
  | Group i r1 => fun x k =>
      compile r1 x (fun y => k (MState (pos y) (rest y) ((i, consumed x y) :: caps y)))
  | Bol => fun x k => if pos x =? 0 then k x else None
  | Eol => fun x k => match rest x with EmptyString => k x | _ => None end
  end.

(** A successful match: where it starts, the matched text, the captured
    groups, and the text after the match. *)
Record matchResult : Type :=
  MatchResult { index : nat; whole : string; groups : captures; after : string }.

(** Tries the pattern at every position from the left; the first position
    with a match wins. *)
Fixpoint searchFrom (m : matcher) (n : nat) (s : string) : option matchResult :=
  match m (MState n s []) (fun y => Some y) with
  | Some y => Some (MatchResult n (substring 0 (pos y - n) s) (caps y) (rest y))
  | None =>
      match s with
      | String _ s' => searchFrom m (S n) s'
      | EmptyString => None
      end
  end.

(** [s.match(r)] for a pattern without the [g] flag. *)
Definition exec (r : regex) (s : string) : option matchResult :=
  searchFrom (compile r) 0 s.

(** [r.test(s)]. *)
Definition test (r : regex) (s : string) : bool :=
  match exec r s with Some _ => true | None => false end.

(** The entry [i] of a match array, [i >= 1]. *)
Fixpoint assoc (i : nat) (cs : captures) : option string :=
  match cs with
  | [] => None
  | (j, t) :: cs' => if i =? j then Some t else assoc i cs'
  end.

Definition group (i : nat) (m : matchResult) : option string := assoc i (groups m).

(** [s.replace(r, by)] for a pattern without the [g] flag and a
    replacement text without [$]. *)
Definition replace (r : regex) (by_ : string) (s : string) : string :=
  match exec r s with
  | Some m => substring 0 (index m) s ++ by_ ++ after m
  | None => s
  end.

(** ** Character classes and abbreviations *)

Definition digit : ascii -> bool := JsNumber.isDigit.

(** [\w]: letters, digits and the underscore. *)
Definition word (c : ascii) : bool :=
  let n := nat_of_ascii c in
  ((48 <=? n) && (n <=? 57)) || ((65 <=? n) && (n <=? 90))
  || ((97 <=? n) && (n <=? 122)) || (n =? 95).

Definition space : ascii -> bool := isWhiteSpace.

(** [.]: anything but a line terminator. *)
Definition dot (c : ascii) : bool :=
  let n := nat_of_ascii c in negb ((n =? 10) || (n =? 13)).

Definition upper (c : ascii) : bool :=
  let n := nat_of_ascii c in (65 <=? n) && (n <=? 90).

Definition isChar (c : ascii) : ascii -> bool := Ascii.eqb c.

Definition either (p q : ascii -> bool) (c : ascii) : bool := p c || q c.

Definition Chr (c : ascii) : regex := Class (isChar c).

(** A literal text. *)
Fixpoint Lit (s : string) : regex :=
  match s with
  | EmptyString => Empty
  | String c EmptyString => Chr c
  | String c s' => Cat (Chr c) (Lit s')
  end.

Fixpoint Seq (rs : list regex) : regex :=
  match rs with
  | [] => Empty
  | [r] => r
  | r :: rs' => Cat r (Seq rs')
  end.

Definition Exactly (n : nat) (p : ascii -> bool) : regex := Repeat true n (Some n) p.
Definition Plus (p : ascii -> bool) : regex := Repeat true 1 None p.
Definition Star (p : ascii -> bool) : regex := Repeat true 0 None p.
Definition Opt (p : ascii -> bool) : regex := Repeat true 0 (Some 1) p.
Definition PlusLazy (p : ascii -> bool) : regex := Repeat false 1 None p.

(** ** The [i] and [g] flags *)

(** A character of a pattern with the [i] flag: it matches its own letter
    in either case.  For the letters A to Z and a to z of a pattern, the
    characters that match are the two ASCII forms and no other. *)
Definition isCharI (c : ascii) (x : ascii) : bool :=
  Ascii.eqb (lowerChar x) (lowerChar c).

(** A literal text of a pattern with the [i] flag. *)
Fixpoint LitI (s : string) : regex :=
  match s with
  | EmptyString => Empty
  | String c EmptyString => Class (isCharI c)
  | String c s' => Cat (Class (isCharI c)) (LitI s')
  end.

(** The matches of a pattern with the [g] flag, left to right: after a
    match the search goes on where the match ended ([skip] counts the
    characters of the last match still to pass), one character further
    when the match was empty. *)
Fixpoint matchAllFrom (m : matcher) (n skip : nat) (s : string) : list string :=
  match skip with
  | S skip' =>
      match s with
      | String _ s' => matchAllFrom m (S n) skip' s'
      | EmptyString => []
      end
  | O =>
      match m (MState n s []) (fun y => Some y) with
      | Some y =>
          substring 0 (pos y - n) s
          :: match s with
             | String _ s' => matchAllFrom m (S n) (pred (pos y - n)) s'
             | EmptyString => []
             end
      | None =>
          match s with
          | String _ s' => matchAllFrom m (S n) 0 s'
          | EmptyString => []
          end
      end
  end.

(** [s.match(r) || []] for a pattern with the [g] flag. *)
Definition matchAll (r : regex) (s : string) : list string :=
  matchAllFrom (compile r) 0 0 s.

End JsRegExp.


(* ================================================================== *)
(** * What the three revisions of the FAB plugin share *)
(* ================================================================== *)

(** The data contracts imported from [../parsed-output] and
    [../parser-options], the helpers imported from augment-vir, and the
    functions every revision of [fab-bank-account-parser.ts] repeats
    verbatim. *)
Module FabCommon.
Import JsString JsNumber JsRegExp.

(** [enum State], declared with the same members by every revision. *)
Inductive State : Type :=
| Header
| TransactionLines
| EndState.

(** A [Date] made from a UTC calendar day. *)
Record Date : Type := MkDate { year : Z; month : Z; day : Z }.

(** [ParsedTransaction]. *)
Record ParsedTransaction : Type := MkTransaction {
  date : Date;
  description : string;
  amount : number;
  originalText : list string
}.

(** [ParsedOutput]. *)
Record ParsedOutput : Type := MkOutput {
  name : option string;
  accountSuffix : string;
  yearPrefix : Z;
  startDate : option Date;
  endDate : option Date;
  incomes : list ParsedTransaction;
  expenses : list ParsedTransaction
}.

(** [CombineWithBaseParserOptions<undefined>]: the base options. *)
Record ParserOptions : Type := MkOptions { optYearPrefix : Z }.

Definition setAccountSuffix (v : string) (o : ParsedOutput) : ParsedOutput :=
  MkOutput (name o) v (yearPrefix o) (startDate o) (endDate o) (incomes o) (expenses o).
Definition setName (v : option string) (o : ParsedOutput) : ParsedOutput :=
  MkOutput v (accountSuffix o) (yearPrefix o) (startDate o) (endDate o) (incomes o) (expenses o).
Definition setYearPrefix (v : Z) (o : ParsedOutput) : ParsedOutput :=
  MkOutput (name o) (accountSuffix o) v (startDate o) (endDate o) (incomes o) (expenses o).
Definition setStartDate (v : option Date) (o : ParsedOutput) : ParsedOutput :=
  MkOutput (name o) (accountSuffix o) (yearPrefix o) v (endDate o) (incomes o) (expenses o).
Definition setEndDate (v : option Date) (o : ParsedOutput) : ParsedOutput :=
  MkOutput (name o) (accountSuffix o) (yearPrefix o) (startDate o) v (incomes o) (expenses o).
(** [output.incomes.push(t)] and [output.expenses.push(t)]. *)
Definition pushIncome (t : ParsedTransaction) (o : ParsedOutput) : ParsedOutput :=
  MkOutput (name o) (accountSuffix o) (yearPrefix o) (startDate o) (endDate o)
           (incomes o ++ [t]) (expenses o).
Definition pushExpense (t : ParsedTransaction) (o : ParsedOutput) : ParsedOutput :=
  MkOutput (name o) (accountSuffix o) (yearPrefix o) (startDate o) (endDate o)
           (incomes o) (expenses o ++ [t]).

(** Modelled from the spec: the initial accumulator, built by the driver
    in [../statement-parser], which is not among the sources: no
    transactions, every optional field unset. *)
Definition initOutput : ParsedOutput :=
  MkOutput None "" 0%Z None None [] [].

(** Modelled from the spec: the statement machine driver behind
    [createStatementParser], which is not among the sources.  For each
    line in sequence it first calls the action with the current state,
    then the transition; reaching the terminal state does not stop it;
    the result is the accumulator after the last line. *)
Fixpoint run {St Acc Opt : Type}
  (action : St -> string -> Acc -> Opt -> Acc)
  (next : St -> string -> Opt -> St)
  (options : Opt) (state : St) (acc : Acc) (lines : list string) : Acc :=
  match lines with
  | [] => acc
  | line :: lines' =>
      run action next options (next state line options)
          (action state line acc options) lines'
  end.

(** ** Dates *)

Definition isLeapYear (y : Z) : bool :=
  ((y mod 4 =? 0) && negb (y mod 100 =? 0) || (y mod 400 =? 0))%Z.

Definition daysInMonth (y m : Z) : Z :=
  (if m =? 2 then (if isLeapYear y then 29 else 28)
   else if (m =? 4) || (m =? 6) || (m =? 9) || (m =? 11) then 30
   else 31)%Z.

(** The calendar date of the ECMAScript Date Time String Format:
    [YYYY-MM-DD], or [+YYYYYY-MM-DD] and [-YYYYYY-MM-DD] with an
    expanded year. *)
Definition isoDateRegExp : regex :=
  Seq [Bol;
       Group 1 (Alt (Exactly 4 digit)
                    (Seq [Class (either (isChar "+") (isChar "-")); Exactly 6 digit]));
       Chr "-"; Group 2 (Exactly 2 digit); Chr "-";
       Group 3 (Exactly 2 digit); Eol].

Definition digitsValue (s : string) : Z := fst (fst (readDigits 0 0 s)).

(** The value of a year text, which may carry a sign. *)
Definition yearValue (s : string) : Z :=
  match s with
  | String "-" ds => (- digitsValue ds)%Z
  | String "+" ds => digitsValue ds
  | _ => digitsValue s
  end.

(** The days a [Date] can hold: 100,000,000 days either side of
    1970-01-01, from -271821-04-20 to 275760-09-13. *)
Definition inDateRange (y m d : Z) : bool :=
  ((-271821 <? y) || ((y =? -271821) && ((4 <? m) || ((m =? 4) && (20 <=? d)))))%Z
  && ((y <? 275760) || ((y =? 275760) && ((m <? 9) || ((m =? 9) && (d <=? 13)))))%Z.

(** Modelled, not translated: [createDateFromUtcIsoFormat] is a function
    of the library augment-vir, which is not among the sources and
    which the specification does not describe.  The library defines it
    as [new Date(iso + 'T00:00:00.000Z')], throwing when the date is
    invalid; the [catch] of [parseDate] turns the throw into
    [undefined].  With that suffix the engine accepts [iso] when it is
    a calendar date of the Date Time String Format: a year of four
    digits, or of a sign and six digits ([-000000] apart), a month in
    01..12 and a day in 01..31, within the range of [Date].  A day past
    the end of its month rolls over into the next month, as V8 does.
    For every other text the model answers [None]; the language leaves
    such texts to the engine, and the plugin passes none of them: each
    date text it parses was matched by DATE, so that [iso] is four
    digits, a month of the table and two digits
    ([parseDate_of_date]). *)
Definition createDateFromUtcIsoFormat (iso : string) : option Date :=
  match exec isoDateRegExp iso with
  | Some m =>
      match group 1 m, group 2 m, group 3 m with
      | Some ys, Some ms, Some ds =>
          let y := yearValue ys in
          let mo := digitsValue ms in
          let d := digitsValue ds in
          if ((1 <=? mo) && (mo <=? 12) && (1 <=? d) && (d <=? 31))%Z
             && negb (String.eqb ys "-000000")
          then
            let (mo', d') :=
              if (d <=? daysInMonth y mo)%Z then (mo, d)
              else ((mo + 1)%Z, (d - daysInMonth y mo)%Z) in
            if inDateRange y mo' d' then Some (MkDate y mo' d') else None
          else None
      | _, _, _ => None
      end
  | None => None
  end.

(** [date.getFullYear()], for a process whose time zone is UTC. *)
Definition getFullYear (d : Date) : Z := year d.

(** The [months] table of [parseDate]. *)
Definition months (key : string) : option string :=
  let table :=
    [("JAN", "01"); ("FEB", "02"); ("MAR", "03"); ("APR", "04");
     ("MAY", "05"); ("JUN", "06"); ("JUL", "07"); ("AUG", "08");
     ("SEP", "09"); ("OCT", "10"); ("NOV", "11"); ("DEC", "12")] in
  match find (fun e => String.eqb (fst e) key) table with
  | Some e => Some (snd e)
  | None => None
  end.

(** [parseDate]: ["01 APR 2025"] to the date 2025-04-01; [undefined]
    when the text has another shape or the date is invalid. *)
Definition parseDate (dateString : string) : option Date :=
  match split " " dateString with
  | [p0; p1; p2] =>
      if truthy p0 && truthy p1 && truthy p2 then
        let day := padStart 2 "0" p0 in
        match months p1 with
        | Some month => createDateFromUtcIsoFormat (p2 ++ "-" ++ month ++ "-" ++ day)
        | None => None
        end
      else None
  | _ => None
  end.

(** [parseAmount], and the inlined
    [parseFloat(removeCommasFromNumberString(amountStr))]. *)
Definition parseAmount (amountStr : string) : number :=
  parseFloat (removeCommasFromNumberString amountStr).

(** ** The patterns *)

(** DATE, the shape of a date: [\d{2} \w{3} \d{4}] *)
Definition dateShape : regex :=
  Seq [Exactly 2 digit; Chr " "; Exactly 3 word; Chr " "; Exactly 4 digit].

(** AMOUNT, the shape of an amount: [[\d,]+\.?\d*] *)
Definition amountShape : regex :=
  Seq [Plus (either digit (isChar ",")); Opt (isChar "."); Star digit].

(** [/^DATE/] *)
Definition startsWithDateRegExp : regex := Cat Bol dateShape.

(** [/^(DATE)\s+(DATE)\s+(.+?)\s+(AMOUNT)\s+(AMOUNT)$/] *)
Definition regularRegExp : regex :=
  Seq [Bol; Group 1 dateShape; Plus space; Group 2 dateShape; Plus space;
       Group 3 (PlusLazy dot); Plus space; Group 4 amountShape; Plus space;
       Group 5 amountShape; Eol].

(** [/(AMOUNT)/] *)
Definition amountRegExp : regex := Group 1 amountShape.

(** [/Account Statement FROM (DATE) TO (DATE)/] *)
Definition statementPeriodRegExp : regex :=
  Seq [Lit "Account Statement FROM "; Group 1 dateShape; Lit " TO "; Group 2 dateShape].

(** [/AC-NUM (\d{3}-\d{3}-\d{7}-\d{2}-\d)/] *)
Definition accountNumberRegExp : regex :=
  Seq [Lit "AC-NUM ";
       Group 1 (Seq [Exactly 3 digit; Chr "-"; Exactly 3 digit; Chr "-";
                     Exactly 7 digit; Chr "-"; Exactly 2 digit; Chr "-";
                     Class digit])].

(** [/^([A-Z ]+?)\s+AC-NUM/] *)
Definition customerNameRegExp : regex :=
  Seq [Bol; Group 1 (PlusLazy (either upper (isChar " "))); Plus space; Lit "AC-NUM"].

(** A match-array entry used as a condition: present and not empty. *)
Definition present (g : option string) : bool :=
  match g with Some s => truthy s | None => false end.

Definition text (g : option string) : string :=
  match g with Some s => s | None => EmptyString end.

(** [extractAccountInfo] of [fab-bank-account-parser.ts]; the revision
    that carries a pending transaction has the same body. *)
Definition extractAccountInfo (line : string) (output : ParsedOutput) : ParsedOutput :=
  let output1 :=
    match exec accountNumberRegExp line with
    | Some accountMatch =>
        if present (group 1 accountMatch) then
          let accountParts := split "-" (text (group 1 accountMatch)) in
          let o := setAccountSuffix (last accountParts "") output in
          match exec customerNameRegExp line with
          | Some nameMatch =>
              if present (group 1 nameMatch)
              then setName (Some (trim (text (group 1 nameMatch)))) o
              else o
          | None => o
          end
        else output
    | None => output
    end in
  match exec statementPeriodRegExp line with
  | Some periodMatch =>
      if present (group 1 periodMatch) && present (group 2 periodMatch) then
        let o := setStartDate (parseDate (text (group 1 periodMatch))) output1 in
        let o' := setEndDate (parseDate (text (group 2 periodMatch))) o in
        match startDate o' with
        | Some d => setYearPrefix (getFullYear d / 100)%Z o'
        | None => o'
        end
      else output1
  | None => output1
  end.

(** [if (!output.yearPrefix) output.yearPrefix = parserOptions.yearPrefix]. *)
Definition defaultYearPrefix (parserOptions : ParserOptions) (output : ParsedOutput)
  : ParsedOutput :=
  if (yearPrefix output =? 0)%Z then setYearPrefix (optYearPrefix parserOptions) output
  else output.

(** ** Vocabulary for the properties of the plugin *)

(** The order [Header < TransactionLines < End] of the states. *)
Definition stateRank (s : State) : nat :=
  match s with
  | Header => 0
  | TransactionLines => 1
  | EndState => 2
  end.

(** Modelled from the spec: the state the driver of [../statement-parser]
    is in after a line sequence; it advances by one transition a line. *)
Definition finalState {St Opt : Type} (next : St -> string -> Opt -> St)
  (options : Opt) (state : St) (lines : list string) : St :=
  fold_left (fun s line => next s line options) lines state.

(** An income carries a strictly positive amount. *)
Definition positiveAmount (t : ParsedTransaction) : Prop :=
  gt0 (amount t) = true.

(** An expense carries a strictly negative amount. *)
Definition negativeAmount (t : ParsedTransaction) : Prop :=
  lt0 (amount t) = true.

(** An amount that is not positive: unless it is [NaN], it is negative
    or zero. *)
Definition notPositiveAmount (t : ParsedTransaction) : Prop :=
  gt0 (amount t) = false
  /\ (isNaN (amount t) = false -> lt0 (amount t) || isZero (amount t) = true).

(** The sign invariant in the words of the specification: incomes are
    strictly positive, expenses strictly negative, hence none is zero. *)
Definition signInvariant (o : ParsedOutput) : Prop :=
  Forall positiveAmount (incomes o) /\ Forall negativeAmount (expenses o).

(** The sign invariant the plugin keeps. *)
Definition signSplit (o : ParsedOutput) : Prop :=
  Forall positiveAmount (incomes o) /\ Forall notPositiveAmount (expenses o).

(** The text starts with characters of the given classes, one class a
    character. *)
Fixpoint startsWithClasses (ps : list (ascii -> bool)) (s : string) : bool :=
  match ps with
  | [] => true
  | p :: ps' =>
      match s with
      | String c s' => p c && startsWithClasses ps' s'
      | EmptyString => false
      end
  end.

(** The text starts with two digits, a space, three word characters, a
    space and four digits. *)
Definition hasDatePrefix (s : string) : bool :=
  startsWithClasses
    [digit; digit; isChar " "; word; word; word; isChar " "; digit; digit; digit; digit]
    s.

(** The account information of an accumulator: everything but the two
    transaction lists. *)
Definition accountInfo (o : ParsedOutput)
  : option string * string * Z * option Date * option Date :=
  (name o, accountSuffix o, yearPrefix o, startDate o, endDate o).

(** The text, in lower case, that opens the transaction table. *)
Definition tableHeaderMarker : string :=
  "date value date description debit credit balance".

(** A transaction that passed the checks of the revision with a keyword
    list: its amount is a number, its description is not empty. *)
Definition checkedTransaction (t : ParsedTransaction) : Prop :=
  isNaN (amount t) = false /\ description t <> EmptyString.

(** ** Sample lines *)

Definition tableHeaderLine : string :=
  "DATE VALUE DATE DESCRIPTION DEBIT CREDIT BALANCE".

(** The first transaction line of the test fixture. *)
Definition groceryLine : string :=
  "01 JAN 2024 01 JAN 2024 POS Settlement GROCERY STORE DUBAI AED 150 150.00 9,850.00".

Definition groceryTransaction : ParsedTransaction :=
  MkTransaction (MkDate 2024 1 1) "POS Settlement GROCERY STORE DUBAI AED 150"
                (Num (-150)) [groceryLine].

(** The second transaction line of the test fixture. *)
Definition depositLine : string :=
  "02 JAN 2024 02 JAN 2024 ATM Cash Deposit P32-1234 - CDM- Dubai Mall 5,000.00 14,850.00".

Definition cashDepositTransaction : ParsedTransaction :=
  MkTransaction (MkDate 2024 1 2) "ATM Cash Deposit P32-1234 - CDM- Dubai Mall"
                (Num 5000) [depositLine].

(** A transaction line whose amount column reads zero. *)
Definition zeroAmountLine : string :=
  "01 JAN 2024 01 JAN 2024 POS Settlement FREE SAMPLE 0.00 100.00".

Definition zeroAmountTransaction : ParsedTransaction :=
  MkTransaction (MkDate 2024 1 1) "POS Settlement FREE SAMPLE" (Num 0) [zeroAmountLine].

(** A line of boilerplate inside the transaction table. *)
Definition footerLine : string := "Page 1 of 3 - continued overleaf".

(** [mockFabStatementText], the statement of the plugin's test file. *)
Definition mockFabStatementText : list string :=
  [ "First Abu Dhabi Bank PJSC | PO Box 6316 Abu Dhabi | United Arab Emirates";
    "";
    "ACCOUNT STATEMENT";
    "Currency AED";
    "JOHN DOE SMITH                                            AC-NUM 123-456-7890123-45-6";
    "PO Box 12345 Address Street No 123                       IBAN AE-12-345-123-456-7890123-45-6";
    "Dubai Marina Dubai";
    "Dubai,ARE                                     Account Statement FROM 01 JAN 2024 TO 31 JAN 2024";
    "";
    "Sheet no. 1";
    "";
    tableHeaderLine;
    "";
    "Balance brought forward 10,000.00";
    "";
    groceryLine;
    depositLine;
    "03 JAN 2024 03 JAN 2024 Transfer From Salary Account 3,500.00 18,350.00";
    "05 JAN 2024 05 JAN 2024 Switch Transaction 1,000.00 17,350.00";
    "05 JAN 2024 05 JAN 2024 SW WDL Chgs 21.00 17,329.00";
    "10 JAN 2024 10 JAN 2024 POS Settlement VAT AED 0.75 0.75 17,328.25";
    "15 JAN 2024 15 JAN 2024 Inward IPP Payment International Transfer 2,000.00 19,328.25";
    "20 JAN 2024 20 JAN 2024 POS Settlement RESTAURANT DUBAI AED 250 250.00 19,078.25";
    "25 JAN 2024 25 JAN 2024 Reverse Charges Refund 50.00 19,128.25";
    "30 JAN 2024 30 JAN 2024 POS Settlement ONLINE SHOPPING USD 100 367.30 18,760.95";
    "";
    "Closing Book Balance 18,760.95";
    "";
    "*** END OF STATEMENT ***" ].

(** What the tests compare of a transaction. *)
Definition summary (t : ParsedTransaction) : string * number * Date :=
  (description t, amount t, date t).

(** A statement that ends in a dated line without amount and balance,
    after a line that reads like the continuation of a transaction. *)
Definition carryLines : list string :=
  [tableHeaderLine; "continued 5.00 100.00";
   "01 JAN 2024 01 JAN 2024 POS Settlement PARTIAL"].

End FabCommon.


(* ================================================================== *)
(** * [src/parser/implemented-parsers/fab-bank-account-parser.ts] *)
(* ================================================================== *)

Module Fab.
Import JsString JsNumber JsRegExp.
Export FabCommon.

(** The income test written out in [parseTransaction]'s first pattern. *)
Definition isIncomeDescription (desc : string) : bool :=
  let lower := toLowerCase desc in
  includes lower "transfer" || includes lower "inward" || includes lower "deposit"
  || includes lower "reverse charges" || includes lower "atm cash deposit"
  || includes lower "cash deposit".

(** The income test written out in the second pattern. *)
Definition isDepositDescription (desc : string) : bool :=
  let lower := toLowerCase desc in
  includes lower "deposit" || includes lower "transfer" || includes lower "inward"
  || includes lower "cash deposit".

(** [/\s+AMOUNT.*$/], which the second pattern removes from the
    description. *)
Definition trailingAmountRegExp : regex :=
  Seq [Plus space; amountShape; Star dot; Eol].

(** Pattern 1 of [parseTransaction], on the cleaned line. *)
Definition regularTransaction (line cleanLine : string) : option ParsedTransaction :=
  match exec regularRegExp cleanLine with
  | Some regularMatch =>
      let dateStr := group 1 regularMatch in
      let description := group 3 regularMatch in
      let amountStr := group 4 regularMatch in
      let balanceStr := group 5 regularMatch in
      if present dateStr && present description && present amountStr
         && present balanceStr then
        match parseDate (text dateStr) with
        | Some date =>
            let amount := parseAmount (text amountStr) in
            let desc := trim (text description) in
            let finalAmount :=
              if isIncomeDescription desc then mathAbs amount
              else neg (mathAbs amount) in
            Some (MkTransaction date desc finalAmount [line])
        | None => None
        end
      else None
  | None => None
  end.

(** Pattern 2 of [parseTransaction], on the cleaned line. *)
Definition depositTransaction (line cleanLine : string) : option ParsedTransaction :=
  match exec regularRegExp cleanLine with
  | Some depositMatch =>
      let dateStr := group 1 depositMatch in
      let fullDesc := group 3 depositMatch in
      let balanceStr := group 5 depositMatch in
      if present dateStr && present fullDesc && present balanceStr then
        match exec amountRegExp (text fullDesc) with
        | Some amountInDesc =>
            if present (group 1 amountInDesc) then
              match parseDate (text dateStr) with
              | Some date =>
                  let amount := parseAmount (text (group 1 amountInDesc)) in
                  let desc := trim (replace trailingAmountRegExp "" (text fullDesc)) in
                  if isDepositDescription desc
                  then Some (MkTransaction date desc (mathAbs amount) [line])
                  else None
              | None => None
              end
            else None
        | None => None
        end
      else None
  | None => None
  end.

(** [parseTransaction]. *)
Definition parseTransaction (line : string) : option ParsedTransaction :=
  let cleanLine := trim (collapseSpaces false line) in
  if negb (test startsWithDateRegExp cleanLine) then None
  else
    match regularTransaction line cleanLine with
    | Some t => Some t
    | None => depositTransaction line cleanLine
    end.

(** The lines the transaction state skips before parsing. *)
Definition isSkippedLine (cleanLine : string) : bool :=
  includes cleanLine "DATE VALUE DATE DESCRIPTION"
  || includes cleanLine "Balance carried forward"
  || includes cleanLine "Balance brought forward"
  || startsWith cleanLine "Sheet no."
  || includes cleanLine "Important:"
  || (String.length cleanLine <? 10).

(** [performStateAction]. *)
Definition performStateAction (currentState : State) (line : string)
  (output : ParsedOutput) (parserOptions : ParserOptions) : ParsedOutput :=
  let cleanLine := trim line in
  let output1 := extractAccountInfo cleanLine output in
  let output2 := defaultYearPrefix parserOptions output1 in
  match currentState with
  | TransactionLines =>
      if isSkippedLine cleanLine then output2
      else
        match parseTransaction cleanLine with
        | Some transaction =>
            if gt0 (amount transaction) then pushIncome transaction output2
            else pushExpense transaction output2
        | None => output2
        end
  | _ => output2
  end.

(** [nextState]. *)
Definition nextState (currentState : State) (line : string)
  (parserOptions : ParserOptions) : State :=
  let cleanLine := trim (toLowerCase line) in
  match currentState with
  | Header =>
      if includes cleanLine "date value date description debit credit balance"
      then TransactionLines else currentState
  | TransactionLines =>
      if includes cleanLine "closing book balance"
         || includes cleanLine "end of statement"
         || includes cleanLine "total debit txns"
         || (includes cleanLine "total" && includes cleanLine "txns")
      then EndState else currentState
  | EndState => currentState
  end.

(** [fabBankAccountParser.parseText]: the driver with this plugin, from
    the initial state and the initial accumulator. *)
Definition parseText (textLines : list string) (parserOptions : ParserOptions)
  : ParsedOutput :=
  run performStateAction nextState parserOptions Header initOutput textLines.

(** The cleaned line matches none of the transaction patterns: it does
    not start with a date, or it lacks the shape of the two patterns. *)
Definition matchesNoPattern (line : string) : bool :=
  let cleanLine := trim (collapseSpaces false line) in
  negb (test startsWithDateRegExp cleanLine)
  || match exec regularRegExp cleanLine with Some _ => false | None => true end.

End Fab.

(* ================================================================== *)
(** * The revision with a keyword list ([isIncomeTransaction]) *)
(* ================================================================== *)

(** The sibling revision that classifies through [isIncomeTransaction]
    and enters the transaction state on an opening balance as well. *)
Module FabKeywords.
Import JsString JsNumber JsRegExp.
Export FabCommon.

Definition incomeKeywords : list string :=
  ["transfer"; "inward"; "deposit"; "reverse charges"; "atm cash deposit";
   "cash deposit"; "credit"].

(** [isIncomeTransaction]. *)
Definition isIncomeTransaction (description : string) : bool :=
  let lowerDesc := toLowerCase description in
  existsb (fun keyword => includes lowerDesc keyword) incomeKeywords.

(** [nextState]. *)
Definition nextState (currentState : State) (line : string)
  (parserOptions : ParserOptions) : State :=
  let cleanLine := trim (toLowerCase line) in
  match currentState with
  | Header =>
      if includes cleanLine "date value date description debit credit balance"
         || (includes cleanLine "balance"
             && (includes cleanLine "opening" || includes cleanLine "brought forward"))
      then TransactionLines else currentState
  | TransactionLines =>
      if includes cleanLine "closing book balance"
         || includes cleanLine "closing statement balance"
         || includes cleanLine "end of statement"
         || includes cleanLine "total debit txns"
         || (includes cleanLine "total" && includes cleanLine "txns")
      then EndState else currentState
  | EndState => currentState
  end.

(** [/^ACCOUNT STATEMENT$/i] and [/^Currency AED$/i] *)
Definition accountStatementRegExp : regex := Seq [Bol; LitI "ACCOUNT STATEMENT"; Eol].
Definition currencyRegExp : regex := Seq [Bol; LitI "Currency AED"; Eol].

(** [/^[\u0600-\u06FF\s]+$/]; below 256 the class holds the white
    space only. *)
Definition arabicTextRegExp : regex := Seq [Bol; Plus space; Eol].

(** [/^\d+$/] and [/^\d{6}$/] *)
Definition standaloneNumberRegExp : regex := Seq [Bol; Plus digit; Eol].
Definition sixDigitsRegExp : regex := Seq [Bol; Exactly 6 digit; Eol].

(** The lines [parseTransactionLine] drops before it looks for a
    transaction. *)
Definition isIrrelevantLine (cleanLine : string) : bool :=
  negb (truthy cleanLine)
  || includes cleanLine "Balance carried forward"
  || includes cleanLine "Balance brought forward"
  || includes cleanLine "Important:"
  || includes cleanLine "T&Cs Apply"
  || includes cleanLine "First Abu Dhabi Bank"
  || includes cleanLine "Contact Centre"
  || includes cleanLine "endeavor to get back"
  || test arabicTextRegExp cleanLine
  || includes cleanLine "DATE VALUE DATE DESCRIPTION"
  || startsWith cleanLine "Sheet no."
  || test standaloneNumberRegExp cleanLine
  || includes cleanLine "Closing Book Balance"
  || includes cleanLine "Closing Statement Balance"
  || includes cleanLine "Total Debit Txns"
  || includes cleanLine "Tot. Debit Amnt"
  || includes cleanLine "Total Credit Txns"
  || includes cleanLine "Tot. Credit Amnt"
  || includes cleanLine "Debit Interest"
  || includes cleanLine "Opening balance"
  || test accountStatementRegExp cleanLine
  || test currencyRegExp cleanLine
  || includes cleanLine "PO Box"
  || includes cleanLine "Dubai Creek"
  || includes cleanLine "Dubai,ARE"
  || test sixDigitsRegExp cleanLine.

(** The sign by the keyword list. *)
Definition signedAmount (description : string) (amount : number) : number :=
  if isIncomeTransaction description then mathAbs amount else neg (mathAbs amount).

(** [/^(DATE)/] *)
Definition datePattern : regex := Seq [Bol; Group 1 dateShape].

(** [/[\d,]+\.?\d+/] *)
Definition hasAmountRegExp : regex :=
  Seq [Plus (either digit (isChar ",")); Opt (isChar "."); Plus digit].

(** [/POS Settlement|Transfer|Payment|ATM|Deposit|Withdrawal|Charges|VAT|Switch|Reverse|Inward|Outward/i] *)
Definition transactionKeywordsRegExp : regex :=
  Alt (LitI "POS Settlement") (Alt (LitI "Transfer") (Alt (LitI "Payment")
  (Alt (LitI "ATM") (Alt (LitI "Deposit") (Alt (LitI "Withdrawal")
  (Alt (LitI "Charges") (Alt (LitI "VAT") (Alt (LitI "Switch")
  (Alt (LitI "Reverse") (Alt (LitI "Inward") (LitI "Outward"))))))))))).

(** [/^DATE\s*/], [/DATE\s*/] and [/AMOUNT\s*$/], which the alternative
    pattern removes to find the description. *)
Definition firstDateRegExp : regex := Seq [Bol; dateShape; Star space].
Definition secondDateRegExp : regex := Seq [dateShape; Star space].
Definition numberAtEndRegExp : regex := Seq [amountShape; Star space; Eol].

(** [numbers[numbers.length - k]]. *)
Definition fromEnd {A : Type} (k : nat) (l : list A) : option A :=
  nth_error l (List.length l - k).

(** The main pattern of [parseTransactionLine]; [Some result] when the
    pattern and its four fields are there, in which case the function
    returns [result], a transaction or [undefined]. *)
Definition mainTransaction (cleanLine : string) : option (option ParsedTransaction) :=
  match exec regularRegExp cleanLine with
  | Some m =>
      if present (group 1 m) && present (group 3 m) && present (group 4 m)
         && present (group 5 m) then
        let transactionDate := parseDate (text (group 1 m)) in
        let description := trim (text (group 3 m)) in
        let amount := parseAmount (text (group 4 m)) in
        let balance := parseAmount (text (group 5 m)) in
        match transactionDate with
        | Some date =>
            if negb (truthy description) || isNaN amount || isNaN balance
            then Some None
            else Some (Some (MkTransaction date description
                               (signedAmount description amount) [cleanLine]))
        | None => Some None
        end
      else None
  | None => None
  end.

(** The alternative pattern: a dated line with an amount and a
    transaction keyword; the last number is the balance, the one before
    it the amount. *)
Definition alternativeTransaction (cleanLine : string) : option ParsedTransaction :=
  let hasDate := test datePattern cleanLine in
  let hasAmount := test hasAmountRegExp cleanLine in
  let hasTransactionKeywords := test transactionKeywordsRegExp cleanLine in
  if hasDate && hasAmount && hasTransactionKeywords then
    match exec datePattern cleanLine with
    | Some dateMatch =>
        if present (group 1 dateMatch) then
          match parseDate (text (group 1 dateMatch)) with
          | Some transactionDate =>
              let numbers := matchAll amountShape cleanLine in
              if 2 <=? List.length numbers then
                match fromEnd 2 numbers, fromEnd 1 numbers with
                | Some amountStr, Some balanceStr =>
                    if negb (truthy amountStr) || negb (truthy balanceStr) then None
                    else
                      let amount := parseAmount amountStr in
                      let balance := parseAmount balanceStr in
                      let description :=
                        trim (replace numberAtEndRegExp ""
                                (replace numberAtEndRegExp ""
                                   (replace secondDateRegExp ""
                                      (replace firstDateRegExp "" cleanLine)))) in
                      if truthy description && negb (isNaN amount) && negb (isNaN balance)
                      then Some (MkTransaction transactionDate description
                                   (signedAmount description amount) [cleanLine])
                      else None
                | _, _ => None
                end
              else None
          | None => None
          end
        else None
    | None => None
    end
  else None.

(** [parseTransactionLine]. *)
Definition parseTransactionLine (line : string) : option ParsedTransaction :=
  let cleanLine := trim (collapseSpaces false line) in
  if isIrrelevantLine cleanLine then None
  else
    match mainTransaction cleanLine with
    | Some result => result
    | None => alternativeTransaction cleanLine
    end.

(** [extractAccountInfo] of this revision: a date that does not parse
    leaves the field as it is. *)
Definition extractAccountInfo (line : string) (output : ParsedOutput) : ParsedOutput :=
  let output1 :=
    match exec accountNumberRegExp line with
    | Some accountMatch =>
        if present (group 1 accountMatch) then
          let accountParts := split "-" (text (group 1 accountMatch)) in
          let o := setAccountSuffix (last accountParts "") output in
          match exec customerNameRegExp line with
          | Some nameMatch =>
              if present (group 1 nameMatch)
              then setName (Some (trim (text (group 1 nameMatch)))) o
              else o
          | None => o
          end
        else output
    | None => output
    end in
  match exec statementPeriodRegExp line with
  | Some periodMatch =>
      if present (group 1 periodMatch) && present (group 2 periodMatch) then
        let startDate := parseDate (text (group 1 periodMatch)) in
        let endDate := parseDate (text (group 2 periodMatch)) in
        let output2 :=
          match startDate with
          | Some d => setYearPrefix (getFullYear d / 100)%Z (setStartDate (Some d) output1)
          | None => output1
          end in
        match endDate with
        | Some d => setEndDate (Some d) output2
        | None => output2
        end
      else output1
  | None => output1
  end.

(** [performStateAction]. *)
Definition performStateAction (currentState : State) (line : string)
  (output : ParsedOutput) (parserOptions : ParserOptions) : ParsedOutput :=
  let cleanLine := trim line in
  let output1 := extractAccountInfo cleanLine output in
  let output2 := defaultYearPrefix parserOptions output1 in
  match currentState with
  | TransactionLines =>
      match parseTransactionLine cleanLine with
      | Some transaction =>
          if gt0 (amount transaction) then pushIncome transaction output2
          else pushExpense transaction output2
      | None => output2
      end
  | _ => output2
  end.

(** [fabBankAccountParser.parseText] of this revision. *)
Definition parseText (textLines : list string) (parserOptions : ParserOptions)
  : ParsedOutput :=
  run performStateAction nextState parserOptions Header initOutput textLines.

End FabKeywords.


(* ================================================================== *)
(** * The revision that carries a pending transaction *)
(* ================================================================== *)

(** The sibling revision with the ordered pattern list and the
    module-level variable [pendingTransaction], which carries a
    transaction under construction from one line to the next.  The
    variable is threaded explicitly: every function that reads or writes
    it takes its value and returns the new one. *)
Module FabPending.
Import JsString JsNumber JsRegExp.
Export FabCommon.

(** [Partial<ParsedTransaction>] as the module creates it: the date, the
    description and the original text are set where the object is made;
    the amount may be missing. *)
Record PendingTransaction : Type := MkPending {
  pDate : Date;
  pDescription : string;
  pAmount : option number;
  pOriginalText : list string
}.

(** The value of [let pendingTransaction] where the module is loaded. *)
Definition noPending : option PendingTransaction := None.

Definition incomeKeywords : list string :=
  ["transfer"; "inward"; "deposit"; "reverse charges"; "atm cash deposit";
   "cash deposit"; "credit"].

(** [isIncomeTransaction]. *)
Definition isIncomeTransaction (description : string) : bool :=
  let lowerDesc := toLowerCase description in
  existsb (fun keyword => includes lowerDesc keyword) incomeKeywords.

(** [transactionPatterns].  Groups 1, 3 and 4 are the date, the
    description and the amount in each; the balance is group 6 in the
    fourth pattern and group 5 elsewhere. *)
Definition transactionPatterns : list (regex * nat) :=
  [ (regularRegExp, 5);
    (Seq [Bol; Group 1 dateShape; Plus space; Group 2 dateShape; Plus space;
          Group 3 (PlusLazy dot); Plus space; Exactly 3 upper; Plus space;
          Group 4 amountShape; Plus space; Group 5 amountShape; Eol], 5);
    (regularRegExp, 5);
    (Seq [Bol; Group 1 dateShape; Plus space; Group 2 dateShape; Plus space;
          Group 3 (Lit "POS Settlement VAT AED"); Plus space;
          Group 4 amountShape; Plus space; Group 5 amountShape; Plus space;
          Group 6 amountShape; Eol], 6);
    (Seq [Bol; Group 1 dateShape; Plus space; Group 2 dateShape; Plus space;
          Group 3 (Alt (Lit "Switch Transaction")
                       (Alt (Lit "SW WDL Chgs") (Lit "ATM Cash Deposit")));
          Plus space; Group 4 amountShape; Plus space; Group 5 amountShape; Eol], 5) ].

(** [/(AMOUNT)\s*$/] *)
Definition balanceAtEndRegExp : regex :=
  Seq [Group 1 amountShape; Star space; Eol].

(** [/^(DATE)\s+(DATE)\s+(.+)$/] *)
Definition incompleteRegExp : regex :=
  Seq [Bol; Group 1 dateShape; Plus space; Group 2 dateShape; Plus space;
       Group 3 (Plus dot); Eol].

(** The sign the module gives an amount found in a description. *)
Definition signedAmount (description : string) (amount : number) : number :=
  if isIncomeTransaction description then mathAbs amount else neg (mathAbs amount).

(** [!pendingTransaction.amount]. *)
Definition amountMissing (a : option number) : bool :=
  match a with Some x => negb (truthyNum x) | None => true end.

(** The continuation branch of [parseTransaction]: the line does not
    start with a date and a transaction is pending. *)
Definition continuePending (p : PendingTransaction) (cleanLine : string)
  : option ParsedTransaction * option PendingTransaction :=
  let p1 :=
    if truthy (pDescription p)
    then MkPending (pDate p) (pDescription p ++ " " ++ cleanLine) (pAmount p)
                   (pOriginalText p)
    else p in
  match exec balanceAtEndRegExp cleanLine with
  | Some balanceMatch =>
      if present (group 1 balanceMatch) then
        let p2 :=
          if amountMissing (pAmount p1) && truthy (pDescription p1) then
            match exec amountRegExp (pDescription p1) with
            | Some amountMatch =>
                if present (group 1 amountMatch) then
                  let amount := parseAmount (text (group 1 amountMatch)) in
                  MkPending (pDate p1) (pDescription p1)
                            (Some (signedAmount (pDescription p1) amount))
                            (pOriginalText p1)
                else p1
            | None => p1
            end
          else p1 in
        match pAmount p2 with
        | Some a =>
            if truthy (pDescription p2)
            then (Some (MkTransaction (pDate p2) (pDescription p2) a (pOriginalText p2)),
                  None)
            else (None, Some p2)
        | None => (None, Some p2)
        end
      else (None, Some p1)
  | None => (None, Some p1)
  end.

(** The loop over [transactionPatterns]: the first pattern that matches
    with all four fields and a valid date gives the transaction. *)
Fixpoint tryPatterns (patterns : list (regex * nat)) (line cleanLine : string)
  : option ParsedTransaction :=
  match patterns with
  | [] => None
  | (pattern, balanceGroup) :: patterns' =>
      let found :=
        match exec pattern cleanLine with
        | Some m =>
            let dateStr := group 1 m in
            let description := group 3 m in
            let amountStr := group 4 m in
            let balanceStr := group balanceGroup m in
            if present dateStr && present description && present amountStr
               && present balanceStr then
              match parseDate (text dateStr) with
              | Some date =>
                  let amount := parseAmount (text amountStr) in
                  let desc := trim (text description) in
                  Some (MkTransaction date desc (signedAmount desc amount) [line])
              | None => None
              end
            else None
        | None => None
        end in
      match found with
      | Some t => Some t
      | None => tryPatterns patterns' line cleanLine
      end
  end.

(** The last part of [parseTransaction]: a dated line without amount
    and balance starts a new pending transaction. *)
Definition startPending (pending : option PendingTransaction) (line cleanLine : string)
  : option PendingTransaction :=
  match exec incompleteRegExp cleanLine with
  | Some incompleteMatch =>
      let dateStr := group 1 incompleteMatch in
      let description := group 3 incompleteMatch in
      if present dateStr && present description then
        match parseDate (text dateStr) with
        | Some date =>
            let amount :=
              match exec amountRegExp (text description) with
              | Some amountMatch =>
                  if present (group 1 amountMatch)
                  then Some (signedAmount (text description)
                                          (parseAmount (text (group 1 amountMatch))))
                  else None
              | None => None
              end in
            Some (MkPending date (trim (text description)) amount [line])
        | None => pending
        end
      else pending
  | None => pending
  end.

(** [parseTransaction]: the result and the new value of
    [pendingTransaction]. *)
Definition parseTransaction (pending : option PendingTransaction) (line : string)
  : option ParsedTransaction * option PendingTransaction :=
  let cleanLine := trim (collapseSpaces false line) in
  let dated := test startsWithDateRegExp cleanLine in
  match dated, pending with
  | false, Some p => continuePending p cleanLine
  | false, None => (None, pending)
  | true, _ =>
      match tryPatterns transactionPatterns line cleanLine with
      | Some t => (Some t, pending)
      | None => (None, startPending pending line cleanLine)
      end
  end.

(** [/^[\u0600-\u06FF\s]+$/]; below 256 the class holds the white
    space only. *)
Definition arabicTextRegExp : regex := Seq [Bol; Plus space; Eol].

(** [/^\d+$/] *)
Definition standaloneNumberRegExp : regex := Seq [Bol; Plus digit; Eol].

Definition isSkippedLine (cleanLine : string) : bool :=
  includes cleanLine "DATE VALUE DATE DESCRIPTION"
  || includes cleanLine "Balance carried forward"
  || includes cleanLine "Balance brought forward"
  || startsWith cleanLine "Sheet no."
  || includes cleanLine "Important:"
  || includes cleanLine "T&Cs Apply"
  || includes cleanLine "First Abu Dhabi Bank"
  || includes cleanLine "Contact Centre"
  || includes cleanLine "endeavor to get back"
  || test arabicTextRegExp cleanLine
  || (String.length cleanLine <? 5)
  || test standaloneNumberRegExp cleanLine.

(** What one parse works on: the accumulator it owns, and the
    module-level variable it shares with every other parse. *)
Definition world : Type := ParsedOutput * option PendingTransaction.

(** [performStateAction]. *)
Definition performStateAction (currentState : State) (line : string)
  (w : world) (parserOptions : ParserOptions) : world :=
  let '(output, pending) := w in
  let cleanLine := trim line in
  let output1 := extractAccountInfo cleanLine output in
  let output2 := defaultYearPrefix parserOptions output1 in
  match currentState with
  | TransactionLines =>
      if isSkippedLine cleanLine then (output2, pending)
      else
        match parseTransaction pending cleanLine with
        | (Some transaction, pending') =>
            if gt0 (amount transaction) then (pushIncome transaction output2, pending')
            else (pushExpense transaction output2, pending')
        | (None, pending') => (output2, pending')
        end
  | _ => (output2, pending)
  end.

(** [nextState]. *)
Definition nextState (currentState : State) (line : string)
  (parserOptions : ParserOptions) : State :=
  let cleanLine := trim (toLowerCase line) in
  match currentState with
  | Header =>
      if includes cleanLine "date value date description debit credit balance"
      then TransactionLines else currentState
  | TransactionLines =>
      if includes cleanLine "closing book balance"
         || includes cleanLine "closing statement balance"
         || includes cleanLine "end of statement"
         || includes cleanLine "total debit txns"
         || (includes cleanLine "total" && includes cleanLine "txns")
      then EndState else currentState
  | EndState => currentState
  end.

(** One run of the plugin over a line sequence: the driver starts from
    the initial state and a fresh accumulator; [pending] is whatever the
    module-level variable holds when the run starts.  The run returns its
    accumulator and leaves the variable at the second component. *)
Definition parseText (pending : option PendingTransaction)
  (textLines : list string) (parserOptions : ParserOptions) : world :=
  run performStateAction nextState parserOptions Header (initOutput, pending) textLines.

(** Two runs over the same lines, one after the other in one process.
    With [reset] the carry is set back to its initial value between the
    runs; without it the second run starts from what the first left. *)
Definition parseTwice (reset : bool) (textLines : list string)
  (parserOptions : ParserOptions) : ParsedOutput * ParsedOutput :=
  let '(first, carry) := parseText noPending textLines parserOptions in
  let '(second, _) :=
    parseText (if reset then noPending else carry) textLines parserOptions in
  (first, second).

(** The line is dated: once cleaned, it starts with a date. *)
Definition isDated (line : string) : bool :=
  test startsWithDateRegExp (trim (collapseSpaces false line)).

(** The carry the last line of [carryLines] leaves. *)
Definition partialPending : PendingTransaction :=
  MkPending (MkDate 2024 1 1) "POS Settlement PARTIAL" None
            ["01 JAN 2024 01 JAN 2024 POS Settlement PARTIAL"].

End FabPending.

(* ================================================================== *)
(** * What a match is *)
(* ================================================================== *)

(** The meaning of a pattern, apart from the order in which the matcher
    tries the alternatives: [matches r x y] holds when [r] can take the
    position [x] to the position [y].  The matcher of [JsRegExp] only
    ever succeeds through such a step ([compile_sound] below). *)
Module JsRegExpSemantics.
Import JsString JsRegExp.

(** Every character of the text is in the class. *)
Fixpoint allChars (p : ascii -> bool) (s : string) : bool :=
  match s with
  | EmptyString => true
  | String c s' => p c && allChars p s'
  end.

(** [n] characters of the class [p] lead from [x] to [y]. *)
Inductive consumes (p : ascii -> bool) : nat -> mstate -> mstate -> Prop :=
| consumes_none (x : mstate) : consumes p 0 x x
| consumes_one (n k : nat) (c : ascii) (s : string) (cs : captures) (y : mstate) :
    p c = true ->
    consumes p n (MState (S k) s cs) y ->
    consumes p (S n) (MState k (String c s) cs) y.

Inductive matches : regex -> mstate -> mstate -> Prop :=
| matches_Empty (x : mstate) : matches Empty x x
| matches_Class (p : ascii -> bool) (k : nat) (c : ascii) (s : string) (cs : captures) :
    p c = true ->
    matches (Class p) (MState k (String c s) cs) (MState (S k) s cs)
| matches_Cat (r1 r2 : regex) (x y z : mstate) :
    matches r1 x y -> matches r2 y z -> matches (Cat r1 r2) x z
| matches_Alt_l (r1 r2 : regex) (x y : mstate) :
    matches r1 x y -> matches (Alt r1 r2) x y
| matches_Alt_r (r1 r2 : regex) (x y : mstate) :
    matches r2 x y -> matches (Alt r1 r2) x y
| matches_Repeat (greedy : bool) (min : nat) (max : option nat) (p : ascii -> bool)
    (n : nat) (x y : mstate) :
    consumes p n x y -> min <= n -> (forall m, max = Some m -> n <= m) ->
    matches (Repeat greedy min max p) x y
| matches_Group (i : nat) (r : regex) (x y : mstate) :
    matches r x y ->
    matches (Group i r) x (MState (pos y) (rest y) ((i, consumed x y) :: caps y))
| matches_Bol (x : mstate) : pos x = 0 -> matches Bol x x
| matches_Eol (x : mstate) : rest x = EmptyString -> matches Eol x x.

(** The same, seen from the subject: [parses r t cs] holds when [r] can
    match the text [t] while capturing the groups [cs] (latest first).
    The anchors consume nothing; what they demand of the position is
    kept by [startsAnchored] and [endsAnchored]. *)
Inductive parses : regex -> string -> captures -> Prop :=
| parses_Empty : parses Empty EmptyString []
| parses_Class (p : ascii -> bool) (c : ascii) :
    p c = true -> parses (Class p) (String c EmptyString) []
| parses_Cat (r1 r2 : regex) (t1 t2 : string) (cs1 cs2 : captures) :
    parses r1 t1 cs1 -> parses r2 t2 cs2 ->
    parses (Cat r1 r2) (t1 ++ t2) (cs2 ++ cs1)
| parses_Alt_l (r1 r2 : regex) (t : string) (cs : captures) :
    parses r1 t cs -> parses (Alt r1 r2) t cs
| parses_Alt_r (r1 r2 : regex) (t : string) (cs : captures) :
    parses r2 t cs -> parses (Alt r1 r2) t cs
| parses_Repeat (greedy : bool) (min : nat) (max : option nat) (p : ascii -> bool)
    (t : string) :
    allChars p t = true -> min <= String.length t ->
    (forall m, max = Some m -> String.length t <= m) ->
    parses (Repeat greedy min max p) t []
| parses_Group (i : nat) (r : regex) (t : string) (cs : captures) :
    parses r t cs -> parses (Group i r) t ((i, t) :: cs)
| parses_Bol : parses Bol EmptyString []
| parses_Eol : parses Eol EmptyString [].

(** The pattern starts with [^]. *)
Fixpoint startsAnchored (r : regex) : bool :=
  match r with
  | Bol => true
  | Cat r1 _ => startsAnchored r1
  | Group _ r1 => startsAnchored r1
  | _ => false
  end.

(** The pattern ends with [$]. *)
Fixpoint endsAnchored (r : regex) : bool :=
  match r with
  | Eol => true
  | Cat _ r2 => endsAnchored r2
  | Group _ r1 => endsAnchored r1
  | _ => false
  end.

(** The least number of characters a match of the pattern consumes. *)
Fixpoint minLength (r : regex) : nat :=
  match r with
  | Class _ => 1
  | Cat r1 r2 => minLength r1 + minLength r2
  | Alt r1 r2 => Nat.min (minLength r1) (minLength r2)
  | Repeat _ min _ _ => min
  | Group _ r1 => minLength r1
  | Empty | Bol | Eol => 0
  end.

(** The pattern has no capturing group. *)
Fixpoint noGroups (r : regex) : bool :=
  match r with
  | Cat r1 r2 | Alt r1 r2 => noGroups r1 && noGroups r2
  | Group _ _ => false
  | _ => true
  end.

End JsRegExpSemantics.

(* ================================================================== *)
(** * Properties of the stable sort *)
(* ================================================================== *)

Section StableSortFacts.
Context {A : Type}.
Variable le : A -> A -> bool.

Lemma sortInsert_perm (x : A) (l : list A) :
  Permutation (sortInsert le x l) (x :: l).
Proof.
  induction l as [|y l IH]; simpl.
  - apply Permutation_refl.
  - destruct (le x y).
    + apply Permutation_refl.
    + eapply Permutation_trans; [apply perm_skip, IH | apply perm_swap].
Qed.

Lemma jsSort_perm (l : list A) : Permutation (jsSort le l) l.
Proof.
  induction l as [|x l IH]; simpl.
  - constructor.
  - eapply Permutation_trans; [apply sortInsert_perm | apply perm_skip, IH].
Qed.

Lemma jsSort_In (l : list A) (x : A) : In x (jsSort le l) <-> In x l.
Proof.
  split; apply Permutation_in;
    [apply jsSort_perm | apply Permutation_sym, jsSort_perm].
Qed.

Hypothesis le_total : forall a b, le a b = false -> le b a = true.
Hypothesis le_trans : forall a b c, le a b = true -> le b c = true -> le a c = true.

Lemma sortInsert_sorted (x : A) (l : list A) :
  StronglySorted (fun a b => le a b = true) l ->
  StronglySorted (fun a b => le a b = true) (sortInsert le x l).
Proof.
  induction l as [|y l IH]; simpl; intros Hs.
  - constructor; [constructor | constructor].
  - apply StronglySorted_inv in Hs as [Hs Hy].
    destruct (le x y) eqn:Hxy.
    + constructor.
      * constructor; assumption.
      * constructor; [assumption|].
        eapply Forall_impl; [|exact Hy].
        intros z Hz; eapply le_trans; eassumption.
    + constructor; [apply IH, Hs|].
      eapply Permutation_Forall; [apply Permutation_sym, sortInsert_perm|].
      constructor; [apply le_total, Hxy | exact Hy].
Qed.

Lemma jsSort_sorted (l : list A) :
  StronglySorted (fun a b => le a b = true) (jsSort le l).
Proof.
  induction l as [|x l IH]; simpl.
  - constructor.
  - apply sortInsert_sorted, IH.
Qed.

End StableSortFacts.

(** In a strictly descending list, the larger of two members comes
    first. *)
Lemma descending_split (l : list Z) (a b : Z) :
  StronglySorted (fun x y => (y < x)%Z) l -> In a l -> In b l -> (b < a)%Z ->
  exists pre mid post, l = pre ++ a :: mid ++ b :: post.
Proof.
  induction l as [|x l IH]; intros Hs Ha Hb Hlt; [destruct Ha|].
  apply StronglySorted_inv in Hs as [Hs Hx].
  rewrite Forall_forall in Hx.
  destruct Ha as [-> | Ha].
  - destruct Hb as [-> | Hb]; [lia|].
    apply in_split in Hb as (mid & post & ->).
    exists [], mid, post; reflexivity.
  - destruct Hb as [-> | Hb].
    + specialize (Hx _ Ha); lia.
    + destruct (IH Hs Ha Hb Hlt) as (pre & mid & post & ->).
      exists (x :: pre), mid, post; reflexivity.
Qed.


Lemma descending_strict (l : list Z) :
  StronglySorted (fun x y => (y <= x)%Z) l -> NoDup l ->
  StronglySorted (fun x y => (y < x)%Z) l.
Proof.
  induction 1 as [|x l Hs IH Hx]; intros Hnd; constructor.
  - apply IH; inversion Hnd; assumption.
  - inversion Hnd as [|? ? Hnin _]; subst.
    rewrite Forall_forall in *; intros y Hy.
    specialize (Hx _ Hy).
    assert (y <> x) by (intros ->; contradiction).
    lia.
Qed.

Lemma StronglySorted_weaken {A : Type} (R R' : A -> A -> Prop) (l : list A) :
  (forall a b, R a b -> R' a b) -> StronglySorted R l -> StronglySorted R' l.
Proof.
  intros Himp; induction 1; constructor; [assumption|].
  eapply Forall_impl; [|eassumption]; auto.
Qed.

(** A strictly descending list is determined by its members. *)
Lemma descending_unique (l1 l2 : list Z) :
  StronglySorted (fun x y => (y < x)%Z) l1 ->
  StronglySorted (fun x y => (y < x)%Z) l2 ->
  (forall x, In x l1 <-> In x l2) -> l1 = l2.
Proof.
  revert l2; induction l1 as [|x l1 IH]; intros l2 H1 H2 Hin.
  - destruct l2 as [|y l2]; [reflexivity|].
    destruct (proj2 (Hin y)); left; reflexivity.
  - destruct l2 as [|y l2]; [destruct (proj1 (Hin x)); left; reflexivity|].
    apply StronglySorted_inv in H1 as [H1 Hx], H2 as [H2 Hy].
    rewrite Forall_forall in Hx, Hy.
    assert (x = y) as <-.
    { destruct (proj1 (Hin x) (or_introl eq_refl)) as [E|Hx2]; [congruence|].
      destruct (proj2 (Hin y) (or_introl eq_refl)) as [E|Hy1]; [congruence|].
      specialize (Hx _ Hy1); specialize (Hy _ Hx2); lia. }
    f_equal; apply IH; [assumption | assumption|].
    intros z; split; intros Hz.
    + destruct (proj1 (Hin z) (or_intror Hz)) as [E|]; [|assumption].
      specialize (Hx _ Hz); lia.
    + destruct (proj2 (Hin z) (or_intror Hz)) as [E|]; [|assumption].
      specialize (Hy _ Hz); lia.
Qed.

(* ================================================================== *)
(** * Properties of [readPdf] *)
(* ================================================================== *)

Section NumberNames.
Import JsString ReadPdf.

Lemma decimalPrefix_digits (u : Decimal.uint) :
  decimalPrefix (DecimalString.NilEmpty.string_of_uint u) = u.
Proof. induction u; simpl; congruence. Qed.

Lemma unsignedValue_digits (u : Decimal.uint) :
  u <> Decimal.Nil ->
  unsignedValue (DecimalString.NilEmpty.string_of_uint u) = Some (Z.of_N (N.of_uint u)).
Proof.
  intros Hu.
  assert (H : unsignedValue (DecimalString.NilEmpty.string_of_uint u)
              = match decimalPrefix (DecimalString.NilEmpty.string_of_uint u) with
                | Decimal.Nil => None
                | v => Some (Z.of_N (N.of_uint v))
                end).
  { destruct u as [|u|u|u|u|u|u|u|u|u|u]; try reflexivity.
    destruct u; reflexivity. }
  rewrite H, decimalPrefix_digits.
  destruct u; congruence.
Qed.

Lemma to_uint_nonnil (n : N) : N.to_uint n <> Decimal.Nil.
Proof.
  destruct n as [|p]; [discriminate|].
  apply DecimalPos.Unsigned.to_uint_nonnil.
Qed.

Lemma parseInt_digits (u : Decimal.uint) :
  u <> Decimal.Nil ->
  parseInt (DecimalString.NilEmpty.string_of_uint u) = Some (Z.of_N (N.of_uint u)).
Proof.
  intros Hu; rewrite <- (unsignedValue_digits u Hu).
  destruct u; try reflexivity; congruence.
Qed.

Lemma parseInt_minus_digits (u : Decimal.uint) :
  u <> Decimal.Nil ->
  parseInt ("-" ++ DecimalString.NilEmpty.string_of_uint u)%string
  = Some (- Z.of_N (N.of_uint u))%Z.
Proof.
  intros Hu.
  change (parseInt ("-" ++ DecimalString.NilEmpty.string_of_uint u)%string)
    with (option_map Z.opp (unsignedValue (DecimalString.NilEmpty.string_of_uint u))).
  rewrite (unsignedValue_digits u Hu); reflexivity.
Qed.

(** The decimal text of an integer parses to the integer. *)
Lemma parseInt_decimal (n : Z) :
  parseInt ((if (n <? 0)%Z then "-" else "") ++ digitsOf n)%string = Some n.
Proof.
  unfold digitsOf.
  destruct (Z.ltb_spec n 0) as [Hn|Hn].
  - rewrite parseInt_minus_digits by apply to_uint_nonnil.
    rewrite DecimalN.Unsigned.of_to, N2Z.inj_abs_N; f_equal; lia.
  - simpl; rewrite parseInt_digits by apply to_uint_nonnil.
    rewrite DecimalN.Unsigned.of_to, N2Z.inj_abs_N; f_equal; lia.
Qed.

(** Below [10^21] the round trip through the property name gives the
    number back. *)
Lemma parseInt_propertyName_small (n : Z) :
  (Z.abs n < 10 ^ 21)%Z -> parseInt (propertyName n) = Some n.
Proof.
  intros Hn; unfold propertyName.
  destruct (Z.ltb_spec (Z.abs n) (10 ^ 21)) as [_|H]; [apply parseInt_decimal | lia].
Qed.

Lemma digits_head (u : Decimal.uint) (c : ascii) (rest : string) :
  DecimalString.NilEmpty.string_of_uint u = String c rest ->
  decimalDigit c <> None.
Proof. destruct u; simpl; intros H; inversion H; discriminate. Qed.

(** What [parseInt] reads of a text in exponent form: its first
    digit. *)
Lemma unsignedValue_exponentForm (c : ascii) (rest : string) :
  decimalDigit c <> None ->
  exists d, unsignedValue (exponentForm (String c rest)) = Some d /\ (0 <= d <= 9)%Z.
Proof.
  intros Hc; unfold exponentForm.
  destruct (dropTrailingZeros rest) as [|c' fraction];
    destruct c as [[] [] [] [] [] [] [] []]; try (exfalso; apply Hc; reflexivity);
    simpl; eexists; (split; [reflexivity | lia]).
Qed.

Lemma parseInt_exponentForm (c : ascii) (rest : string) :
  decimalDigit c <> None ->
  exists d, parseInt (exponentForm (String c rest)) = Some d /\ (0 <= d <= 9)%Z.
Proof.
  intros Hc.
  destruct (unsignedValue_exponentForm c rest Hc) as (d & Hd & Hr).
  exists d; split; [|exact Hr].
  rewrite <- Hd; unfold exponentForm.
  destruct c as [[] [] [] [] [] [] [] []]; try (exfalso; apply Hc; reflexivity);
    reflexivity.
Qed.

Lemma digitsOf_cons (n : Z) :
  exists c rest, digitsOf n = String c rest /\ decimalDigit c <> None.
Proof.
  unfold digitsOf.
  destruct (DecimalString.NilEmpty.string_of_uint (N.to_uint (Z.abs_N n)))
    as [|c rest] eqn:E.
  - pose proof (to_uint_nonnil (Z.abs_N n)) as Hu.
    destruct (N.to_uint (Z.abs_N n)); simpl in E; congruence.
  - exists c, rest; split; [reflexivity | eapply digits_head; exact E].
Qed.

(** From [10^21] on, [parseInt] reads one digit of the name. *)
Lemma parseInt_propertyName_large (n : Z) :
  (10 ^ 21 <= Z.abs n)%Z ->
  exists d, parseInt (propertyName n) = Some d /\ (Z.abs d <= 9)%Z.
Proof.
  intros Hn; unfold propertyName.
  destruct (Z.ltb_spec (Z.abs n) (10 ^ 21)) as [H|_]; [lia|].
  destruct (digitsOf_cons n) as (c & rest & -> & Hc).
  destruct (Z.ltb n 0).
  - destruct (unsignedValue_exponentForm c rest Hc) as (d & Hd & Hr).
    exists (- d)%Z; split; [|lia].
    change (parseInt ("-" ++ exponentForm (String c rest))%string)
      with (option_map Z.opp (unsignedValue (exponentForm (String c rest)))).
    rewrite Hd; reflexivity.
  - destruct (parseInt_exponentForm c rest Hc) as (d & Hd & Hr).
    exists d; split; [exact Hd | lia].
Qed.

(** [parseInt] reads every property name of a number as a number below
    [10^21], never as [NaN]. *)
Lemma parseInt_propertyName_some (n : Z) :
  exists d, parseInt (propertyName n) = Some d /\ (Z.abs d < 10 ^ 21)%Z.
Proof.
  destruct (Z.lt_ge_cases (Z.abs n) (10 ^ 21)) as [Hn|Hn].
  - exists n; split; [apply parseInt_propertyName_small, Hn | exact Hn].
  - destruct (parseInt_propertyName_large n Hn) as (d & Hd & Hr).
    exists d; split; [exact Hd | lia].
Qed.

Lemma name_length_append (a b : string) :
  String.length (a ++ b)%string = String.length a + String.length b.
Proof. induction a; simpl; congruence. Qed.

Lemma propertyName_large_length (n : Z) :
  (10 ^ 21 <= Z.abs n)%Z -> 4 <= String.length (propertyName n).
Proof.
  intros Hn; unfold propertyName.
  destruct (Z.ltb_spec (Z.abs n) (10 ^ 21)) as [H|_]; [lia|].
  destruct (digitsOf_cons n) as (c & rest & -> & _).
  destruct (digitsOf_cons (Z.of_nat (String.length rest))) as (c' & rest' & E & _).
  rewrite name_length_append; unfold exponentForm; simpl.
  rewrite name_length_append, E; simpl; lia.
Qed.

Lemma propertyName_digit_length (d : Z) :
  (Z.abs d <= 9)%Z -> String.length (propertyName d) <= 2.
Proof.
  intros Hd.
  assert (H : (d = -9 \/ d = -8 \/ d = -7 \/ d = -6 \/ d = -5 \/ d = -4 \/ d = -3
               \/ d = -2 \/ d = -1 \/ d = 0 \/ d = 1 \/ d = 2 \/ d = 3 \/ d = 4
               \/ d = 5 \/ d = 6 \/ d = 7 \/ d = 8 \/ d = 9)%Z) by lia.
  repeat (destruct H as [->|H]; [vm_compute; lia|]); subst; vm_compute; lia.
Qed.

(** The name of a number below [10^21] is the name of no other
    number. *)
Lemma propertyName_inj_small (k y : Z) :
  (Z.abs y < 10 ^ 21)%Z -> propertyName k = propertyName y -> k = y.
Proof.
  intros Hy E.
  pose proof (parseInt_propertyName_small y Hy) as Py.
  destruct (Z.lt_ge_cases (Z.abs k) (10 ^ 21)) as [Hk|Hk].
  - pose proof (parseInt_propertyName_small k Hk) as Pk; congruence.
  - destruct (parseInt_propertyName_large k Hk) as (d & Pk & Hd).
    assert (y = d) by congruence; subst y.
    pose proof (propertyName_large_length k Hk).
    pose proof (propertyName_digit_length d Hd).
    rewrite E in *; lia.
Qed.

End NumberNames.

Section ReadPdfFacts.
Import JsString ReadPdf.

Lemma lookup_pushAt_same (y : string) (it : item) (m : buckets) :
  lookup y (pushAt y it m)
  = Some (match lookup y m with Some arr => arr ++ [it] | None => [it] end).
Proof.
  induction m as [|[k arr] m IH]; simpl.
  - rewrite String.eqb_refl; reflexivity.
  - destruct (String.eqb k y) eqn:E; simpl; rewrite E; [reflexivity | exact IH].
Qed.

Lemma lookup_pushAt_other (y k : string) (it : item) (m : buckets) :
  k <> y -> lookup k (pushAt y it m) = lookup k m.
Proof.
  intros Hne; induction m as [|[k' arr] m IH]; simpl.
  - destruct (String.eqb_spec y k); [congruence | reflexivity].
  - destruct (String.eqb_spec k' y) as [->|Hk]; simpl.
    + destruct (String.eqb_spec y k); [congruence | reflexivity].
    + destruct (String.eqb k' k); [reflexivity | exact IH].
Qed.

Lemma in_keys_pushAt (y k : string) (it : item) (m : buckets) :
  In k (keys (pushAt y it m)) <-> k = y \/ In k (keys m).
Proof.
  induction m as [|[k' arr] m IH]; simpl.
  - intuition.
  - destruct (String.eqb_spec k' y) as [->|Hk]; simpl.
    + intuition.
    + rewrite IH; intuition.
Qed.

Lemma nodup_keys_pushAt (y : string) (it : item) (m : buckets) :
  NoDup (keys m) -> NoDup (keys (pushAt y it m)).
Proof.
  induction m as [|[k' arr] m IH]; simpl; intros Hnd.
  - constructor; [intros [] | constructor].
  - inversion Hnd as [|? ? Hnin Hnd']; subst.
    destruct (String.eqb_spec k' y) as [->|Hk]; simpl.
    + constructor; assumption.
    + constructor; [|apply IH, Hnd'].
      rewrite in_keys_pushAt; intros [->|Hin]; [congruence | contradiction].
Qed.

Lemma length_pushAt (y : string) (it : item) (m : buckets) :
  List.length (pushAt y it m) <= S (List.length m).
Proof.
  induction m as [|[k' arr] m IH]; simpl; [lia|].
  destruct (String.eqb k' y); simpl; lia.
Qed.

Lemma in_keys_lookup (m : buckets) (k : string) :
  In k (keys m) <-> lookup k m <> None.
Proof.
  induction m as [|[k' arr] m IH]; simpl.
  - intuition.
  - destruct (String.eqb_spec k' k) as [->|Hk].
    + split; [discriminate | auto].
    + rewrite <- IH; intuition.
Qed.

Lemma itemsByY_snoc (p : page) (it : item) :
  itemsByY (p ++ [it]) = groupStep (itemsByY p) it.
Proof. unfold itemsByY; rewrite fold_left_app; reflexivity. Qed.

(** The array stored under a name holds the fragments of the page whose
    rounded coordinate has that name, in the order of arrival; no array
    is empty. *)
Lemma itemsByY_lookup (p : page) (name : string) :
  lookup name (itemsByY p)
  = match filter (inNamedBucket name) p with [] => None | l => Some l end.
Proof.
  induction p as [|it p IH] using rev_ind; [reflexivity|].
  rewrite itemsByY_snoc, filter_app; simpl.
  unfold groupStep, inNamedBucket at 2.
  destruct (bucketOf it) as [y|]; [|rewrite app_nil_r; exact IH].
  destruct (String.eqb_spec (propertyName y) name) as [<-|Hne].
  - rewrite lookup_pushAt_same, IH.
    destruct (filter (inNamedBucket (propertyName y)) p); reflexivity.
  - rewrite lookup_pushAt_other, app_nil_r by congruence; exact IH.
Qed.

Lemma itemsByY_nodup (p : page) : NoDup (keys (itemsByY p)).
Proof.
  induction p as [|it p IH] using rev_ind; [constructor|].
  rewrite itemsByY_snoc; unfold groupStep.
  destruct (bucketOf it); [apply nodup_keys_pushAt|]; exact IH.
Qed.

Lemma in_filter_inBucket (p : page) (k : Z) (f : item) :
  In f (filter (inBucket k) p) <-> In f p /\ bucketOf f = Some k.
Proof.
  rewrite filter_In; unfold inBucket.
  destruct (bucketOf f) as [y|].
  - destruct (Z.eqb_spec y k) as [->|Hne]; intuition congruence.
  - intuition congruence.
Qed.

(** The names of the arrays are the names of the rounded coordinates
    that occur. *)
Lemma in_keys_itemsByY (p : page) (name : string) :
  In name (keys (itemsByY p))
  <-> exists f k, In f p /\ bucketOf f = Some k /\ propertyName k = name.
Proof.
  rewrite in_keys_lookup, itemsByY_lookup.
  assert (Hin : forall f, In f (filter (inNamedBucket name) p)
                          <-> In f p /\ exists k, bucketOf f = Some k
                                                  /\ propertyName k = name).
  { intros f; rewrite filter_In; unfold inNamedBucket.
    destruct (bucketOf f) as [y|].
    - destruct (String.eqb_spec (propertyName y) name) as [E|Hne].
      + split; [intros [H _]; split; [exact H | eauto] | tauto].
      + split; [intros [_ H]; discriminate|].
        intros [_ (k & Hk & E)]; congruence.
    - split; [intros [_ H]; discriminate | intros [_ (k & Hk & _)]; discriminate]. }
  destruct (filter (inNamedBucket name) p) as [|f l] eqn:E.
  - split; [congruence|].
    intros (f & k & Hf & Hk & Hn).
    destruct (proj2 (Hin f)); eauto.
  - split; [intros _ | discriminate].
    destruct (proj1 (Hin f) (or_introl eq_refl)) as (Hf & k & Hk & Hn); eauto.
Qed.

(** Under the name of a number below [10^21] lie the fragments whose
    rounded coordinate is that number. *)
Lemma inNamedBucket_small (y : Z) (it : item) :
  (Z.abs y < 10 ^ 21)%Z -> inNamedBucket (propertyName y) it = inBucket y it.
Proof.
  intros Hy; unfold inNamedBucket, inBucket.
  destruct (bucketOf it) as [k|]; [|reflexivity].
  destruct (String.eqb_spec (propertyName k) (propertyName y)) as [E|Hne].
  - apply propertyName_inj_small in E; [subst; symmetry; apply Z.eqb_refl | exact Hy].
  - destruct (Z.eqb_spec k y); [subst; congruence | reflexivity].
Qed.

Lemma lookup_small (p : page) (y : Z) :
  (Z.abs y < 10 ^ 21)%Z ->
  lookup (propertyName y) (itemsByY p)
  = match filter (inBucket y) p with [] => None | l => Some l end.
Proof.
  intros Hy; rewrite itemsByY_lookup.
  rewrite (filter_ext (inNamedBucket (propertyName y)) (inBucket y)); [reflexivity|].
  intros it; apply inNamedBucket_small, Hy.
Qed.

Lemma descending_total (a b : Z) : descending a b = false -> descending b a = true.
Proof. unfold descending; intros H; apply Z.leb_gt in H; apply Z.leb_le; lia. Qed.

Lemma descending_trans (a b c : Z) :
  descending a b = true -> descending b c = true -> descending a c = true.
Proof.
  unfold descending; intros H1 H2; apply Z.leb_le in H1, H2; apply Z.leb_le; lia.
Qed.

(** The sorted numbers descend. *)
Lemma sortNumbers_sorted (ks : list Z) :
  StronglySorted (fun a b => (b <= a)%Z) (jsSort descending ks).
Proof.
  apply StronglySorted_weaken with (R := fun a b => descending a b = true).
  - unfold descending; intros a b H; apply Z.leb_le in H; lia.
  - apply jsSort_sorted; [exact descending_total | exact descending_trans].
Qed.

(** They descend strictly when they are distinct. *)
Lemma sortNumbers_descending (ks : list Z) :
  NoDup ks -> StronglySorted (fun a b => (b < a)%Z) (jsSort descending ks).
Proof.
  intros Hnd; apply descending_strict; [apply sortNumbers_sorted|].
  eapply Permutation_NoDup; [apply Permutation_sym, jsSort_perm | exact Hnd].
Qed.

(** A descending list is determined by its members, counted with their
    multiplicity. *)
Lemma descending_perm_unique (l1 l2 : list Z) :
  StronglySorted (fun a b => (b <= a)%Z) l1 ->
  StronglySorted (fun a b => (b <= a)%Z) l2 ->
  Permutation l1 l2 -> l1 = l2.
Proof.
  revert l2; induction l1 as [|x l1 IH]; intros l2 H1 H2 Hp.
  - apply Permutation_nil in Hp; congruence.
  - destruct l2 as [|y l2]; [apply Permutation_sym, Permutation_nil in Hp; discriminate|].
    apply StronglySorted_inv in H1 as [H1 Hx].
    apply StronglySorted_inv in H2 as [H2 Hy].
    rewrite Forall_forall in Hx, Hy.
    assert (x = y) as <-.
    { assert (Hx2 : In x (y :: l2))
        by (eapply Permutation_in; [exact Hp | left; reflexivity]).
      assert (Hy1 : In y (x :: l1))
        by (eapply Permutation_in; [apply Permutation_sym, Hp | left; reflexivity]).
      destruct Hx2 as [E|Hx2]; [congruence|].
      destruct Hy1 as [E|Hy1]; [congruence|].
      specialize (Hx _ Hy1); specialize (Hy _ Hx2); lia. }
    f_equal; apply IH; [assumption | assumption|].
    eapply Permutation_cons_inv; exact Hp.
Qed.

(** The order in which [Object.keys] lists the names is immaterial. *)
Lemma sortNumbers_any_order (ks ks' : list Z) :
  Permutation ks ks' -> jsSort descending ks = jsSort descending ks'.
Proof.
  intros Hp; apply descending_perm_unique; try apply sortNumbers_sorted.
  eapply Permutation_trans; [apply jsSort_perm|].
  eapply Permutation_trans; [exact Hp | apply Permutation_sym, jsSort_perm].
Qed.

Lemma sortInsert_map {A B : Type} (f : A -> B) (le : A -> A -> bool)
      (le' : B -> B -> bool) (x : A) (l : list A) :
  (forall a b, le' (f a) (f b) = le a b) ->
  sortInsert le' (f x) (map f l) = map f (sortInsert le x l).
Proof.
  intros H; induction l as [|y l IH]; simpl; [reflexivity|].
  rewrite H; destruct (le x y); simpl; [reflexivity | rewrite IH; reflexivity].
Qed.

Lemma jsSort_map {A B : Type} (f : A -> B) (le : A -> A -> bool)
      (le' : B -> B -> bool) (l : list A) :
  (forall a b, le' (f a) (f b) = le a b) ->
  jsSort le' (map f l) = map f (jsSort le l).
Proof.
  intros H; induction l as [|x l IH]; simpl; [reflexivity|].
  rewrite IH; apply sortInsert_map, H.
Qed.

Lemma numbersOf_map_Some (zs : list Z) : numbersOf (map Some zs) = zs.
Proof. induction zs as [|z zs IH]; simpl; [reflexivity | f_equal; exact IH]. Qed.

Lemma all_numbers (l : list (option Z)) :
  Forall (fun y => y <> None) l -> l = map Some (numbersOf l).
Proof.
  induction 1 as [|y l Hy _ IH]; [reflexivity|].
  destruct y as [k|]; [|congruence].
  simpl; f_equal; exact IH.
Qed.

(** No name of an array is read as [NaN]. *)
Lemma parsed_are_numbers (p : page) :
  map parseInt (keys (itemsByY p)) = map Some (parsedKeys p).
Proof.
  apply all_numbers, Forall_forall; intros y Hy.
  apply in_map_iff in Hy as (name & <- & Hn).
  apply in_keys_itemsByY in Hn as (f & k & _ & _ & <-).
  destruct (parseInt_propertyName_some k) as (d & -> & _); discriminate.
Qed.

Lemma sorted_are_numbers (p : page) :
  sortKeys (map parseInt (keys (itemsByY p)))
  = map Some (jsSort descending (parsedKeys p)).
Proof.
  rewrite parsed_are_numbers; unfold sortKeys.
  apply jsSort_map; reflexivity.
Qed.

Lemma visitedKeys_eq (p : page) :
  visitedKeys p = jsSort descending (parsedKeys p).
Proof.
  unfold visitedKeys; rewrite sorted_are_numbers; apply numbersOf_map_Some.
Qed.

(** The numbers visited are what [parseInt] reads from the names of the
    rounded coordinates that occur. *)
Lemma in_visitedKeys (p : page) (d : Z) :
  In d (visitedKeys p)
  <-> exists f k, In f p /\ bucketOf f = Some k /\ parseInt (propertyName k) = Some d.
Proof.
  rewrite visitedKeys_eq, jsSort_In.
  assert (E : In d (parsedKeys p) <-> In (Some d) (map Some (parsedKeys p))).
  { split; [apply in_map|].
    intros H; apply in_map_iff in H as (x & Ex & Hx); congruence. }
  rewrite E, <- parsed_are_numbers, in_map_iff; split.
  - intros (name & Hd & Hn).
    apply in_keys_itemsByY in Hn as (f & k & Hf & Hk & <-); eauto.
  - intros (f & k & Hf & Hk & Hd).
    exists (propertyName k); split; [exact Hd|].
    apply in_keys_itemsByY; eauto.
Qed.

Lemma visitedKeys_small (p : page) (d : Z) :
  In d (visitedKeys p) -> (Z.abs d < 10 ^ 21)%Z.
Proof.
  intros H; apply in_visitedKeys in H as (f & k & _ & _ & Hd).
  destruct (parseInt_propertyName_some k) as (d' & Hd' & Hs); congruence.
Qed.

Lemma visitedKeys_sorted (p : page) :
  StronglySorted (fun a b => (b <= a)%Z) (visitedKeys p).
Proof. rewrite visitedKeys_eq; apply sortNumbers_sorted. Qed.

Lemma xle_iff (a b : item) :
  Qle_bool (xCoord a - xCoord b) 0 = true <-> (xCoord a <= xCoord b)%Q.
Proof. rewrite Qle_bool_iff; split; intros H; lra. Qed.

(** Sorting a bucket puts its fragments in ascending order of the
    horizontal coordinate and keeps every fragment. *)
Lemma sortByX_sorted (l : list item) :
  StronglySorted (fun a b => (xCoord a <= xCoord b)%Q) (sortByX l).
Proof.
  apply StronglySorted_weaken
    with (R := fun a b => Qle_bool (xCoord a - xCoord b) 0 = true).
  - intros a b; apply xle_iff.
  - apply jsSort_sorted.
    + intros a b H; apply xle_iff.
      destruct (Qlt_le_dec (xCoord b) (xCoord a)) as [Hlt|Hle]; [lra|].
      apply xle_iff in Hle; congruence.
    + intros a b c H1 H2; apply xle_iff in H1, H2; apply xle_iff; lra.
Qed.

Lemma sortByX_In (l : list item) (f : item) : In f (sortByX l) <-> In f l.
Proof. apply jsSort_In. Qed.

(** The rows, number by number: a number visited gives a row when
    fragments have it as their rounded coordinate. *)
Lemma rows_visited (p : page) :
  rows p
  = flat_map (fun y => match filter (inBucket y) p with
                       | [] => []
                       | _ => [(y, sortByX (filter (inBucket y) p))]
                       end)
             (visitedKeys p).
Proof.
  unfold rows; rewrite sorted_are_numbers, <- visitedKeys_eq.
  assert (H : forall ks : list Z,
             (forall y, In y ks -> (Z.abs y < 10 ^ 21)%Z) ->
             flat_map (fun y => match y, lookup (numberName y) (itemsByY p) with
                                | Some k, Some lineData => [(k, sortByX lineData)]
                                | _, _ => []
                                end) (map Some ks)
             = flat_map (fun y => match filter (inBucket y) p with
                                  | [] => []
                                  | _ => [(y, sortByX (filter (inBucket y) p))]
                                  end) ks).
  { induction ks as [|y ks IH]; intros Hs; [reflexivity|].
    cbn [map flat_map]; rewrite IH by (intros; apply Hs; right; assumption).
    f_equal; cbn [numberName].
    rewrite lookup_small by (apply Hs; left; reflexivity).
    destruct (filter (inBucket y) p); reflexivity. }
  apply H, visitedKeys_small.
Qed.

Lemma in_rows (p : page) (r : Z * list item) :
  In r (rows p)
  <-> In (fst r) (visitedKeys p) /\ filter (inBucket (fst r)) p <> []
      /\ snd r = sortByX (filter (inBucket (fst r)) p).
Proof.
  rewrite rows_visited, in_flat_map; split.
  - intros (y & Hy & Hr).
    destruct (filter (inBucket y) p) as [|f l] eqn:E; [destruct Hr|].
    destruct Hr as [<-|[]]; simpl; rewrite E; repeat split; [exact Hy | discriminate].
  - intros (Hy & Hne & Hs); exists (fst r); split; [exact Hy|].
    destruct (filter (inBucket (fst r)) p) as [|f l] eqn:E; [congruence|].
    left; destruct r; simpl in *; congruence.
Qed.

(** Every row is the bucket of its key, sorted. *)
Lemma rows_eq (p : page) :
  rows p
  = map (fun y => (y, sortByX (filter (inBucket y) p))) (map fst (rows p)).
Proof.
  rewrite map_map; symmetry; erewrite map_ext_in; [apply map_id|].
  intros r Hr; apply in_rows in Hr as (_ & _ & Hs).
  destruct r; simpl in *; congruence.
Qed.

(** The keys of the rows descend: top of the page first. *)
Lemma rows_sorted (p : page) :
  StronglySorted (fun a b => (b <= a)%Z) (map fst (rows p)).
Proof.
  rewrite rows_visited.
  pose proof (visitedKeys_sorted p) as Hs.
  induction Hs as [|y ks Hs IH Hy]; simpl; [constructor|].
  rewrite map_app.
  assert (Hrest : Forall (fun b => (b <= y)%Z)
                    (map fst (flat_map (fun y0 => match filter (inBucket y0) p with
                                                   | [] => []
                                                   | _ => [(y0, sortByX (filter (inBucket y0) p))]
                                                   end) ks))).
  { rewrite Forall_forall in *; intros b Hb.
    apply in_map_iff in Hb as (r & <- & Hr).
    apply in_flat_map in Hr as (z & Hz & Hr).
    destruct (filter (inBucket z) p); [destruct Hr|].
    destruct Hr as [<-|[]]; simpl; apply Hy, Hz. }
  destruct (filter (inBucket y) p); simpl; [exact IH|].
  constructor; assumption.
Qed.

(** A row holds exactly the fragments of the page whose rounded vertical
    coordinate is the key of the row. *)
Lemma in_row (p : page) (r : Z * list item) (f : item) :
  In r (rows p) -> (In f (snd r) <-> In f p /\ bucketOf f = Some (fst r)).
Proof.
  intros Hr; apply in_rows in Hr as (_ & _ & ->).
  rewrite sortByX_In; apply in_filter_inBucket.
Qed.


Lemma fold_lineStep (m : buckets) (ks : list (option Z)) (acc : list string) :
  Forall (fun y => y <> None) ks ->
  fold_left (lineStep m) ks acc
  = acc ++ linesOfRows
             (flat_map (fun y => match y, lookup (numberName y) m with
                                 | Some k, Some lineData => [(k, sortByX lineData)]
                                 | _, _ => []
                                 end) ks).
Proof.
  intros Hks; revert acc; induction Hks as [|y ks Hy _ IH]; intros acc.
  - simpl; rewrite app_nil_r; reflexivity.
  - destruct y as [k|]; [|congruence].
    cbn [fold_left flat_map]; rewrite IH.
    unfold lineStep, linesOfRows; rewrite flat_map_app.
    destruct (lookup (numberName (Some k)) m) as [d|]; [|reflexivity].
    cbn [flat_map]; rewrite app_nil_r; unfold rowLine at 2; cbn [snd].
    destruct (truthy (lineTextOf (sortByX d))).
    + rewrite <- !app_assoc; reflexivity.
    + reflexivity.
Qed.

(** The lines of a page are what its rows contribute, row after row. *)
Lemma pageLines_rows (p : page) : pageLines p = linesOfRows (rows p).
Proof.
  unfold pageLines; rewrite fold_lineStep; [reflexivity|].
  rewrite sorted_are_numbers; apply Forall_forall; intros y Hy.
  apply in_map_iff in Hy as (k & <- & _); discriminate.
Qed.

Lemma linesOfRows_app (a b : list (Z * list item)) :
  linesOfRows (a ++ b) = linesOfRows a ++ linesOfRows b.
Proof. apply flat_map_app. Qed.

Lemma linesOfRows_cons (r : Z * list item) (b : list (Z * list item)) :
  linesOfRows (r :: b) = rowLine r ++ linesOfRows b.
Proof. reflexivity. Qed.


Lemma bucketOf_yCoord (f : item) (k : Z) :
  bucketOf f = Some k <-> exists y, yCoord f = Some y /\ k = mathRound y.
Proof.
  unfold bucketOf, yCoord; destruct f as [s t|].
  - destruct (nth_error t 5) as [y|].
    + split.
      * intros H; exists y; split; [reflexivity | congruence].
      * intros (y' & H & ->); congruence.
    + split; [discriminate | intros (y' & H & _); discriminate].
  - split; [discriminate | intros (y' & H & _); discriminate].
Qed.

(** ** Pages whose rounded coordinates are below [10^21] *)

Lemma decimalKeys_small (p : page) (f : item) (k : Z) :
  decimalKeys p -> In f p -> bucketOf f = Some k -> (Z.abs k < 10 ^ 21)%Z.
Proof.
  unfold decimalKeys; rewrite Forall_forall; intros H Hf Hk.
  specialize (H f Hf); rewrite Hk in H; exact H.
Qed.

(** On such a page the numbers visited are the rounded coordinates that
    occur. *)
Lemma in_visitedKeys_decimal (p : page) (k : Z) :
  decimalKeys p ->
  (In k (visitedKeys p) <-> exists f, In f p /\ bucketOf f = Some k).
Proof.
  intros Hd; rewrite in_visitedKeys; split.
  - intros (f & k' & Hf & Hk & Hp).
    rewrite parseInt_propertyName_small in Hp
      by (eapply decimalKeys_small; eassumption).
    exists f; split; [exact Hf | congruence].
  - intros (f & Hf & Hk); exists f, k; repeat split; try assumption.
    apply parseInt_propertyName_small; eapply decimalKeys_small; eassumption.
Qed.

Lemma parsedKeys_nodup (p : page) : decimalKeys p -> NoDup (parsedKeys p).
Proof.
  intros Hd.
  assert (H : forall names : list string,
             NoDup names ->
             (forall name, In name names ->
                           exists k, propertyName k = name /\ (Z.abs k < 10 ^ 21)%Z) ->
             NoDup (numbersOf (map parseInt names))).
  { induction names as [|name names IH]; intros Hnd Hk; [constructor|].
    inversion Hnd as [|? ? Hnin Hnd']; subst.
    destruct (Hk name (or_introl eq_refl)) as (k & <- & Hs).
    simpl; rewrite (parseInt_propertyName_small k Hs); simpl.
    constructor; [|apply IH; [exact Hnd' | intros; apply Hk; right; assumption]].
    intros Hin; apply Hnin.
    unfold numbersOf in Hin; apply in_flat_map in Hin as (y & Hy & Hky).
    apply in_map_iff in Hy as (name' & <- & Hn').
    destruct (Hk name' (or_intror Hn')) as (k' & <- & Hs').
    rewrite (parseInt_propertyName_small k' Hs') in Hky.
    destruct Hky as [->|[]]; exact Hn'. }
  apply H; [apply itemsByY_nodup|].
  intros name Hn; apply in_keys_itemsByY in Hn as (f & k & Hf & Hk & <-).
  exists k; split; [reflexivity | eapply decimalKeys_small; eassumption].
Qed.

(** The numbers visited descend strictly: no row is visited twice. *)
Lemma visitedKeys_descending (p : page) :
  decimalKeys p -> StronglySorted (fun a b => (b < a)%Z) (visitedKeys p).
Proof.
  intros Hd; rewrite visitedKeys_eq.
  apply sortNumbers_descending, parsedKeys_nodup, Hd.
Qed.

(** Every number visited has its row. *)
Lemma map_fst_rows (p : page) :
  decimalKeys p -> map fst (rows p) = visitedKeys p.
Proof.
  intros Hd; rewrite rows_visited.
  assert (H : forall y, In y (visitedKeys p) -> filter (inBucket y) p <> []).
  { intros y Hy E; apply (in_visitedKeys_decimal p y Hd) in Hy as (f & Hf & Hk).
    assert (Hin : In f (filter (inBucket y) p)) by (apply in_filter_inBucket; auto).
    rewrite E in Hin; destruct Hin. }
  induction (visitedKeys p) as [|y ks IH]; [reflexivity|].
  simpl; rewrite map_app, IH by (intros; apply H; right; assumption).
  specialize (H y (or_introl eq_refl)).
  destruct (filter (inBucket y) p); [congruence | reflexivity].
Qed.

Lemma rows_decimal (p : page) :
  decimalKeys p ->
  rows p = map (fun y => (y, sortByX (filter (inBucket y) p))) (visitedKeys p).
Proof. intros Hd; rewrite rows_eq, (map_fst_rows p Hd); reflexivity. Qed.


(** Every fragment with a vertical coordinate is in a row. *)
Lemma row_of_fragment (p : page) (f : item) (k : Z) :
  decimalKeys p -> In f p -> bucketOf f = Some k ->
  In (k, sortByX (filter (inBucket k) p)) (rows p)
  /\ In f (sortByX (filter (inBucket k) p)).
Proof.
  intros Hd Hf Hk; split.
  - rewrite (rows_decimal p Hd); apply in_map_iff; exists k; split; [reflexivity|].
    apply in_visitedKeys_decimal; eauto.
  - apply sortByX_In, in_filter_inBucket; auto.
Qed.

(** Rows with a larger key come first. *)
Lemma precedes_of_keys (p : page) (f1 f2 : item) (k1 k2 : Z) :
  decimalKeys p ->
  In f1 p -> In f2 p -> bucketOf f1 = Some k1 -> bucketOf f2 = Some k2 ->
  (k2 < k1)%Z -> precedes p f1 f2.
Proof.
  intros Hd Hf1 Hf2 Hk1 Hk2 Hlt.
  pose proof (row_of_fragment p f1 k1 Hd Hf1 Hk1) as [Hr1 Hin1].
  pose proof (row_of_fragment p f2 k2 Hd Hf2 Hk2) as [Hr2 Hin2].
  destruct (descending_split (visitedKeys p) k1 k2)
    as (pre & mid & post & Hsplit); [| | |exact Hlt|].
  - apply visitedKeys_descending, Hd.
  - apply in_visitedKeys_decimal; eauto.
  - apply in_visitedKeys_decimal; eauto.
  - set (g := fun y => (y, sortByX (filter (inBucket y) p))).
    exists (map g pre), (g k1), (map g mid), (g k2), (map g post).
    assert (Hrows : rows p = map g pre ++ g k1 :: map g mid ++ g k2 :: map g post).
    { rewrite (rows_decimal p Hd), Hsplit; fold g.
      rewrite map_app; simpl; rewrite map_app; reflexivity. }
    repeat split; [exact Hrows | exact Hin1 | exact Hin2 |].
    rewrite pageLines_rows, Hrows.
    rewrite linesOfRows_app, linesOfRows_cons, linesOfRows_app, linesOfRows_cons.
    reflexivity.
Qed.


End ReadPdfFacts.

Section ReadPdfClaims.
Import JsString ReadPdf.

Lemma linesOfRows_filter (rs : list (Z * list item)) :
  linesOfRows rs
  = filter truthy (map (fun r => trim (join " " (map str (snd r)))) rs).
Proof.
  induction rs as [|r rs IH]; [reflexivity|].
  rewrite linesOfRows_cons, IH; simpl.
  unfold rowLine, lineTextOf.
  destruct (truthy (trim (join " " (map str (snd r))))); reflexivity.
Qed.

Lemma readPages_map (d : document) : readPages d = map pageLines d.
Proof.
  unfold readPages.
  assert (H : forall acc, fold_left (fun pages p => pages ++ [pageLines p]) d acc
                          = acc ++ map pageLines d).
  { induction d as [|p d IH]; intros acc; simpl.
    - rewrite app_nil_r; reflexivity.
    - rewrite IH, <- app_assoc; reflexivity. }
  apply (H []).
Qed.

(** On the sample pages every rounded coordinate is far below
    [10^21]. *)
Lemma decimalKeys_tablePage : decimalKeys tablePage.
Proof.
  unfold decimalKeys, tablePage.
  repeat (apply Forall_cons; [vm_compute; first [reflexivity | exact I]|]).
  apply Forall_nil.
Qed.


(** A rounded coordinate of [10^21] is stored under the name [1e+21],
    which [parseInt] reads as 1: the second loop never visits the row
    of the fragment up there, and visits the row of key 1 twice. *)
Lemma far_row_is_lost :
  propertyName (mathRound (inject_Z (10 ^ 21))) = "1e+21"
  /\ parseInt "1e+21" = Some 1%Z
  /\ rows farPage = [(1%Z, [fragment "one" 0 1]); (1%Z, [fragment "one" 0 1])]
  /\ pageLines farPage = ["one"; "one"].
Proof. vm_compute; repeat split; reflexivity. Qed.




(** C4, as the code has it: [readPdf] resolves to one group of lines per
    page, the groups in ascending page order; it is the concatenation of
    the groups that is the flat sequence of the lines of the document in
    page order. *)
Theorem C4_one_group_of_lines_per_page :
  forall (fs : string -> option document) (path : string) (d1 d2 : document),
    readPdf fs path = option_map (map pageLines) (fs path)
    /\ readPages (d1 ++ d2) = readPages d1 ++ readPages d2
    /\ List.length (readPages d1) = List.length d1
    /\ List.concat (readPages (d1 ++ d2)) = List.concat (readPages d1) ++ List.concat (readPages d2).
Proof.
  intros fs path d1 d2; repeat split.
  - unfold readPdf; destruct (fs path); simpl; [rewrite readPages_map|]; reflexivity.
  - rewrite !readPages_map; apply map_app.
  - rewrite readPages_map; apply length_map.
  - rewrite !readPages_map, map_app; apply concat_app.
Qed.

(** C4, counterexample: for a document of two pages with one and two
    lines, [readPdf] resolves to an array of two arrays, not to the
    array of the three lines. *)
Lemma C4_counterexample_not_flat :
  exists pages,
    readPdf (fun _ => Some twoPages) "statement.pdf" = Some pages
    /\ pages = [["A"]; ["B"; "C"]]
    /\ flat_map pageLines twoPages = ["A"; "B"; "C"]
    /\ pagesValue pages <> linesValue (flat_map pageLines twoPages).
Proof.
  eexists; split; [reflexivity|].
  repeat split; discriminate.
Qed.


End ReadPdfClaims.

(* ================================================================== *)
(** * Properties of the patterns *)
(* ================================================================== *)

Section RegExpFacts.
Import JsString JsRegExp FabCommon.

(** A pattern that starts with [^] matches at the start of the subject
    or not at all. *)
Lemma searchFrom_anchored (r : regex) (s : string) (n : nat) :
  searchFrom (compile (Cat Bol r)) (S n) s = None.
Proof.
  revert n; induction s as [|c s IH]; intros n; simpl; [reflexivity | apply IH].
Qed.

Lemma compile_anchored (r : regex) (s : string) (cs : captures) (k : cont) :
  compile (Cat Bol r) (MState 0 s cs) k = compile r (MState 0 s cs) k.
Proof. reflexivity. Qed.

Lemma test_anchored (r : regex) (s : string) :
  test (Cat Bol r) s
  = match compile r (MState 0 s []) (fun y => Some y) with
    | Some _ => true
    | None => false
    end.
Proof.
  unfold test, exec.
  destruct s as [|c s]; cbn [searchFrom]; rewrite compile_anchored.
  - destruct (compile r (MState 0 "" []) (fun y => Some y)); reflexivity.
  - destruct (compile r (MState 0 (String c s) []) (fun y => Some y)); [reflexivity|].
    rewrite searchFrom_anchored; reflexivity.
Qed.

Lemma test_startsWithDate (s : string) :
  test startsWithDateRegExp s = hasDatePrefix s.
Proof.
  unfold startsWithDateRegExp; rewrite test_anchored.
  unfold hasDatePrefix.
  destruct s as [|c s]; [reflexivity|].
  cbn -[digit word isChar andb]; rewrite ?andb_true_r.
  repeat (match goal with
          | |- context [if ?b then _ else _] =>
              match type of b with bool => destruct b end; [|reflexivity]
          | |- context [repeatClass _ _ _ _ _ ?t _ _] =>
              is_var t; destruct t; [reflexivity|]
          | |- context [match ?t with EmptyString => _ | String _ _ => _ end] =>
              is_var t; destruct t; [reflexivity|]
          end;
          repeat (progress (cbn -[digit word isChar andb];
                            rewrite ?andb_true_r, ?andb_true_l, ?andb_false_r))).
  reflexivity.
Qed.
End RegExpFacts.

(* ================================================================== *)
(** * Properties of the FAB plugin *)
(* ================================================================== *)

Section FabFacts.
Import JsString JsNumber JsRegExp FabCommon.

(** Destructs every [match] and [if] of the goal. *)
Ltac split_matches :=
  repeat match goal with
         | |- context [match ?x with _ => _ end] => destruct x
         end.

Lemma extractAccountInfo_incomes (line : string) (o : ParsedOutput) :
  incomes (extractAccountInfo line o) = incomes o.
Proof. unfold extractAccountInfo; split_matches; reflexivity. Qed.

Lemma extractAccountInfo_expenses (line : string) (o : ParsedOutput) :
  expenses (extractAccountInfo line o) = expenses o.
Proof. unfold extractAccountInfo; split_matches; reflexivity. Qed.

Lemma defaultYearPrefix_incomes (opts : ParserOptions) (o : ParsedOutput) :
  incomes (defaultYearPrefix opts o) = incomes o.
Proof. unfold defaultYearPrefix; split_matches; reflexivity. Qed.

Lemma defaultYearPrefix_expenses (opts : ParserOptions) (o : ParsedOutput) :
  expenses (defaultYearPrefix opts o) = expenses o.
Proof. unfold defaultYearPrefix; split_matches; reflexivity. Qed.

(** What the action does to the two lists, whatever the state: nothing,
    or one push, to [incomes] exactly when the amount is positive. *)
Lemma performStateAction_lists (s : State) (line : string) (o : ParsedOutput)
  (opts : ParserOptions) :
  let o' := Fab.performStateAction s line o opts in
  (incomes o' = incomes o /\ expenses o' = expenses o)
  \/ (exists t, gt0 (amount t) = true
                /\ incomes o' = incomes o ++ [t] /\ expenses o' = expenses o)
  \/ (exists t, gt0 (amount t) = false
                /\ incomes o' = incomes o /\ expenses o' = expenses o ++ [t]).
Proof.
  unfold Fab.performStateAction.
  set (o2 := defaultYearPrefix opts (extractAccountInfo (trim line) o)).
  assert (Hi : incomes o2 = incomes o)
    by (unfold o2; rewrite defaultYearPrefix_incomes; apply extractAccountInfo_incomes).
  assert (He : expenses o2 = expenses o)
    by (unfold o2; rewrite defaultYearPrefix_expenses; apply extractAccountInfo_expenses).
  destruct s; simpl; auto.
  destruct (Fab.isSkippedLine (trim line)); auto.
  destruct (Fab.parseTransaction (trim line)) as [t|]; auto.
  destruct (gt0 (amount t)) eqn:Hg; simpl; rewrite Hi, He.
  - right; left; exists t; auto.
  - right; right; exists t; auto.
Qed.

(** An amount that is not greater than zero is negative, zero or
    [NaN]. *)
Lemma not_gt0 (x : number) :
  gt0 x = false -> isNaN x = false -> lt0 x || isZero x = true.
Proof.
  destruct x as [| | |q]; simpl; try discriminate; auto.
  intros Hg _.
  apply negb_false_iff, Qle_bool_iff in Hg.
  destruct (Qle_bool 0 q) eqn:H0; simpl; [|reflexivity].
  apply Qle_bool_iff in H0; apply Qeq_bool_iff; lra.
Qed.

Lemma performStateAction_signSplit (s : State) (line : string) (o : ParsedOutput)
  (opts : ParserOptions) :
  signSplit o -> signSplit (Fab.performStateAction s line o opts).
Proof.
  intros [Hi He]; unfold signSplit.
  destruct (performStateAction_lists s line o opts)
    as [[-> ->] | [(t & Hg & -> & ->) | (t & Hg & -> & ->)]].
  - auto.
  - split; [apply Forall_app; split; [exact Hi | repeat constructor; exact Hg] | exact He].
  - split; [exact Hi|].
    apply Forall_app; split; [exact He|].
    repeat constructor; [exact Hg | apply not_gt0, Hg].
Qed.

Lemma run_signSplit (lines : list string) (s : State) (o : ParsedOutput)
  (opts : ParserOptions) :
  signSplit o -> signSplit (run Fab.performStateAction Fab.nextState opts s o lines).
Proof.
  revert s o; induction lines as [|line lines IH]; intros s o Ho; simpl.
  - exact Ho.
  - apply IH, performStateAction_signSplit, Ho.
Qed.

(** In the transaction state, a line that is not skipped and parses to a
    transaction pushes it: *)
Lemma performStateAction_push (line : string) (o : ParsedOutput)
  (opts : ParserOptions) (t : ParsedTransaction) :
  Fab.isSkippedLine (trim line) = false ->
  Fab.parseTransaction (trim line) = Some t ->
  let o' := Fab.performStateAction TransactionLines line o opts in
  if gt0 (amount t)
  then incomes o' = incomes o ++ [t] /\ expenses o' = expenses o
  else incomes o' = incomes o /\ expenses o' = expenses o ++ [t].
Proof.
  intros Hs Hp; unfold Fab.performStateAction; rewrite Hs, Hp.
  destruct (gt0 (amount t)); simpl;
    rewrite defaultYearPrefix_incomes, defaultYearPrefix_expenses,
      extractAccountInfo_incomes, extractAccountInfo_expenses; auto.
Qed.

(** A line that does not start with a date matches no pattern. *)
Lemma no_date_no_pattern (line : string) :
  hasDatePrefix (trim (collapseSpaces false line)) = false ->
  Fab.matchesNoPattern line = true.
Proof.
  intros H; unfold Fab.matchesNoPattern.
  rewrite test_startsWithDate, H; reflexivity.
Qed.

End FabFacts.

Section FabPendingFacts.
Import JsString JsNumber JsRegExp FabCommon.

(** In the transaction state of the revision with a pending
    transaction, a line that is not skipped and completes a transaction
    pushes it. *)
Lemma pending_performStateAction_push (line : string) (o : ParsedOutput)
  (pending pending' : option FabPending.PendingTransaction)
  (opts : ParserOptions) (t : ParsedTransaction) :
  FabPending.isSkippedLine (trim line) = false ->
  FabPending.parseTransaction pending (trim line) = (Some t, pending') ->
  let w := FabPending.performStateAction TransactionLines line (o, pending) opts in
  snd w = pending'
  /\ if gt0 (amount t)
     then incomes (fst w) = incomes o ++ [t] /\ expenses (fst w) = expenses o
     else incomes (fst w) = incomes o /\ expenses (fst w) = expenses o ++ [t].
Proof.
  intros Hs Hp; unfold FabPending.performStateAction; rewrite Hs, Hp.
  destruct (gt0 (amount t)); simpl;
    rewrite defaultYearPrefix_incomes, defaultYearPrefix_expenses,
      extractAccountInfo_incomes, extractAccountInfo_expenses; auto.
Qed.

(** Without a reset between two runs, what the first run left in the
    module-level variable leaks into the second: the dated line that
    ends [carryLines] stays pending, and the second run completes it
    with the continuation-like line. *)
Lemma carry_leaks_without_reset :
  let '(first, second) := FabPending.parseTwice false carryLines (MkOptions 20) in
  expenses first = []
  /\ map description (expenses second)
     = ["POS Settlement PARTIAL continued 5.00 100.00"].
Proof. vm_compute; split; reflexivity. Qed.

End FabPendingFacts.

(** ** The expectations of the plugin's test file *)

Section FabFixture.
Import JsString JsNumber JsRegExp FabCommon.

(** [extracts account information correctly]. *)
Example fixture_account_information :
  let result := Fab.parseText mockFabStatementText (MkOptions 20) in
  accountSuffix result = "6"
  /\ name result = Some "JOHN DOE SMITH"
  /\ startDate result = Some (MkDate 2024 1 1)
  /\ endDate result = Some (MkDate 2024 1 31)
  /\ yearPrefix result = 20%Z.
Proof. vm_compute; repeat split. Qed.

(** [categorizes income transactions correctly]. *)
Example fixture_incomes :
  map summary (incomes (Fab.parseText mockFabStatementText (MkOptions 20)))
  = [ ("ATM Cash Deposit P32-1234 - CDM- Dubai Mall", Num 5000, MkDate 2024 1 2);
      ("Transfer From Salary Account", Num 3500, MkDate 2024 1 3);
      ("Inward IPP Payment International Transfer", Num 2000, MkDate 2024 1 15);
      ("Reverse Charges Refund", Num 50, MkDate 2024 1 25) ].
Proof. vm_compute; reflexivity. Qed.

(** [categorizes expense transactions correctly]. *)
Example fixture_expenses :
  map summary (expenses (Fab.parseText mockFabStatementText (MkOptions 20)))
  = [ ("POS Settlement GROCERY STORE DUBAI AED 150", Num (-150), MkDate 2024 1 1);
      ("Switch Transaction", Num (-1000), MkDate 2024 1 5);
      ("SW WDL Chgs", Num (-21), MkDate 2024 1 5);
      ("POS Settlement VAT AED 0.75", Num (-(3 # 4)), MkDate 2024 1 10);
      ("POS Settlement RESTAURANT DUBAI AED 250", Num (-250), MkDate 2024 1 20);
      ("POS Settlement ONLINE SHOPPING USD 100", Num (-(3673 # 10)), MkDate 2024 1 30) ].
Proof. vm_compute; reflexivity. Qed.

(** The revision with a pending transaction reads the statement alike
    and leaves nothing pending. *)
Example fixture_pending_revision :
  let '(result, pending) :=
    FabPending.parseText FabPending.noPending mockFabStatementText (MkOptions 20) in
  map summary (incomes result)
  = map summary (incomes (Fab.parseText mockFabStatementText (MkOptions 20)))
  /\ map summary (expenses result)
     = map summary (expenses (Fab.parseText mockFabStatementText (MkOptions 20)))
  /\ pending = None.
Proof. vm_compute; repeat split. Qed.

End FabFixture.

Section FabClaims.
Import JsString JsNumber JsRegExp FabCommon.

(** C2: the terminal state is absorbing.  Whatever the line and the
    options, [nextState] maps [State.End] to [State.End], in
    [fab-bank-account-parser.ts] and in its two sibling revisions. *)
Theorem C2_end_state_is_absorbing :
  forall (L : string) (options : ParserOptions),
    Fab.nextState EndState L options = EndState
    /\ FabPending.nextState EndState L options = EndState
    /\ FabKeywords.nextState EndState L options = EndState.
Proof. intros L options; repeat split. Qed.

(** C10: the progression of the states is monotone in the order
    Header < TransactionLines < End.  [nextState] never returns an
    earlier state: from Header it gives Header or TransactionLines, from
    TransactionLines it gives TransactionLines or End, from End it gives
    End; so over any sequence of lines the state never goes back, and a
    parse that has left the header state never enters it again.  This
    holds in [fab-bank-account-parser.ts] and in its two sibling
    revisions. *)
Theorem C10_state_progression_is_monotone :
  forall (s : State) (L : string) (options : ParserOptions) (lines : list string),
    (stateRank s <= stateRank (Fab.nextState s L options)
     /\ stateRank s <= stateRank (FabKeywords.nextState s L options)
     /\ stateRank s <= stateRank (FabPending.nextState s L options))
    /\ (Fab.nextState Header L options = Header
        \/ Fab.nextState Header L options = TransactionLines)
    /\ (Fab.nextState TransactionLines L options = TransactionLines
        \/ Fab.nextState TransactionLines L options = EndState)
    /\ Fab.nextState EndState L options = EndState
    /\ (FabKeywords.nextState Header L options = Header
        \/ FabKeywords.nextState Header L options = TransactionLines)
    /\ (FabKeywords.nextState TransactionLines L options = TransactionLines
        \/ FabKeywords.nextState TransactionLines L options = EndState)
    /\ FabKeywords.nextState EndState L options = EndState
    /\ (stateRank s <= stateRank (finalState Fab.nextState options s lines)
        /\ stateRank s <= stateRank (finalState FabKeywords.nextState options s lines)
        /\ stateRank s <= stateRank (finalState FabPending.nextState options s lines)).
Proof.
  intros s L options lines.
  assert (step1 : forall s l, stateRank s <= stateRank (Fab.nextState s l options)).
  { intros s0 l; destruct s0; unfold Fab.nextState; simpl;
      repeat match goal with |- context [if ?c then _ else _] => destruct c end;
      simpl; lia. }
  assert (step2 : forall s l, stateRank s <= stateRank (FabKeywords.nextState s l options)).
  { intros s0 l; destruct s0; unfold FabKeywords.nextState; simpl;
      repeat match goal with |- context [if ?c then _ else _] => destruct c end;
      simpl; lia. }
  assert (step3 : forall s l, stateRank s <= stateRank (FabPending.nextState s l options)).
  { intros s0 l; destruct s0; unfold FabPending.nextState; simpl;
      repeat match goal with |- context [if ?c then _ else _] => destruct c end;
      simpl; lia. }
  assert (trace : forall next : State -> string -> ParserOptions -> State,
             (forall s l, stateRank s <= stateRank (next s l options)) ->
             forall ls s, stateRank s <= stateRank (finalState next options s ls)).
  { intros next Hstep ls; induction ls as [|l ls IH]; intros s0; simpl.
    - lia.
    - unfold finalState in *; simpl.
      etransitivity; [apply (Hstep s0 l) | apply IH]. }
  repeat split; auto.
  - unfold Fab.nextState; simpl.
    destruct (includes _ _); auto.
  - unfold Fab.nextState; simpl.
    match goal with |- context [if ?c then _ else _] => destruct c end; auto.
  - unfold FabKeywords.nextState; simpl.
    match goal with |- context [if ?c then _ else _] => destruct c end; auto.
  - unfold FabKeywords.nextState; simpl.
    match goal with |- context [if ?c then _ else _] => destruct c end; auto.
Qed.

(** C3, at the failing input: a transaction line whose amount column
    reads [0.00] is recorded, with amount zero, in [expenses].  The
    recorded amount is neither non-zero nor strictly negative, against
    the claim and against the comment of [parseTransaction] on that
    branch, [Ensure negative for expenses]. *)
Theorem C3_zero_amount_is_recorded_as_expense :
  expenses (Fab.parseText [tableHeaderLine; zeroAmountLine] (MkOptions 20))
  = [zeroAmountTransaction]
  /\ amount zeroAmountTransaction = Num 0
  /\ ~ signInvariant (Fab.parseText [tableHeaderLine; zeroAmountLine] (MkOptions 20)).
Proof.
  assert (E : expenses (Fab.parseText [tableHeaderLine; zeroAmountLine] (MkOptions 20))
              = [zeroAmountTransaction]) by (vm_compute; reflexivity).
  split; [exact E | split; [reflexivity|]].
  intros [_ H]; rewrite E in H.
  inversion H as [|? ? Hneg _]; subst.
  unfold negativeAmount in Hneg; simpl in Hneg; discriminate.
Qed.

(** The same missing check lets through an amount text without a
    digit: it is read as NaN, and NaN is filed under [expenses]. *)
Lemma nan_amount_is_recorded_as_expense :
  map amount
      (expenses (Fab.parseText
                   [tableHeaderLine; "01 JAN 2024 01 JAN 2024 POS Settlement X , 100.00"]
                   (MkOptions 20)))
  = [NaN].
Proof. vm_compute; reflexivity. Qed.

(** C6: in the transaction-lines state, the first transaction line of
    the test fixture yields exactly one transaction, the expense dated
    2024-01-01 of amount -150 with the description [POS Settlement
    GROCERY STORE DUBAI AED 150], appended to [expenses]; [incomes] is
    unchanged.  The revision with a pending transaction does the
    same. *)
Theorem C6_grocery_line_is_one_expense :
  forall (output : ParsedOutput) (options : ParserOptions),
    Fab.parseTransaction groceryLine = Some groceryTransaction
    /\ expenses (Fab.performStateAction TransactionLines groceryLine output options)
       = expenses output ++ [groceryTransaction]
    /\ incomes (Fab.performStateAction TransactionLines groceryLine output options)
       = incomes output
    /\ expenses (fst (FabPending.performStateAction TransactionLines groceryLine
                        (output, FabPending.noPending) options))
       = expenses output ++ [groceryTransaction]
    /\ incomes (fst (FabPending.performStateAction TransactionLines groceryLine
                       (output, FabPending.noPending) options))
       = incomes output.
Proof.
  intros output options.
  assert (P : Fab.parseTransaction groceryLine = Some groceryTransaction)
    by (vm_compute; reflexivity).
  pose proof (performStateAction_push groceryLine output options groceryTransaction
                eq_refl P) as [Hi He].
  pose proof (pending_performStateAction_push groceryLine output None None options
                groceryTransaction eq_refl eq_refl) as [_ [Hi' He']].
  repeat split; assumption.
Qed.

(** C7: in the transaction-lines state, the second transaction line of
    the test fixture yields exactly one transaction, an income of amount
    5000, appended to [incomes]; [expenses] is unchanged.  Its
    description holds the keyword [deposit], which is what makes it an
    income, also for [isIncomeTransaction] of the sibling revisions. *)
Theorem C7_deposit_line_is_one_income :
  forall (output : ParsedOutput) (options : ParserOptions),
    Fab.parseTransaction depositLine = Some cashDepositTransaction
    /\ amount cashDepositTransaction = Num 5000
    /\ incomes (Fab.performStateAction TransactionLines depositLine output options)
       = incomes output ++ [cashDepositTransaction]
    /\ expenses (Fab.performStateAction TransactionLines depositLine output options)
       = expenses output
    /\ includes (toLowerCase (description cashDepositTransaction)) "deposit" = true
    /\ Fab.isIncomeDescription (description cashDepositTransaction) = true
    /\ FabKeywords.isIncomeTransaction (description cashDepositTransaction) = true
    /\ incomes (fst (FabPending.performStateAction TransactionLines depositLine
                       (output, FabPending.noPending) options))
       = incomes output ++ [cashDepositTransaction]
    /\ expenses (fst (FabPending.performStateAction TransactionLines depositLine
                        (output, FabPending.noPending) options))
       = expenses output.
Proof.
  intros output options.
  assert (P : Fab.parseTransaction depositLine = Some cashDepositTransaction)
    by (vm_compute; reflexivity).
  pose proof (performStateAction_push depositLine output options cashDepositTransaction
                eq_refl P) as [Hi He].
  pose proof (pending_performStateAction_push depositLine output None None options
                cashDepositTransaction eq_refl eq_refl) as [_ [Hi' He']].
  repeat split; assumption || reflexivity.
Qed.

(** C8: in the transaction-lines state, a line that matches none of the
    transaction patterns (it does not start with a date, or it lacks
    the shape date, date, description, amount, balance) is skipped
    silently: [parseTransaction] returns [undefined], and the action
    returns with [incomes] and [expenses] unchanged. *)
Theorem C8_unrecognized_line_is_skipped :
  forall (line : string) (output : ParsedOutput) (options : ParserOptions),
    Fab.matchesNoPattern (trim line) = true ->
    Fab.parseTransaction (trim line) = None
    /\ incomes (Fab.performStateAction TransactionLines line output options)
       = incomes output
    /\ expenses (Fab.performStateAction TransactionLines line output options)
       = expenses output.
Proof.
  intros line output options H.
  assert (P : Fab.parseTransaction (trim line) = None).
  { unfold Fab.matchesNoPattern in H; unfold Fab.parseTransaction.
    destruct (test startsWithDateRegExp (trim (collapseSpaces false (trim line))));
      simpl in *; [|reflexivity].
    unfold Fab.regularTransaction, Fab.depositTransaction.
    destruct (exec regularRegExp (trim (collapseSpaces false (trim line))));
      [discriminate | reflexivity]. }
  split; [exact P|].
  unfold Fab.performStateAction; rewrite P.
  destruct (Fab.isSkippedLine (trim line));
    rewrite defaultYearPrefix_incomes, defaultYearPrefix_expenses,
      extractAccountInfo_incomes, extractAccountInfo_expenses; auto.
Qed.

(** C8, witness: a line of boilerplate inside the transaction table. *)
Lemma C8_unrecognized_line_is_skipped_witness :
  Fab.matchesNoPattern (trim footerLine) = true
  /\ Fab.parseTransaction (trim footerLine) = None
  /\ incomes (Fab.performStateAction TransactionLines footerLine initOutput (MkOptions 20))
     = []
  /\ expenses (Fab.performStateAction TransactionLines footerLine initOutput (MkOptions 20))
     = [].
Proof.
  split; [reflexivity|].
  apply (C8_unrecognized_line_is_skipped footerLine initOutput (MkOptions 20)).
  reflexivity.
Defined.

(** C9: two runs of the plugin over the same line sequence, each from a
    fresh accumulator and with the pending-transaction carry reset to
    empty before it starts, end in equal accumulators (and leave the
    carry in equal states). *)
Theorem C9_runs_from_fresh_state_agree :
  forall (lines : list string) (options : ParserOptions),
    fst (FabPending.parseTwice true lines options)
    = snd (FabPending.parseTwice true lines options)
    /\ fst (FabPending.parseTwice true lines options)
       = fst (FabPending.parseText FabPending.noPending lines options).
Proof.
  intros lines options; unfold FabPending.parseTwice.
  destruct (FabPending.parseText FabPending.noPending lines options) as [o c].
  split; reflexivity.
Qed.

End FabClaims.

(* ================================================================== *)
(** * Further properties of the strings *)
(* ================================================================== *)

Section JsStringFacts.
Import JsString.

Lemma trimStart_no_leading_space (s : string) :
  startsWithSpace (trimStart s) = false.
Proof.
  induction s as [|c s IH]; simpl; [reflexivity|].
  destruct (isWhiteSpace c) eqn:E; [exact IH | simpl; exact E].
Qed.

Lemma trimEnd_no_trailing_space (s : string) :
  endsWithSpace (trimEnd s) = false.
Proof.
  induction s as [|c s IH]; simpl; [reflexivity|].
  destruct (trimEnd s) as [|c' t] eqn:E.
  - destruct (isWhiteSpace c) eqn:Ec; simpl; [reflexivity | exact Ec].
  - exact IH.
Qed.

Lemma trimEnd_keeps_head (s : string) :
  startsWithSpace s = false -> startsWithSpace (trimEnd s) = false.
Proof.
  destruct s as [|c s]; simpl; [reflexivity|]; intros E.
  destruct (trimEnd s); [rewrite E|]; simpl; exact E.
Qed.

Lemma trimStart_fixed (s : string) : startsWithSpace s = false -> trimStart s = s.
Proof. destruct s as [|c s]; simpl; [reflexivity|]; intros ->; reflexivity. Qed.

Lemma trimEnd_fixed (s : string) : endsWithSpace s = false -> trimEnd s = s.
Proof.
  induction s as [|c s IH]; [reflexivity|].
  destruct s as [|c' s'].
  - simpl; intros ->; reflexivity.
  - intros E; change (endsWithSpace (String c' s') = false) in E.
    change (trimEnd (String c (String c' s')))
      with (match trimEnd (String c' s') with
            | EmptyString => if isWhiteSpace c then EmptyString else String c EmptyString
            | t => String c t
            end).
    rewrite (IH E); reflexivity.
Qed.

(** A trimmed text neither begins nor ends with white space, and
    trimming it again changes nothing. *)
Lemma trim_trimmed (s : string) :
  startsWithSpace (trim s) = false /\ endsWithSpace (trim s) = false
  /\ trim (trim s) = trim s.
Proof.
  assert (H1 : startsWithSpace (trim s) = false)
    by (apply trimEnd_keeps_head, trimStart_no_leading_space).
  assert (H2 : endsWithSpace (trim s) = false) by apply trimEnd_no_trailing_space.
  repeat split; try assumption.
  unfold trim at 1; rewrite (trimStart_fixed _ H1); apply trimEnd_fixed, H2.
Qed.

Lemma prefix_iff (a s : string) :
  prefix a s = true <-> exists post, s = (a ++ post)%string.
Proof.
  revert s; induction a as [|c a IH]; intros s.
  - destruct s; simpl; (split; [intros _; eexists; reflexivity | reflexivity]).
  - destruct s as [|c' s]; simpl.
    + split; [discriminate | intros (post & H); discriminate].
    + destruct (ascii_dec c c') as [->|Hne].
      * rewrite IH; split; intros (post & H); exists post; congruence.
      * split; [discriminate | intros (post & H); congruence].
Qed.

Lemma includes_nil (sub : string) :
  includes EmptyString sub = prefix sub EmptyString || false.
Proof. vm_compute; reflexivity. Qed.

Lemma includes_cons (c : ascii) (s sub : string) :
  includes (String c s) sub = prefix sub (String c s) || includes s sub.
Proof. vm_compute; reflexivity. Qed.

(** [includes] is the substring test. *)
Lemma includes_iff (s sub : string) :
  includes s sub = true <-> exists pre post, s = (pre ++ sub ++ post)%string.
Proof.
  induction s as [|c s IH].
  - rewrite includes_nil, orb_false_r, prefix_iff; split.
    + intros (post & H); exists "", post; exact H.
    + intros (pre & post & H); destruct pre; [exists post; exact H|discriminate].
  - rewrite includes_cons, orb_true_iff, prefix_iff, IH; split.
    + intros [(post & H) | (pre & post & H)].
      * exists "", post; exact H.
      * exists (String c pre), post; simpl; congruence.
    + intros (pre & post & H); destruct pre as [|c' pre].
      * left; exists post; exact H.
      * right; exists pre, post; simpl in H; congruence.
Qed.

Lemma append_assoc (a b c : string) : ((a ++ b) ++ c = a ++ b ++ c)%string.
Proof. induction a as [|x a IH]; simpl; [|rewrite IH]; reflexivity. Qed.

(** A text that includes [a] includes whatever [a] includes. *)
Lemma includes_trans (s a b : string) :
  includes s a = true -> includes a b = true -> includes s b = true.
Proof.
  rewrite !includes_iff; intros (p1 & q1 & ->) (p2 & q2 & ->).
  exists (p1 ++ p2)%string, (q2 ++ q1)%string.
  rewrite !append_assoc; reflexivity.
Qed.

Lemma lowerChar_idempotent (c : ascii) : lowerChar (lowerChar c) = lowerChar c.
Proof.
  destruct c as [[] [] [] [] [] [] [] []]; reflexivity.
Qed.

Lemma toLowerCase_idempotent (s : string) :
  toLowerCase (toLowerCase s) = toLowerCase s.
Proof.
  induction s as [|c s IH]; simpl; [|rewrite lowerChar_idempotent, IH]; reflexivity.
Qed.

End JsStringFacts.

(* ================================================================== *)
(** * Further properties of [readPdf] *)
(* ================================================================== *)

Section ReadPdfMore.
Import JsString ReadPdf.

Lemma groupStep_skips (m : buckets) (it : item) :
  hasCoordinate it = false -> groupStep m it = m.
Proof. unfold hasCoordinate, groupStep; destruct (bucketOf it); [discriminate | reflexivity]. Qed.

Lemma itemsByY_filter (p : page) :
  itemsByY p = itemsByY (filter hasCoordinate p).
Proof.
  unfold itemsByY; generalize (@nil (string * list item)).
  induction p as [|it p IH]; intros m; simpl; [reflexivity|].
  destruct (hasCoordinate it) eqn:E; simpl.
  - apply IH.
  - rewrite (groupStep_skips m it E); apply IH.
Qed.

(** X1.  Fragments that fail the guard of the first loop (marked content,
    a transform array without a sixth entry) do not reach the output:
    the lines of a page are those of its fragments with a vertical
    coordinate, and a page without such fragments has no line. *)
Theorem X1_fragments_without_coordinate_are_ignored :
  forall p : page,
    pageLines p = pageLines (filter hasCoordinate p)
    /\ (Forall (fun it => hasCoordinate it = false) p -> pageLines p = []).
Proof.
  intros p; split.
  - unfold pageLines; rewrite <- itemsByY_filter; reflexivity.
  - intros H; unfold pageLines; rewrite itemsByY_filter.
    replace (filter hasCoordinate p) with (@nil item); [reflexivity|].
    induction H as [|it p Hit _ IH]; simpl; [reflexivity|].
    rewrite Hit; exact IH.
Qed.

(** X1, witness: a page of one marked-content item and one text item
    whose transform array is too short. *)
Lemma X1_fragments_without_coordinate_are_ignored_witness :
  pageLines [TextMarkedContent; TextItem "lost" [1%Q; 0%Q; 0%Q; 1%Q; 5%Q]] = [].
Proof.
  apply (X1_fragments_without_coordinate_are_ignored
           [TextMarkedContent; TextItem "lost" [1%Q; 0%Q; 0%Q; 1%Q; 5%Q]]).
  repeat constructor.
Defined.

(** The buckets named by [ks] hold, together, the fragments whose key is
    in [ks]. *)
Lemma buckets_partition (p : page) (ks : list Z) :
  NoDup ks ->
  Permutation
    (flat_map (fun y => filter (inBucket y) p) ks)
    (filter (fun f => match bucketOf f with
                      | Some k => existsb (Z.eqb k) ks
                      | None => false
                      end) p).
Proof.
  intros Hnd; induction p as [|f p IH]; simpl.
  - replace (flat_map (fun _ : Z => @nil item) ks) with (@nil item);
      [apply perm_nil|].
    clear Hnd; induction ks; simpl; [reflexivity | assumption].
  - assert (Hf : Permutation
                   (flat_map (fun y => filter (inBucket y) (f :: p)) ks)
                   ((if match bucketOf f with
                         | Some k => existsb (Z.eqb k) ks
                         | None => false
                         end then [f] else [])
                    ++ flat_map (fun y => filter (inBucket y) p) ks)).
    { clear IH; induction ks as [|y ks IHk]; simpl.
      - destruct (bucketOf f); apply perm_nil.
      - inversion Hnd as [|? ? Hnin Hnd']; subst.
        specialize (IHk Hnd').
        unfold inBucket at 1.
        destruct (bucketOf f) as [k|] eqn:Ek.
        + destruct (Z.eqb_spec k y) as [->|Hne]; simpl.
          * assert (existsb (Z.eqb y) ks = false) as E.
            { apply not_true_is_false; intros H.
              apply existsb_exists in H as (z & Hz & Hyz).
              apply Z.eqb_eq in Hyz; subst; contradiction. }
            rewrite E in IHk; simpl in IHk.
            apply perm_skip, Permutation_app_head, IHk.
          * eapply Permutation_trans; [apply Permutation_app_head, IHk|].
            destruct (existsb (Z.eqb k) ks); simpl; [|reflexivity].
            apply Permutation_sym, Permutation_middle.
        + simpl in *; apply Permutation_app_head, IHk. }
    eapply Permutation_trans; [exact Hf|].
    destruct (match bucketOf f with
              | Some k => existsb (Z.eqb k) ks
              | None => false
              end); simpl; [apply perm_skip|]; exact IH.
Qed.

Lemma flat_map_snd_rows (p : page) :
  decimalKeys p ->
  Permutation (flat_map snd (rows p))
    (flat_map (fun y => filter (inBucket y) p) (visitedKeys p)).
Proof.
  intros Hd; rewrite (rows_decimal p Hd).
  induction (visitedKeys p) as [|y ks IH]; simpl; [constructor|].
  apply Permutation_app; [apply jsSort_perm | exact IH].
Qed.

Lemma rows_partition (p : page) :
  decimalKeys p ->
  Permutation (flat_map snd (rows p)) (filter hasCoordinate p).
Proof.
  intros Hd.
  eapply Permutation_trans; [apply flat_map_snd_rows, Hd|].
  eapply Permutation_trans.
  - apply buckets_partition.
    rewrite visitedKeys_eq.
    eapply Permutation_NoDup; [apply Permutation_sym, jsSort_perm|].
    apply parsedKeys_nodup, Hd.
  - erewrite filter_ext_in; [apply Permutation_refl|].
    intros f Hf; unfold hasCoordinate.
    destruct (bucketOf f) as [k|] eqn:Ek; [|reflexivity].
    apply existsb_exists; exists k; split; [|apply Z.eqb_refl].
    apply in_visitedKeys_decimal; eauto.
Qed.

(** X2.  The rows hold fragments of the page only, and on a page whose
    rounded coordinates are below [10^21] in absolute value they
    partition its fragments: every fragment with a vertical coordinate
    is in the rows exactly as often as it is on the page; none is lost
    and none is repeated. *)
Theorem X2_rows_partition_the_fragments :
  forall p : page,
    (forall f, In f (flat_map snd (rows p)) -> In f (filter hasCoordinate p))
    /\ (decimalKeys p ->
        Permutation (flat_map snd (rows p)) (filter hasCoordinate p)).
Proof.
  intros p; split; [|apply rows_partition].
  intros f Hf; apply in_flat_map in Hf as (r & Hr & Hf).
  apply (in_row p r f Hr) in Hf as [Hf Hk].
  apply filter_In; split; [exact Hf|].
  unfold hasCoordinate; rewrite Hk; reflexivity.
Qed.

(** X2, witness: the rows of the sample table page. *)
Lemma X2_rows_partition_the_fragments_witness :
  Permutation (flat_map snd (rows tablePage)) (filter hasCoordinate tablePage).
Proof.
  apply (X2_rows_partition_the_fragments tablePage).
  unfold decimalKeys, tablePage.
  repeat (apply Forall_cons; [vm_compute; first [reflexivity | exact I]|]).
  apply Forall_nil.
Defined.

Section SortStability.
Context {A : Type}.
Variables (le : A -> A -> bool) (P : A -> bool).
Hypothesis tied : forall a b, P a = true -> P b = true -> le a b = true.

Lemma sortInsert_filter (x : A) (l : list A) :
  filter P (sortInsert le x l) = filter P (x :: l).
Proof.
  induction l as [|y l IH]; [reflexivity|]; simpl.
  destruct (le x y) eqn:E; [reflexivity|]; simpl.
  rewrite IH; simpl.
  destruct (P x) eqn:Px, (P y) eqn:Py; try reflexivity.
  rewrite (tied x y Px Py) in E; discriminate.
Qed.

(** Sorting keeps the elements that tie in their order of arrival. *)
Lemma jsSort_filter (l : list A) : filter P (jsSort le l) = filter P l.
Proof.
  induction l as [|x l IH]; [reflexivity|]; simpl.
  rewrite sortInsert_filter; simpl; rewrite IH; reflexivity.
Qed.
End SortStability.

(** X3.  Within a row, fragments at the same horizontal coordinate stay
    in their order of arrival on the page: the sort by x is stable, and
    ties are not broken by anything else. *)
Theorem X3_equal_x_keeps_arrival_order :
  forall (p : page) (r : Z * list item) (x : Q),
    In r (rows p) ->
    filter (atX x) (snd r) = filter (atX x) (filter (inBucket (fst r)) p).
Proof.
  intros p r x Hr.
  rewrite rows_eq in Hr; apply in_map_iff in Hr as (y & <- & _); simpl.
  apply jsSort_filter.
  intros a b Ha Hb; unfold atX in *.
  apply Qeq_bool_iff in Ha, Hb; apply Qle_bool_iff; lra.
Qed.

(** X3, witness: two fragments at x = 40 on the row of key 700, the
    second to arrive is the second in the row. *)
Lemma X3_equal_x_keeps_arrival_order_witness :
  filter (atX 40)
         (sortByX [fragment "late" 90 700; fragment "b" 40 700; fragment "a" 40 700])
  = [fragment "b" 40 700; fragment "a" 40 700].
Proof.
  exact (X3_equal_x_keeps_arrival_order
           [fragment "late" 90 700; fragment "b" 40 700; fragment "a" 40 700]
           (700%Z, sortByX [fragment "late" 90 700; fragment "b" 40 700;
                            fragment "a" 40 700])
           40%Q (or_introl eq_refl)).
Defined.

(** X4.  Every line [readPdf] emits for a page is non-empty and neither
    begins nor ends with white space; trimming it again, as the plugin's
    action and transition do with each line, gives the same line. *)
Theorem X4_lines_are_trimmed :
  forall p : page,
    Forall (fun line => line <> EmptyString
                        /\ startsWithSpace line = false
                        /\ endsWithSpace line = false
                        /\ trim line = line) (pageLines p).
Proof.
  intros p; rewrite pageLines_rows, linesOfRows_filter.
  apply Forall_forall; intros l Hl.
  apply filter_In in Hl as [Hl Ht].
  apply in_map_iff in Hl as (r & <- & _).
  destruct (trim_trimmed (join " " (map str (snd r)))) as (H1 & H2 & H3).
  repeat split; try assumption.
  intros E; rewrite E in Ht; discriminate.
Qed.

Lemma mathRound_bounds (y : Q) :
  (inject_Z (mathRound y) <= y + (1 # 2))%Q
  /\ (y + (1 # 2) < inject_Z (mathRound y) + 1)%Q.
Proof.
  unfold mathRound; split.
  - apply Qfloor_le.
  - pose proof (Qlt_floor (y + (1 # 2))) as H.
    rewrite inject_Z_plus in H; exact H.
Qed.

(** X5.  The tolerance of the rows.  Two fragments that share a row are
    less than one unit apart vertically; on a page whose rounded
    coordinates are below [10^21] in absolute value, two fragments at
    least one unit apart never share a row: the higher one is in an
    earlier row. *)
Theorem X5_row_tolerance_is_one_unit :
  forall (p : page) (f1 f2 : item) (y1 y2 : Q),
    In f1 p -> In f2 p -> yCoord f1 = Some y1 -> yCoord f2 = Some y2 ->
    (decimalKeys p -> (y2 + 1 <= y1)%Q -> precedes p f1 f2)
    /\ ((exists r, In r (rows p) /\ In f1 (snd r) /\ In f2 (snd r)) ->
        (y1 - y2 < 1)%Q /\ (y2 - y1 < 1)%Q).
Proof.
  intros p f1 f2 y1 y2 Hf1 Hf2 Hy1 Hy2.
  assert (Hk1 : bucketOf f1 = Some (mathRound y1)) by (apply bucketOf_yCoord; eauto).
  assert (Hk2 : bucketOf f2 = Some (mathRound y2)) by (apply bucketOf_yCoord; eauto).
  destruct (mathRound_bounds y1) as [L1 U1], (mathRound_bounds y2) as [L2 U2].
  split.
  - intros Hd Hgap; eapply precedes_of_keys; try eassumption.
    assert (inject_Z (mathRound y2) < inject_Z (mathRound y1))%Q as H by lra.
    rewrite <- Zlt_Qlt in H; exact H.
  - intros (r & Hr & Hin1 & Hin2).
    apply (in_row p r f1 Hr) in Hin1 as [_ E1].
    apply (in_row p r f2 Hr) in Hin2 as [_ E2].
    assert (mathRound y1 = mathRound y2) as E by congruence.
    rewrite E in *; split; lra.
Qed.

(** X5, witness: on the sample table page the date, at 700.2, is in a
    row before the balance, at 640.1; the amount and the date, at 700
    and 700.2, share the first row. *)
Lemma X5_row_tolerance_is_one_unit_witness :
  precedes tablePage (fragment "01 JAN 2024" 40 (7002 # 10))
                     (fragment "Balance" 40 (6401 # 10))
  /\ ((700 - 7002 # 10 < 1)%Q /\ ((7002 # 10) - 700 < 1)%Q).
Proof.
  split.
  - apply (X5_row_tolerance_is_one_unit tablePage
             (fragment "01 JAN 2024" 40 (7002 # 10))
             (fragment "Balance" 40 (6401 # 10)) (7002 # 10)%Q (6401 # 10)%Q).
    + simpl; tauto.
    + simpl; tauto.
    + reflexivity.
    + reflexivity.
    + unfold decimalKeys, tablePage.
      repeat (apply Forall_cons; [vm_compute; first [reflexivity | exact I]|]).
      apply Forall_nil.
    + vm_compute; discriminate.
  - apply (X5_row_tolerance_is_one_unit tablePage
             (fragment "150.00" 300 700) (fragment "01 JAN 2024" 40 (7002 # 10))
             700%Q (7002 # 10)%Q).
    + simpl; tauto.
    + simpl; tauto.
    + reflexivity.
    + reflexivity.
    + eexists; split; [left; reflexivity|]; simpl; tauto.
Defined.

Lemma linesOfRows_length (rs : list (Z * list item)) :
  List.length (linesOfRows rs) <= List.length rs.
Proof.
  induction rs as [|r rs IH]; [simpl; lia|].
  rewrite linesOfRows_cons, length_app.
  change (List.length (r :: rs)) with (S (List.length rs)).
  assert (List.length (rowLine r) <= 1); [|lia].
  unfold rowLine; destruct (truthy _); simpl; lia.
Qed.

Lemma length_itemsByY (p : page) :
  List.length (itemsByY p) <= List.length (filter hasCoordinate p).
Proof.
  induction p as [|it p IH] using rev_ind; [simpl; lia|].
  rewrite itemsByY_snoc, filter_app, length_app; simpl.
  destruct (hasCoordinate it) eqn:E.
  - unfold groupStep; destruct (bucketOf it) as [y|]; simpl; [|lia].
    pose proof (length_pushAt (propertyName y) it (itemsByY p)); lia.
  - rewrite (groupStep_skips _ it E); simpl; lia.
Qed.

Lemma length_rows (p : page) :
  List.length (rows p) <= List.length (itemsByY p).
Proof.
  assert (H : List.length (rows p) <= List.length (visitedKeys p)).
  { rewrite rows_visited.
    induction (visitedKeys p) as [|y ks IH]; simpl; [lia|].
    rewrite length_app; destruct (filter (inBucket y) p); simpl; lia. }
  rewrite visitedKeys_eq in H.
  rewrite (Permutation_length (jsSort_perm descending (parsedKeys p))) in H.
  assert (E : List.length (parsedKeys p) = List.length (itemsByY p)).
  { rewrite <- (length_map Some), <- parsed_are_numbers.
    unfold keys; rewrite !length_map; reflexivity. }
  lia.
Qed.

(** X6.  A page never yields more lines than it has fragments with a
    vertical coordinate; a row is never empty. *)
Theorem X6_at_most_one_line_per_fragment :
  forall p : page,
    List.length (pageLines p) <= List.length (rows p)
    /\ List.length (rows p) <= List.length (filter hasCoordinate p)
    /\ Forall (fun r => snd r <> []) (rows p).
Proof.
  intros p; repeat split.
  - rewrite pageLines_rows; apply linesOfRows_length.
  - pose proof (length_rows p); pose proof (length_itemsByY p); lia.
  - apply Forall_forall; intros r Hr E.
    apply in_rows in Hr as (_ & Hne & Hs).
    destruct (filter (inBucket (fst r)) p) as [|f l] eqn:Ef; [congruence|].
    assert (Hin : In f (snd r)).
    { rewrite Hs; apply sortByX_In; left; reflexivity. }
    rewrite E in Hin; destruct Hin.
Qed.

End ReadPdfMore.

(* ================================================================== *)
(** * Further properties of the FAB plugin *)
(* ================================================================== *)

Section FabMore.
Import JsString JsNumber JsRegExp FabCommon.

Lemma run_app {St Acc Opt : Type}
  (action : St -> string -> Acc -> Opt -> Acc) (next : St -> string -> Opt -> St)
  (options : Opt) (l1 l2 : list string) (s : St) (acc : Acc) :
  run action next options s acc (l1 ++ l2)
  = run action next options (finalState next options s l1)
        (run action next options s acc l1) l2.
Proof.
  revert s acc; induction l1 as [|l l1 IH]; intros s acc; simpl; [reflexivity|].
  apply IH.
Qed.

(** What the action of the revision with a pending transaction does to
    the two lists: nothing, or one push, to [incomes] exactly when the
    amount is positive. *)
Lemma pending_performStateAction_lists (s : State) (line : string)
  (w : FabPending.world) (opts : ParserOptions) :
  let o := fst w in
  let o' := fst (FabPending.performStateAction s line w opts) in
  (incomes o' = incomes o /\ expenses o' = expenses o)
  \/ (exists t, gt0 (amount t) = true
                /\ incomes o' = incomes o ++ [t] /\ expenses o' = expenses o)
  \/ (exists t, gt0 (amount t) = false
                /\ incomes o' = incomes o /\ expenses o' = expenses o ++ [t]).
Proof.
  destruct w as [o pending]; unfold FabPending.performStateAction; simpl fst.
  set (o2 := defaultYearPrefix opts (extractAccountInfo (trim line) o)).
  assert (Hi : incomes o2 = incomes o)
    by (unfold o2; rewrite defaultYearPrefix_incomes; apply extractAccountInfo_incomes).
  assert (He : expenses o2 = expenses o)
    by (unfold o2; rewrite defaultYearPrefix_expenses; apply extractAccountInfo_expenses).
  destruct s; simpl; auto.
  destruct (FabPending.isSkippedLine (trim line)); simpl; auto.
  destruct (FabPending.parseTransaction pending (trim line)) as [[t|] c]; simpl; auto.
  destruct (gt0 (amount t)) eqn:Hg; simpl; rewrite Hi, He.
  - right; left; exists t; auto.
  - right; right; exists t; auto.
Qed.

(** X7.  The account information the action extracts from a line does
    not depend on the state it is called in: name, account suffix, year
    prefix and statement period come out the same in every state, in
    the plugin and in the revision with a pending transaction. *)
Theorem X7_account_info_is_state_independent :
  forall (s s' : State) (line : string) (output : ParsedOutput)
         (pending : option FabPending.PendingTransaction) (options : ParserOptions),
    accountInfo (Fab.performStateAction s line output options)
    = accountInfo (Fab.performStateAction s' line output options)
    /\ accountInfo (fst (FabPending.performStateAction s line (output, pending) options))
       = accountInfo (Fab.performStateAction s' line output options).
Proof.
  intros s s' line output pending options.
  assert (H : forall s0, accountInfo (Fab.performStateAction s0 line output options)
                         = accountInfo (defaultYearPrefix options
                                          (extractAccountInfo (trim line) output))).
  { intros s0; unfold Fab.performStateAction.
    destruct s0; try reflexivity.
    destruct (Fab.isSkippedLine (trim line)); [reflexivity|].
    destruct (Fab.parseTransaction (trim line)) as [t|]; [|reflexivity].
    destruct (gt0 (amount t)); reflexivity. }
  split; [rewrite !H; reflexivity|].
  rewrite H; unfold FabPending.performStateAction.
  destruct s; try reflexivity.
  destruct (FabPending.isSkippedLine (trim line)); [reflexivity|].
  destruct (FabPending.parseTransaction pending (trim line)) as [[t|] c]; [|reflexivity].
  destruct (gt0 (amount t)); reflexivity.
Qed.

(** X8.  Outside the transaction-lines state the action records
    nothing: in the header and the end state the two transaction lists
    are left as they are, whatever the line, and the revision with a
    pending transaction leaves its carry untouched as well. *)
Theorem X8_nothing_recorded_outside_transaction_lines :
  forall (s : State) (line : string) (output : ParsedOutput)
         (pending : option FabPending.PendingTransaction) (options : ParserOptions),
    s <> TransactionLines ->
    (incomes (Fab.performStateAction s line output options) = incomes output
     /\ expenses (Fab.performStateAction s line output options) = expenses output)
    /\ (incomes (fst (FabPending.performStateAction s line (output, pending) options))
        = incomes output
        /\ expenses (fst (FabPending.performStateAction s line (output, pending) options))
           = expenses output
        /\ snd (FabPending.performStateAction s line (output, pending) options)
           = pending).
Proof.
  intros s line output pending options Hs.
  unfold Fab.performStateAction, FabPending.performStateAction.
  destruct s; try congruence; simpl;
    rewrite defaultYearPrefix_incomes, defaultYearPrefix_expenses,
      extractAccountInfo_incomes, extractAccountInfo_expenses; auto.
Qed.

(** X8, witness: the first transaction line of the fixture, met in the
    header state. *)
Lemma X8_nothing_recorded_outside_transaction_lines_witness :
  incomes (Fab.performStateAction Header groceryLine initOutput (MkOptions 20)) = []
  /\ expenses (Fab.performStateAction Header groceryLine initOutput (MkOptions 20)) = [].
Proof.
  apply (X8_nothing_recorded_outside_transaction_lines
           Header groceryLine initOutput None (MkOptions 20)).
  discriminate.
Defined.

Lemma run_append_only (lines : list string) (s : State) (o : ParsedOutput)
  (opts : ParserOptions) :
  exists newIncomes newExpenses,
    incomes (run Fab.performStateAction Fab.nextState opts s o lines)
    = incomes o ++ newIncomes
    /\ expenses (run Fab.performStateAction Fab.nextState opts s o lines)
       = expenses o ++ newExpenses
    /\ List.length newIncomes + List.length newExpenses <= List.length lines.
Proof.
  revert s o; induction lines as [|line lines IH]; intros s o; simpl.
  - exists [], []; rewrite !app_nil_r; simpl; auto.
  - destruct (IH (Fab.nextState s line opts) (Fab.performStateAction s line o opts))
      as (ni & ne & Hi & He & Hlen).
    rewrite Hi, He.
    destruct (performStateAction_lists s line o opts)
      as [[-> ->] | [(t & _ & -> & ->) | (t & _ & -> & ->)]].
    + exists ni, ne; repeat split; auto.
    + exists (t :: ni), ne; rewrite <- app_assoc; simpl; repeat split; auto; lia.
    + exists ni, (t :: ne); rewrite <- app_assoc; simpl; repeat split; auto; lia.
Qed.

(** X9.  The plugin only ever appends.  From any state and any
    accumulator, after any line sequence, the two lists are the lists it
    started with followed by the new transactions, and at most one
    transaction is recorded a line. *)
Theorem X9_transactions_are_only_appended :
  forall (lines : list string) (s : State) (output : ParsedOutput)
         (options : ParserOptions),
    exists newIncomes newExpenses,
      incomes (run Fab.performStateAction Fab.nextState options s output lines)
      = incomes output ++ newIncomes
      /\ expenses (run Fab.performStateAction Fab.nextState options s output lines)
         = expenses output ++ newExpenses
      /\ List.length newIncomes + List.length newExpenses <= List.length lines.
Proof. exact run_append_only. Qed.

Lemma run_outside (lines : list string) (s : State) (o : ParsedOutput)
  (opts : ParserOptions) :
  s <> TransactionLines ->
  Forall (fun l => Fab.nextState s l opts = s) lines ->
  incomes (run Fab.performStateAction Fab.nextState opts s o lines) = incomes o
  /\ expenses (run Fab.performStateAction Fab.nextState opts s o lines) = expenses o.
Proof.
  intros Hs; revert o; induction lines as [|l lines IH]; intros o Hl; simpl; [auto|].
  inversion Hl as [|? ? Hl1 Hl2]; subst.
  rewrite Hl1.
  destruct (IH (Fab.performStateAction s l o opts) Hl2) as [-> ->].
  unfold Fab.performStateAction.
  destruct s; try congruence;
    rewrite defaultYearPrefix_incomes, defaultYearPrefix_expenses,
      extractAccountInfo_incomes, extractAccountInfo_expenses; auto.
Qed.

(** X10.  No transaction is recorded before the table header is seen:
    when no line holds the header text of the transaction table, the
    parse ends with both lists empty, whatever else the lines hold. *)
Theorem X10_no_table_header_no_transactions :
  forall (lines : list string) (options : ParserOptions),
    Forall (fun l => includes (trim (toLowerCase l)) tableHeaderMarker = false) lines ->
    incomes (Fab.parseText lines options) = []
    /\ expenses (Fab.parseText lines options) = [].
Proof.
  intros lines options H.
  apply (run_outside lines Header initOutput options); [discriminate|].
  eapply Forall_impl; [|exact H].
  intros l Hl; unfold Fab.nextState; unfold tableHeaderMarker in Hl.
  rewrite Hl; reflexivity.
Qed.

(** X10, witness: a transaction line that no table header precedes. *)
Lemma X10_no_table_header_no_transactions_witness :
  incomes (Fab.parseText ["ACCOUNT STATEMENT"; groceryLine] (MkOptions 20)) = []
  /\ expenses (Fab.parseText ["ACCOUNT STATEMENT"; groceryLine] (MkOptions 20)) = [].
Proof.
  apply (X10_no_table_header_no_transactions
           ["ACCOUNT STATEMENT"; groceryLine] (MkOptions 20)).
  repeat constructor.
Defined.

(** X11.  No transaction is recorded after the end of the table: once
    the lines read so far have taken the parser to the end state, the
    lines that follow change neither list. *)
Theorem X11_nothing_recorded_after_the_end :
  forall (pre post : list string) (options : ParserOptions),
    finalState Fab.nextState options Header pre = EndState ->
    incomes (Fab.parseText (pre ++ post) options) = incomes (Fab.parseText pre options)
    /\ expenses (Fab.parseText (pre ++ post) options)
       = expenses (Fab.parseText pre options).
Proof.
  intros pre post options H; unfold Fab.parseText.
  rewrite run_app, H.
  apply run_outside; [discriminate|].
  apply Forall_forall; intros; reflexivity.
Qed.

(** X11, witness: a transaction line that follows the closing
    balance. *)
Lemma X11_nothing_recorded_after_the_end_witness :
  incomes (Fab.parseText ([tableHeaderLine; "Closing Book Balance 18,760.95"]
                          ++ [depositLine]) (MkOptions 20)) = []
  /\ expenses (Fab.parseText ([tableHeaderLine; "Closing Book Balance 18,760.95"]
                              ++ [depositLine]) (MkOptions 20)) = [].
Proof.
  apply (X11_nothing_recorded_after_the_end
           [tableHeaderLine; "Closing Book Balance 18,760.95"] [depositLine]
           (MkOptions 20)).
  reflexivity.
Defined.

Lemma gt0_neg_abs (x : number) : gt0 (neg (mathAbs x)) = false.
Proof.
  destruct x as [| | |q]; simpl; try reflexivity.
  apply negb_false_iff, Qle_bool_iff.
  pose proof (Qabs_nonneg q); lra.
Qed.

Ltac split_in H :=
  repeat match type of H with
         | context [match ?x with _ => _ end] =>
             let E := fresh "E" in destruct x eqn:E; try discriminate
         end.

Lemma regularTransaction_income_keyword (line clean : string) (t : ParsedTransaction) :
  Fab.regularTransaction line clean = Some t -> gt0 (amount t) = true ->
  Fab.isIncomeDescription (description t) = true.
Proof.
  unfold Fab.regularTransaction; intros H Hg.
  split_in H; injection H as <-; simpl in *;
    [assumption | rewrite gt0_neg_abs in Hg; discriminate].
Qed.

Lemma depositTransaction_income_keyword (line clean : string) (t : ParsedTransaction) :
  Fab.depositTransaction line clean = Some t ->
  Fab.isIncomeDescription (description t) = true.
Proof.
  unfold Fab.depositTransaction; intros H.
  split_in H; injection H as <-; simpl.
  match goal with H : Fab.isDepositDescription _ = true |- _ => rename H into Hd end.
  unfold Fab.isDepositDescription in Hd; unfold Fab.isIncomeDescription.
  repeat (apply orb_true_iff in Hd; destruct Hd as [Hd|Hd]);
    rewrite Hd, ?orb_true_r; reflexivity.
Qed.

Lemma parseTransaction_income_keyword (line : string) (t : ParsedTransaction) :
  Fab.parseTransaction line = Some t -> gt0 (amount t) = true ->
  Fab.isIncomeDescription (description t) = true.
Proof.
  unfold Fab.parseTransaction; intros H Hg.
  destruct (negb _); [discriminate|].
  destruct (Fab.regularTransaction line _) as [t'|] eqn:E.
  - injection H as ->; eapply regularTransaction_income_keyword; eassumption.
  - eapply depositTransaction_income_keyword; eassumption.
Qed.

Lemma run_income_keywords (lines : list string) (s : State) (o : ParsedOutput)
  (opts : ParserOptions) :
  Forall (fun t => Fab.isIncomeDescription (description t) = true) (incomes o) ->
  Forall (fun t => Fab.isIncomeDescription (description t) = true)
         (incomes (run Fab.performStateAction Fab.nextState opts s o lines)).
Proof.
  revert s o; induction lines as [|line lines IH]; intros s o Ho; simpl; [exact Ho|].
  apply IH; unfold Fab.performStateAction.
  destruct s; simpl;
    try (rewrite defaultYearPrefix_incomes, extractAccountInfo_incomes; exact Ho).
  destruct (Fab.isSkippedLine (trim line));
    [rewrite defaultYearPrefix_incomes, extractAccountInfo_incomes; exact Ho|].
  destruct (Fab.parseTransaction (trim line)) as [t|] eqn:P;
    [|rewrite defaultYearPrefix_incomes, extractAccountInfo_incomes; exact Ho].
  destruct (gt0 (amount t)) eqn:Hg; simpl;
    rewrite defaultYearPrefix_incomes, extractAccountInfo_incomes; [|exact Ho].
  apply Forall_app; split; [exact Ho|].
  repeat constructor; eapply parseTransaction_income_keyword; eassumption.
Qed.

(** X12.  Every recorded income earns its place by a keyword: after any
    line sequence, the description of each element of [incomes] holds,
    in any letter case, one of the income keywords of
    [parseTransaction]. *)
Theorem X12_every_income_has_an_income_keyword :
  forall (lines : list string) (options : ParserOptions),
    Forall (fun t => Fab.isIncomeDescription (description t) = true)
           (incomes (Fab.parseText lines options)).
Proof. intros lines options; apply run_income_keywords; constructor. Qed.

End FabMore.

Section FabPendingMore.
Import JsString JsNumber JsRegExp FabCommon.

Ltac split_hyp H :=
  repeat match type of H with
         | context [match ?x with _ => _ end] =>
             let E := fresh "E" in destruct x eqn:E; try discriminate
         end.

Lemma pending_run_signSplit (lines : list string) (s : State)
  (w : FabPending.world) (opts : ParserOptions) :
  signSplit (fst w) ->
  signSplit (fst (run FabPending.performStateAction FabPending.nextState opts s w lines)).
Proof.
  revert s w; induction lines as [|line lines IH]; intros s w Hw; simpl; [exact Hw|].
  apply IH.
  destruct Hw as [Hi He]; unfold signSplit.
  destruct (pending_performStateAction_lists s line w opts)
    as [[-> ->] | [(t & Hg & -> & ->) | (t & Hg & -> & ->)]].
  - auto.
  - split; [apply Forall_app; split; [exact Hi | repeat constructor; exact Hg] | exact He].
  - split; [exact Hi|].
    apply Forall_app; split; [exact He|].
    repeat constructor; [exact Hg | apply not_gt0, Hg].
Qed.

(** X13.  The revision with a pending transaction keeps the sign split
    whatever the module-level carry holds when the run starts: after any
    line sequence every element of [incomes] has a strictly positive
    amount and every element of [expenses] an amount that is not
    positive, also for transactions completed from a carried one. *)
Theorem X13_pending_revision_keeps_sign_split :
  forall (pending : option FabPending.PendingTransaction) (lines : list string)
         (options : ParserOptions),
    Forall positiveAmount (incomes (fst (FabPending.parseText pending lines options)))
    /\ Forall notPositiveAmount
              (expenses (fst (FabPending.parseText pending lines options))).
Proof.
  intros pending lines options.
  apply (pending_run_signSplit lines Header (initOutput, pending) options).
  split; constructor.
Qed.

(** X14.  A line without a date completes the pending transaction or
    records nothing.  The transaction it completes keeps the date and
    the original text of the line that started it, its description is
    the started description, a space, and the cleaned continuation
    line, and the carry is empty afterwards. *)
Theorem X14_continuation_completes_the_carried_transaction :
  forall (p : FabPending.PendingTransaction) (line : string)
         (t : ParsedTransaction) (carry : option FabPending.PendingTransaction),
    FabPending.isDated line = false ->
    FabPending.parseTransaction (Some p) line = (Some t, carry) ->
    carry = None
    /\ date t = FabPending.pDate p
    /\ originalText t = FabPending.pOriginalText p
    /\ description t
       = (FabPending.pDescription p ++ " " ++ trim (collapseSpaces false line))%string.
Proof.
  intros p line t carry Hd H.
  unfold FabPending.parseTransaction in H.
  unfold FabPending.isDated in Hd; rewrite Hd in H.
  unfold FabPending.continuePending in H.
  destruct (truthy (FabPending.pDescription p)) eqn:Et.
  - split_hyp H; injection H as <- <-; simpl; auto.
  - split_hyp H; injection H as <- <-; simpl in *; congruence.
Qed.

(** X14, witness: the carry [carryLines] leaves, completed by a line
    that ends in a balance. *)
Lemma X14_continuation_completes_the_carried_transaction_witness :
  description (MkTransaction (MkDate 2024 1 1)
                 "POS Settlement PARTIAL continued 5.00 100.00" (Num (-5))
                 ["01 JAN 2024 01 JAN 2024 POS Settlement PARTIAL"])
  = ("POS Settlement PARTIAL" ++ " " ++ "continued 5.00 100.00")%string.
Proof.
  apply (X14_continuation_completes_the_carried_transaction
           FabPending.partialPending "continued 5.00 100.00"
           (MkTransaction (MkDate 2024 1 1)
              "POS Settlement PARTIAL continued 5.00 100.00" (Num (-5))
              ["01 JAN 2024 01 JAN 2024 POS Settlement PARTIAL"])
           None); reflexivity.
Defined.

Lemma tryPatterns_originalText (ps : list (regex * nat)) (line clean : string)
  (t : ParsedTransaction) :
  FabPending.tryPatterns ps line clean = Some t -> originalText t = [line].
Proof.
  induction ps as [|[pattern g] ps IH]; simpl; [discriminate|].
  intros H.
  match type of H with
  | match ?found with _ => _ end = _ => destruct found as [t'|] eqn:E
  end; [|apply IH, H].
  injection H as ->.
  split_hyp E; injection E as <-; reflexivity.
Qed.

(** What a dated line leaves pending: the transaction it starts itself,
    when it starts one, and what was pending before otherwise. *)
Lemma startPending_alone (pending : option FabPending.PendingTransaction)
  (line cleanLine : string) :
  FabPending.startPending pending line cleanLine
  = match FabPending.startPending None line cleanLine with
    | Some started => Some started
    | None => pending
    end.
Proof.
  unfold FabPending.startPending.
  destruct (exec FabPending.incompleteRegExp cleanLine) as [m|]; [|reflexivity].
  destruct (present (group 1 m) && present (group 3 m)); [|reflexivity].
  destruct (parseDate (text (group 1 m))); reflexivity.
Qed.

Lemma startPending_originalText (line cleanLine : string)
  (started : FabPending.PendingTransaction) :
  FabPending.startPending None line cleanLine = Some started ->
  FabPending.pOriginalText started = [line].
Proof.
  unfold FabPending.startPending.
  destruct (exec FabPending.incompleteRegExp cleanLine) as [m|]; [|discriminate].
  destruct (present (group 1 m) && present (group 3 m)); [|discriminate].
  destruct (parseDate (text (group 1 m))); [|discriminate].
  intros [= <-]; reflexivity.
Qed.

(** X15.  A dated line never emits the carried transaction: it is
    parsed as if nothing were pending.  The transaction it yields is the
    one it yields when the carry is empty, so that its date, its
    description, its amount and its original text come from that line
    alone; it then leaves the carry as it was.  When it yields none,
    the carry afterwards is the pending transaction this line starts by
    itself, if it starts one, and the carry as it was otherwise.  What
    was pending before is neither recorded nor altered by a dated
    line. *)
Theorem X15_dated_line_never_emits_the_carry :
  forall (pending : option FabPending.PendingTransaction) (line : string),
    FabPending.isDated line = true ->
    fst (FabPending.parseTransaction pending line)
    = fst (FabPending.parseTransaction None line)
    /\ snd (FabPending.parseTransaction pending line)
       = match snd (FabPending.parseTransaction None line) with
         | Some started => Some started
         | None => pending
         end
    /\ (forall t, fst (FabPending.parseTransaction None line) = Some t ->
                  originalText t = [line]
                  /\ snd (FabPending.parseTransaction None line) = None)
    /\ (forall started,
          snd (FabPending.parseTransaction None line) = Some started ->
          FabPending.pOriginalText started = [line]
          /\ fst (FabPending.parseTransaction None line) = None).
Proof.
  intros pending line Hd.
  unfold FabPending.parseTransaction.
  unfold FabPending.isDated in Hd; rewrite Hd.
  destruct (FabPending.tryPatterns _ _ _) as [t|] eqn:E; cbn [fst snd].
  - split; [reflexivity | split; [reflexivity | split]].
    + intros t' [= <-]; split; [|reflexivity].
      eapply tryPatterns_originalText; exact E.
    + intros started H; discriminate H.
  - split; [reflexivity | split; [apply startPending_alone | split]].
    + intros t' H; discriminate H.
    + intros started H; split; [|reflexivity].
      eapply startPending_originalText; exact H.
Qed.

(** X15, witness: a complete transaction line met while a transaction
    is pending yields its own transaction and leaves the carry as it
    was. *)
Lemma X15_dated_line_never_emits_the_carry_witness :
  FabPending.parseTransaction (Some FabPending.partialPending) depositLine
  = (Some cashDepositTransaction, Some FabPending.partialPending)
  /\ fst (FabPending.parseTransaction (Some FabPending.partialPending) depositLine)
     = fst (FabPending.parseTransaction None depositLine).
Proof.
  split; [reflexivity|].
  apply (X15_dated_line_never_emits_the_carry
           (Some FabPending.partialPending) depositLine).
  reflexivity.
Defined.

End FabPendingMore.

Section KeywordFacts.
Import JsString JsNumber JsRegExp FabCommon.

Lemma includes_narrower (s a b : string) :
  includes a b = true -> includes s a = true -> includes s b = true.
Proof. intros Hab Hsa; eapply includes_trans; eassumption. Qed.

Lemma orb_absorb (a b : bool) : (b = true -> a = true) -> a || b = a.
Proof. destruct a, b; simpl; intros H; auto; symmetry; apply H; reflexivity. Qed.

(** X16.  The keyword test that makes a transaction an income.  Of the
    six keywords of [parseTransaction] two never decide, since a text
    that holds [atm cash deposit] or [cash deposit] holds [deposit]: a
    description is an income description exactly when, in lower case,
    it holds [transfer], [inward], [deposit] or [reverse charges].
    [isIncomeTransaction] of the sibling revisions accepts the same
    descriptions and, in addition, those that hold [credit]. *)
Theorem X16_effective_income_keywords :
  forall desc : string,
    let lower := toLowerCase desc in
    Fab.isIncomeDescription desc
    = includes lower "transfer" || includes lower "inward"
      || includes lower "deposit" || includes lower "reverse charges"
    /\ FabKeywords.isIncomeTransaction desc
       = Fab.isIncomeDescription desc || includes lower "credit"
    /\ FabPending.isIncomeTransaction desc = FabKeywords.isIncomeTransaction desc.
Proof.
  intros desc lower.
  assert (H1 : includes lower "atm cash deposit" = true -> includes lower "deposit" = true)
    by (apply includes_narrower; reflexivity).
  assert (H2 : includes lower "cash deposit" = true -> includes lower "deposit" = true)
    by (apply includes_narrower; reflexivity).
  unfold Fab.isIncomeDescription, FabKeywords.isIncomeTransaction,
    FabPending.isIncomeTransaction, FabKeywords.incomeKeywords,
    FabPending.incomeKeywords; fold lower; simpl.
  destruct (includes lower "transfer"), (includes lower "inward"),
    (includes lower "deposit"), (includes lower "reverse charges"),
    (includes lower "atm cash deposit"), (includes lower "cash deposit"),
    (includes lower "credit"); simpl;
    repeat split; try reflexivity;
    try (discriminate H1; reflexivity); try (discriminate H2; reflexivity).
Qed.

Lemma isWhiteSpace_lowerChar (c : ascii) :
  isWhiteSpace (lowerChar c) = isWhiteSpace c.
Proof. destruct c as [[] [] [] [] [] [] [] []]; reflexivity. Qed.

Lemma toLowerCase_trimStart (s : string) :
  toLowerCase (trimStart s) = trimStart (toLowerCase s).
Proof.
  induction s as [|c s IH]; simpl; [reflexivity|].
  rewrite isWhiteSpace_lowerChar.
  destruct (isWhiteSpace c); [exact IH | reflexivity].
Qed.

Lemma toLowerCase_trimEnd (s : string) :
  toLowerCase (trimEnd s) = trimEnd (toLowerCase s).
Proof.
  induction s as [|c s IH]; simpl; [reflexivity|].
  rewrite <- IH, isWhiteSpace_lowerChar.
  destruct (trimEnd s); simpl; [destruct (isWhiteSpace c)|]; reflexivity.
Qed.

Lemma toLowerCase_trim (s : string) : toLowerCase (trim s) = trim (toLowerCase s).
Proof. unfold trim; rewrite toLowerCase_trimEnd, toLowerCase_trimStart; reflexivity. Qed.

Lemma cleaned_again (line : string) :
  trim (toLowerCase (toLowerCase line)) = trim (toLowerCase line)
  /\ trim (toLowerCase (trim line)) = trim (toLowerCase line).
Proof.
  split.
  - rewrite toLowerCase_idempotent; reflexivity.
  - rewrite toLowerCase_trim; apply trim_trimmed.
Qed.

(** X17.  The transition reads a line without regard to letter case or
    to white space around it: in every state, and in each of the three
    revisions, the lower-cased line and the trimmed line lead to the
    state the line itself leads to. *)
Theorem X17_transition_ignores_case_and_outer_space :
  forall (s : State) (line : string) (options : ParserOptions),
    (Fab.nextState s (toLowerCase line) options = Fab.nextState s line options
     /\ Fab.nextState s (trim line) options = Fab.nextState s line options)
    /\ (FabKeywords.nextState s (toLowerCase line) options
        = FabKeywords.nextState s line options
        /\ FabKeywords.nextState s (trim line) options
           = FabKeywords.nextState s line options)
    /\ (FabPending.nextState s (toLowerCase line) options
        = FabPending.nextState s line options
        /\ FabPending.nextState s (trim line) options
           = FabPending.nextState s line options).
Proof.
  intros s line options.
  destruct (cleaned_again line) as [H1 H2].
  unfold Fab.nextState, FabKeywords.nextState, FabPending.nextState.
  rewrite H1, H2; repeat split.
Qed.

End KeywordFacts.

(* ================================================================== *)
(** * The matcher is sound *)
(* ================================================================== *)

Section MatcherSound.
Import JsString JsRegExp JsRegExpSemantics.

Lemma length_append (a b : string) :
  String.length (a ++ b) = String.length a + String.length b.
Proof. induction a as [|c a IH]; simpl; [|rewrite IH]; reflexivity. Qed.

Lemma orElse_Some (a b : option mstate) (z : mstate) :
  orElse a b = Some z -> a = Some z \/ b = Some z.
Proof. destruct a; simpl; intros H; [left | right]; assumption. Qed.

Lemma repeatClass_sound (p : ascii -> bool) (greedy : bool) (s : string) :
  forall (min : nat) (max : option nat) (n : nat) (cs : captures) (k : cont) (z : mstate),
    repeatClass p greedy min max n s cs k = Some z ->
    exists j y, consumes p j (MState n s cs) y /\ min <= j
                /\ (forall m, max = Some m -> j <= m) /\ k y = Some z.
Proof.
  induction s as [|c s IH]; intros min max n cs k z H.
  - assert (Hstop : min = 0 /\ k (MState n "" cs) = Some z).
    { simpl in H. destruct min; simpl in H.
      - destruct greedy; simpl in H; [|destruct (k (MState n "" cs)); simpl in H];
          split; congruence.
      - destruct greedy; simpl in H; discriminate. }
    destruct Hstop as [-> Hk].
    exists 0, (MState n "" cs); repeat split; [constructor | lia | intros; lia | exact Hk].
  - assert (Hcases :
              (min = 0 /\ k (MState n (String c s) cs) = Some z)
              \/ (p c = true /\ max <> Some 0
                  /\ repeatClass p greedy (pred min) (option_map pred max) (S n) s cs k
                     = Some z)).
    { cbn [repeatClass] in H.
      set (more := if p c && negb match max with Some 0 => true | _ => false end
                   then repeatClass p greedy (pred min) (option_map pred max) (S n) s cs k
                   else None) in H.
      set (stop := if min =? 0 then k (MState n (String c s) cs) else None) in H.
      assert (Hmore : more = Some z ->
                      p c = true /\ max <> Some 0
                      /\ repeatClass p greedy (pred min) (option_map pred max) (S n) s cs k
                         = Some z).
      { unfold more; destruct (p c); simpl; [|discriminate].
        destruct max as [[|m]|]; simpl; try discriminate; intros E;
          repeat split; try congruence. }
      assert (Hstop : stop = Some z ->
                      min = 0 /\ k (MState n (String c s) cs) = Some z).
      { unfold stop; destruct min; simpl; [auto | discriminate]. }
      destruct greedy.
      - apply orElse_Some in H as [H|H]; [right; apply Hmore, H | left; apply Hstop, H].
      - destruct (min =? 0).
        + apply orElse_Some in H as [H|H]; [left; apply Hstop, H | right; apply Hmore, H].
        + right; apply Hmore, H. }
    destruct Hcases as [[-> Hk] | (Hp & Hmax & Hrec)].
    + exists 0, (MState n (String c s) cs);
        repeat split; [constructor | lia | intros; lia | exact Hk].
    + destruct (IH _ _ _ _ _ _ Hrec) as (j & y & Hc & Hmin & Hbound & Hk).
      exists (S j), y; repeat split; [constructor; assumption | lia | | exact Hk].
      intros m ->; destruct m as [|m]; [congruence|].
      specialize (Hbound m eq_refl); lia.
Qed.

(** Whenever the matcher succeeds, it has taken a step the pattern
    allows and handed the position it reached to its continuation. *)
Lemma compile_sound (r : regex) :
  forall (x : mstate) (k : cont) (z : mstate),
    compile r x k = Some z -> exists y, matches r x y /\ k y = Some z.
Proof.
  induction r as [|p|r1 IH1 r2 IH2|r1 IH1 r2 IH2|greedy min max p|i r IH| |];
    intros x k z H; simpl in H.
  - exists x; split; [constructor | exact H].
  - destruct x as [n s cs]; simpl in H.
    destruct s as [|c s]; [discriminate|].
    destruct (p c) eqn:Hp; [|discriminate].
    eexists; split; [constructor; exact Hp | exact H].
  - apply IH1 in H as (y & Hy & H); apply IH2 in H as (y' & Hy' & H).
    exists y'; split; [econstructor; eassumption | exact H].
  - apply orElse_Some in H as [H|H].
    + apply IH1 in H as (y & Hy & H); exists y; split; [apply matches_Alt_l, Hy | exact H].
    + apply IH2 in H as (y & Hy & H); exists y; split; [apply matches_Alt_r, Hy | exact H].
  - destruct x as [n s cs]; simpl in H.
    apply repeatClass_sound in H as (j & y & Hc & Hmin & Hmax & H).
    exists y; split; [econstructor; eassumption | exact H].
  - apply IH in H as (y & Hy & H).
    eexists; split; [apply matches_Group, Hy | exact H].
  - destruct (pos x =? 0) eqn:E; [|discriminate].
    exists x; split; [constructor; apply Nat.eqb_eq, E | exact H].
  - destruct (rest x) eqn:E; [|discriminate].
    exists x; split; [constructor; exact E | exact H].
Qed.

(** A successful search found a match at some position of the subject:
    the subject is what lies before the match followed by the text the
    matcher started on. *)
Lemma searchFrom_sound (r : regex) (s : string) :
  forall (n : nat) (m : matchResult),
    searchFrom (compile r) n s = Some m ->
    exists (before from : string) (y : mstate),
      s = (before ++ from)%string
      /\ index m = n + String.length before
      /\ matches r (MState (index m) from []) y
      /\ groups m = caps y /\ after m = rest y
      /\ whole m = substring 0 (pos y - index m) from.
Proof.
  induction s as [|c s IH]; intros n m H; cbn [searchFrom] in H.
  - destruct (compile r (MState n "" []) (fun y => Some y)) as [y|] eqn:E; [|discriminate].
    injection H as <-.
    apply compile_sound in E as (y' & Hy & E); injection E as <-.
    exists "", "", y'; simpl; repeat split; auto.
  - destruct (compile r (MState n (String c s) []) (fun y => Some y)) as [y|] eqn:E.
    + injection H as <-.
      apply compile_sound in E as (y' & Hy & E); injection E as <-.
      exists "", (String c s), y'; simpl; repeat split; auto.
    + apply IH in H as (before & from & y & -> & Hi & Hm & Hg & Ha & Hw).
      exists (String c before), from, y; simpl; repeat split; auto; lia.
Qed.

Lemma exec_sound (r : regex) (s : string) (m : matchResult) :
  exec r s = Some m ->
  exists (before from : string) (y : mstate),
    s = (before ++ from)%string
    /\ matches r (MState (index m) from []) y
    /\ groups m = caps y /\ after m = rest y
    /\ whole m = substring 0 (pos y - index m) from.
Proof.
  intros H; apply searchFrom_sound in H as (b & f & y & H1 & _ & H2 & H3 & H4 & H5).
  exists b, f, y; auto.
Qed.

Lemma consumes_advance (p : ascii -> bool) (n : nat) (x y : mstate) :
  consumes p n x y ->
  exists t, rest x = (t ++ rest y)%string /\ pos y = pos x + n
            /\ String.length t = n /\ allChars p t = true /\ caps y = caps x.
Proof.
  induction 1 as [x | n k c s cs y Hp Hc (t & Hr & Hpos & Hlen & Hall & Hcaps)].
  - exists ""; simpl; repeat split; auto.
  - exists (String c t); simpl in *; repeat split; auto; try lia; try congruence.
    rewrite Hp, Hall; reflexivity.
Qed.

(** A match moves forward: what it started on is the text it consumed
    followed by what lies after it. *)
Lemma matches_advance (r : regex) (x y : mstate) :
  matches r x y ->
  exists t, rest x = (t ++ rest y)%string /\ pos y = pos x + String.length t.
Proof.
  induction 1 as [x | p k c s cs Hp | r1 r2 x y z _ (t1 & E1 & P1) _ (t2 & E2 & P2)
                 | r1 r2 x y _ IH | r1 r2 x y _ IH
                 | greedy min max p n x y Hc _ _ | i r x y _ (t & E & P)
                 | x _ | x _].
  - exists ""; simpl; auto.
  - exists (String c ""); simpl; split; [reflexivity | lia].
  - exists (t1 ++ t2)%string; split.
    + rewrite E1, E2, append_assoc; reflexivity.
    + rewrite P2, P1, length_append; lia.
  - exact IH.
  - exact IH.
  - apply consumes_advance in Hc as (t & H1 & H2 & H3 & _); exists t; split; [auto | lia].
  - exists t; simpl; auto.
  - exists ""; simpl; auto.
  - exists ""; simpl; auto.
Qed.

Lemma substring_prefix (t u : string) : substring 0 (String.length t) (t ++ u) = t.
Proof.
  induction t as [|c t IH]; simpl.
  - destruct u; reflexivity.
  - rewrite IH; reflexivity.
Qed.

(** The text a group captures is the text its pattern consumed. *)
Lemma consumed_advance (x y : mstate) (t : string) :
  rest x = (t ++ rest y)%string -> pos y = pos x + String.length t ->
  consumed x y = t.
Proof.
  intros E P; unfold consumed; rewrite E, P.
  replace (pos x + String.length t - pos x) with (String.length t) by lia.
  apply substring_prefix.
Qed.

End MatcherSound.

Section MatchShape.
Import JsString JsRegExp JsRegExpSemantics.

Lemma append_nil_r (s : string) : (s ++ "")%string = s.
Proof. induction s as [|c s IH]; simpl; [|rewrite IH]; reflexivity. Qed.

(** A step of the matcher consumes a text the pattern parses and adds
    the groups of that parse to the captures. *)
Lemma matches_parses (r : regex) (x y : mstate) :
  matches r x y ->
  exists t cs, parses r t cs
               /\ rest x = (t ++ rest y)%string
               /\ pos y = pos x + String.length t
               /\ caps y = cs ++ caps x.
Proof.
  induction 1 as [x | p k c s cs Hp
                 | r1 r2 x y z _ (t1 & c1 & P1 & E1 & N1 & C1) _ (t2 & c2 & P2 & E2 & N2 & C2)
                 | r1 r2 x y _ (t & cs & P & E & N & C)
                 | r1 r2 x y _ (t & cs & P & E & N & C)
                 | greedy min max p n x y Hc Hmin Hmax
                 | i r x y Hm (t & cs & P & E & N & C)
                 | x _ | x _].
  - exists "", []; repeat split; [constructor | simpl; lia].
  - exists (String c ""), []; repeat split; [constructor; exact Hp | simpl; lia].
  - exists (t1 ++ t2)%string, (c2 ++ c1); repeat split.
    + constructor; assumption.
    + rewrite E1, E2, append_assoc; reflexivity.
    + rewrite N2, N1, length_append; lia.
    + rewrite C2, C1, app_assoc; reflexivity.
  - exists t, cs; repeat split; auto; apply parses_Alt_l, P.
  - exists t, cs; repeat split; auto; apply parses_Alt_r, P.
  - apply consumes_advance in Hc as (t & E & N & L & A & C).
    exists t, []; repeat split; auto; try lia.
    constructor; [exact A | lia | intros m Hm; specialize (Hmax m Hm); lia].
  - exists t, ((i, t) :: cs); repeat split; simpl; auto.
    + constructor; exact P.
    + rewrite (consumed_advance x y t E N), C; reflexivity.
  - exists "", []; repeat split; [constructor | simpl; lia].
  - exists "", []; repeat split; [constructor | simpl; lia].
Qed.

Lemma matches_startsAnchored (r : regex) (x y : mstate) :
  matches r x y -> startsAnchored r = true -> pos x = 0.
Proof. induction 1; simpl; intros A; try discriminate; auto. Qed.

Lemma matches_endsAnchored (r : regex) (x y : mstate) :
  matches r x y -> endsAnchored r = true -> rest y = EmptyString.
Proof. induction 1; simpl; intros A; try discriminate; auto. Qed.

(** What a successful [match] tells: the subject is the text before the
    match, the matched text and the text after it; the matched text
    parses under the pattern with exactly the captured groups; a pattern
    that starts with [^] matched at the start, one that ends with [$] up
    to the end. *)
Lemma exec_parses (r : regex) (s : string) (m : matchResult) :
  exec r s = Some m ->
  exists before : string,
    s = (before ++ whole m ++ after m)%string
    /\ index m = String.length before
    /\ parses r (whole m) (groups m)
    /\ (startsAnchored r = true -> before = EmptyString)
    /\ (endsAnchored r = true -> after m = EmptyString).
Proof.
  intros H.
  apply searchFrom_sound in H as (before & from & y & -> & Hi & Hm & Hg & Ha & Hw).
  destruct (matches_parses _ _ _ Hm) as (t & cs & P & E & N & C); simpl in *.
  assert (Hwhole : whole m = t).
  { rewrite Hw, E, N.
    replace (index m + String.length t - index m) with (String.length t) by lia.
    apply substring_prefix. }
  exists before; rewrite Hwhole, Hg, Ha, C, app_nil_r; repeat split; auto.
  - rewrite E; reflexivity.
  - intros A; pose proof (matches_startsAnchored _ _ _ Hm A) as Z; simpl in Z.
    destruct before; [reflexivity | simpl in Hi; lia].
  - intros A; exact (matches_endsAnchored _ _ _ Hm A).
Qed.

(** ** Reading a parse *)

Lemma parses_Cat_inv (r1 r2 : regex) (t : string) (cs : captures) :
  parses (Cat r1 r2) t cs ->
  exists t1 t2 cs1 cs2, t = (t1 ++ t2)%string /\ cs = cs2 ++ cs1
                        /\ parses r1 t1 cs1 /\ parses r2 t2 cs2.
Proof. inversion 1; subst; eauto 10. Qed.

Lemma parses_Class_inv (p : ascii -> bool) (t : string) (cs : captures) :
  parses (Class p) t cs -> exists c, t = String c "" /\ cs = [] /\ p c = true.
Proof. inversion 1; subst; eauto. Qed.

Lemma parses_Repeat_inv (g : bool) (min : nat) (max : option nat) (p : ascii -> bool)
  (t : string) (cs : captures) :
  parses (Repeat g min max p) t cs ->
  cs = [] /\ allChars p t = true /\ min <= String.length t
  /\ (forall m, max = Some m -> String.length t <= m).
Proof. inversion 1; subst; auto. Qed.

Lemma parses_Group_inv (i : nat) (r : regex) (t : string) (cs : captures) :
  parses (Group i r) t cs -> exists cs', cs = (i, t) :: cs' /\ parses r t cs'.
Proof. inversion 1; subst; eauto. Qed.

Lemma parses_Bol_inv (t : string) (cs : captures) :
  parses Bol t cs -> t = "" /\ cs = [].
Proof. inversion 1; auto. Qed.

Lemma parses_Eol_inv (t : string) (cs : captures) :
  parses Eol t cs -> t = "" /\ cs = [].
Proof. inversion 1; auto. Qed.

Lemma parses_Empty_inv (t : string) (cs : captures) :
  parses Empty t cs -> t = "" /\ cs = [].
Proof. inversion 1; auto. Qed.

Lemma parses_Alt_inv (r1 r2 : regex) (t : string) (cs : captures) :
  parses (Alt r1 r2) t cs -> parses r1 t cs \/ parses r2 t cs.
Proof. inversion 1; auto. Qed.

(** A literal parses itself and captures nothing. *)
Lemma parses_Lit_inv (w t : string) (cs : captures) :
  parses (Lit w) t cs -> t = w /\ cs = [].
Proof.
  revert t cs; induction w as [|c w IH]; intros t cs H.
  - apply parses_Empty_inv in H; exact H.
  - destruct w as [|c' w'].
    + apply parses_Class_inv in H as (c0 & -> & -> & Hc).
      apply Ascii.eqb_eq in Hc; subst; auto.
    + change (Lit (String c (String c' w'))) with (Cat (Chr c) (Lit (String c' w'))) in H.
      apply parses_Cat_inv in H as (t1 & t2 & cs1 & cs2 & -> & -> & H1 & H2).
      apply parses_Class_inv in H1 as (c0 & -> & -> & Hc).
      apply Ascii.eqb_eq in Hc; subst.
      apply IH in H2 as [-> ->]; auto.
Qed.

End MatchShape.

Section ParseFacts.
Import JsString JsRegExp JsRegExpSemantics.

Lemma parses_minLength (r : regex) (t : string) (cs : captures) :
  parses r t cs -> minLength r <= String.length t.
Proof.
  induction 1; simpl; try lia.
  rewrite length_append; lia.
Qed.

Lemma parses_noGroups (r : regex) (t : string) (cs : captures) :
  parses r t cs -> noGroups r = true -> cs = [].
Proof.
  induction 1; simpl; intros G; try reflexivity; try discriminate.
  - apply andb_true_iff in G as [G1 G2].
    rewrite (IHparses1 G1), (IHparses2 G2); reflexivity.
  - apply andb_true_iff in G as [G1 G2]; auto.
  - apply andb_true_iff in G as [G1 G2]; auto.
Qed.

Lemma truthy_length (t : string) : 1 <= String.length t -> truthy t = true.
Proof. destruct t; simpl; [lia | reflexivity]. Qed.

Lemma allChars_impl (p q : ascii -> bool) (t : string) :
  (forall c, p c = true -> q c = true) -> allChars p t = true -> allChars q t = true.
Proof.
  intros Hpq; induction t as [|c t IH]; simpl; [reflexivity|].
  intros H; apply andb_true_iff in H as [Hc Ht].
  rewrite (Hpq c Hc), (IH Ht); reflexivity.
Qed.

Lemma allChars_app (p : ascii -> bool) (a b : string) :
  allChars p (a ++ b) = allChars p a && allChars p b.
Proof.
  induction a as [|c a IH]; simpl; [reflexivity|].
  rewrite IH, andb_assoc; reflexivity.
Qed.

(** [split] cuts at every separator and nowhere else. *)
Lemma splitAux_plain (sep : ascii) (t cur : string) :
  allChars (fun c => negb (Ascii.eqb c sep)) t = true ->
  splitAux sep cur t = [(cur ++ t)%string].
Proof.
  revert cur; induction t as [|c t IH]; intros cur H; simpl.
  - rewrite append_nil_r; reflexivity.
  - simpl in H; apply andb_true_iff in H as [Hc Ht].
    apply negb_true_iff in Hc; rewrite Hc, (IH _ Ht), append_assoc; reflexivity.
Qed.

Lemma splitAux_cut (sep : ascii) (t u cur : string) :
  allChars (fun c => negb (Ascii.eqb c sep)) t = true ->
  splitAux sep cur (t ++ String sep u) = (cur ++ t)%string :: splitAux sep "" u.
Proof.
  revert cur; induction t as [|c t IH]; intros cur H; simpl.
  - rewrite Ascii.eqb_refl, append_nil_r; reflexivity.
  - simpl in H; apply andb_true_iff in H as [Hc Ht].
    apply negb_true_iff in Hc; rewrite Hc, (IH _ Ht), append_assoc; reflexivity.
Qed.

End ParseFacts.

(* ================================================================== *)
(** * What [parseDate] accepts *)
(* ================================================================== *)

Section FabDateFacts.
Import JsString JsNumber JsRegExp JsRegExpSemantics FabCommon.






(** A month in small letters: DATE matches the text, [parseDate] gives
    nothing, and the transaction line is not recorded. *)
Lemma small_letter_month_is_dropped :
  hasDatePrefix "01 Jan 2024" = true
  /\ parseDate "01 Jan 2024" = None
  /\ Fab.parseTransaction
       "01 Jan 2024 01 Jan 2024 POS Settlement GROCERY STORE DUBAI AED 150 150.00 9,850.00"
     = None.
Proof. vm_compute; repeat split; reflexivity. Qed.

End FabDateFacts.

(* ================================================================== *)
(** * What the patterns of the plugin match *)
(* ================================================================== *)

Section PatternFacts.
Import JsString JsNumber JsRegExp JsRegExpSemantics FabCommon.

Ltac read_parse :=
  repeat match goal with
         | H : parses (Cat _ _) _ _ |- _ =>
             let t1 := fresh "t" in let t2 := fresh "t" in
             let c1 := fresh "cs" in let c2 := fresh "cs" in
             apply parses_Cat_inv in H as (t1 & t2 & c1 & c2 & -> & -> & ? & ?)
         | H : parses (Group _ _) _ _ |- _ =>
             let c := fresh "cs" in apply parses_Group_inv in H as (c & -> & ?)
         | H : parses Bol _ _ |- _ => apply parses_Bol_inv in H as [-> ->]
         | H : parses Eol _ _ |- _ => apply parses_Eol_inv in H as [-> ->]
         | H : parses (Lit _) _ _ |- _ => apply parses_Lit_inv in H as [-> ->]
         end.

Lemma parses_Exactly (n : nat) (p : ascii -> bool) (t : string) (cs : captures) :
  parses (Exactly n p) t cs ->
  cs = [] /\ String.length t = n /\ allChars p t = true.
Proof.
  intros H; apply parses_Repeat_inv in H as (-> & A & L & U).
  specialize (U n eq_refl); repeat split; [lia | exact A].
Qed.

Lemma parses_Chr (c : ascii) (t : string) (cs : captures) :
  parses (Chr c) t cs -> cs = [] /\ t = String c "".
Proof.
  intros H; apply parses_Class_inv in H as (c0 & -> & -> & E).
  apply Ascii.eqb_eq in E; subst; auto.
Qed.

Lemma parses_Plus (p : ascii -> bool) (t : string) (cs : captures) :
  parses (Plus p) t cs -> cs = [] /\ 1 <= String.length t /\ allChars p t = true.
Proof. intros H; apply parses_Repeat_inv in H as (-> & A & L & _); auto. Qed.

Lemma parses_PlusLazy (p : ascii -> bool) (t : string) (cs : captures) :
  parses (PlusLazy p) t cs -> cs = [] /\ 1 <= String.length t /\ allChars p t = true.
Proof. intros H; apply parses_Repeat_inv in H as (-> & A & L & _); auto. Qed.

(** A text of the shape DATE is two digits, a space, three word
    characters, a space and four digits. *)
Lemma dateShape_text (t : string) (cs : captures) :
  parses dateShape t cs ->
  cs = [] /\ String.length t = 11 /\ forall u, hasDatePrefix (t ++ u) = true.
Proof.
  unfold dateShape; cbn [Seq]; intros H; read_parse.
  repeat match goal with
         | H : parses (Exactly _ _) _ _ |- _ =>
             apply parses_Exactly in H as (-> & ? & ?)
         | H : parses (Chr _) _ _ |- _ => apply parses_Chr in H as (-> & ->)
         end.
  repeat match goal with
         | L : String.length ?t = _ |- _ =>
             is_var t; repeat (destruct t as [|? t]; simpl in L; try lia); clear L
         end.
  simpl in *.
  repeat match goal with
         | H : _ && _ = true |- _ => apply andb_true_iff in H as [? ?]
         end.
  repeat split; auto.
  intros u; unfold hasDatePrefix; simpl.
  repeat match goal with H : _ = true |- _ => rewrite H; clear H end.
  reflexivity.
Qed.

Lemma digit_not_space (c : ascii) : digit c = true -> Ascii.eqb c " " = false.
Proof. destruct (Ascii.eqb_spec c " ") as [->|]; [discriminate | reflexivity]. Qed.

Lemma word_not_space (c : ascii) : word c = true -> Ascii.eqb c " " = false.
Proof. destruct (Ascii.eqb_spec c " ") as [->|]; [discriminate | reflexivity]. Qed.

(** The date texts the plugin parses were matched by DATE.  For such a
    text [parseDate] hands to the library four digits, the number of
    the month and two digits, joined by hyphens: a text of the Date
    Time String Format, out of it at most by the value of the day. *)
Lemma parseDate_of_date (t : string) (cs : captures) :
  parses dateShape t cs ->
  parseDate t
  = match months (substring 3 3 t) with
    | Some mm =>
        createDateFromUtcIsoFormat
          (substring 7 4 t ++ "-" ++ mm ++ "-" ++ substring 0 2 t)%string
    | None => None
    end
  /\ String.length (substring 7 4 t) = 4 /\ allChars digit (substring 7 4 t) = true
  /\ String.length (substring 0 2 t) = 2 /\ allChars digit (substring 0 2 t) = true.
Proof.
  unfold dateShape; cbn [Seq]; intros H; read_parse.
  repeat match goal with
         | H : parses (Exactly _ _) _ _ |- _ =>
             apply parses_Exactly in H as (-> & ? & ?)
         | H : parses (Chr _) _ _ |- _ => apply parses_Chr in H as (-> & ->)
         end.
  repeat match goal with
         | L : String.length ?t = _ |- _ =>
             is_var t; repeat (destruct t as [|? t]; simpl in L; try lia); clear L
         end.
  simpl in *.
  repeat match goal with
         | H : _ && _ = true |- _ => apply andb_true_iff in H as [? ?]
         end.
  repeat match goal with
         | H : digit ?c = true |- _ =>
             pose proof (digit_not_space c H); revert H
         | H : word ?c = true |- _ =>
             pose proof (word_not_space c H); revert H
         end.
  intros.
  unfold parseDate, split; simpl.
  repeat match goal with H : Ascii.eqb _ " " = false |- _ => rewrite H; clear H end.
  simpl.
  repeat match goal with H : _ = true |- _ => rewrite H end.
  repeat split; reflexivity.
Qed.
(** A text of the shape AMOUNT is made of digits, commas and full
    stops, and is not empty. *)
Lemma amountShape_text (t : string) (cs : captures) :
  parses amountShape t cs ->
  cs = [] /\ 1 <= String.length t
  /\ allChars (either (either digit (isChar ",")) (isChar ".")) t = true.
Proof.
  unfold amountShape; cbn [Seq]; intros H; read_parse.
  repeat match goal with
         | H : parses (Plus _) _ _ |- _ => apply parses_Plus in H as (-> & ? & ?)
         | H : parses (Opt _) _ _ |- _ => apply parses_Repeat_inv in H as (-> & ? & _ & _)
         | H : parses (Star _) _ _ |- _ => apply parses_Repeat_inv in H as (-> & ? & _ & _)
         end.
  repeat split; auto.
  - rewrite length_append; lia.
  - rewrite !allChars_app.
    repeat (apply andb_true_iff; split);
      (eapply allChars_impl; [|eassumption]); intros c Hc; unfold either in *;
      rewrite ?Hc, ?orb_true_r; reflexivity.
Qed.

(** What a match of the transaction pattern tells of the line. *)
Lemma regularRegExp_shape (s : string) (m : matchResult) :
  exec regularRegExp s = Some m ->
  exists dateStr valueDate desc amountStr balanceStr w1 w2 w3 w4 : string,
    s = (dateStr ++ w1 ++ valueDate ++ w2 ++ desc ++ w3 ++ amountStr ++ w4
         ++ balanceStr)%string
    /\ group 1 m = Some dateStr /\ group 3 m = Some desc
    /\ group 4 m = Some amountStr /\ group 5 m = Some balanceStr
    /\ (forall u, hasDatePrefix (dateStr ++ u) = true)
    /\ (forall u, hasDatePrefix (valueDate ++ u) = true)
    /\ (1 <= String.length desc /\ allChars dot desc = true)
    /\ (1 <= String.length amountStr
        /\ allChars (either (either digit (isChar ",")) (isChar ".")) amountStr = true)
    /\ (1 <= String.length balanceStr
        /\ allChars (either (either digit (isChar ",")) (isChar ".")) balanceStr = true)
    /\ Forall (fun w => 1 <= String.length w /\ allChars space w = true) [w1; w2; w3; w4].
Proof.
  intros H; destruct m as [idx w gs af].
  apply exec_parses in H as (before & E & _ & P & B & A); simpl in *.
  rewrite (B eq_refl), (A eq_refl) in E; simpl in E; rewrite append_nil_r in E.
  subst s; clear B A before.
  unfold regularRegExp in P; cbn [Seq] in P; read_parse.
  repeat match goal with
         | H : parses dateShape _ _ |- _ => apply dateShape_text in H as (-> & ? & ?)
         | H : parses amountShape _ _ |- _ => apply amountShape_text in H as (-> & ? & ?)
         | H : parses (Plus _) _ _ |- _ => apply parses_Plus in H as (-> & ? & ?)
         | H : parses (PlusLazy _) _ _ |- _ => apply parses_PlusLazy in H as (-> & ? & ?)
         end.
  simpl; unfold group; simpl.
  rewrite append_nil_r.
  do 9 eexists.
  refine (conj _ (conj eq_refl (conj eq_refl (conj eq_refl (conj eq_refl _))))).
  - reflexivity.
  - repeat split; try assumption.
    repeat constructor; assumption.
Qed.

Lemma regularRegExp_dated (s : string) (m : matchResult) :
  exec regularRegExp s = Some m -> test startsWithDateRegExp s = true.
Proof.
  intros H; apply regularRegExp_shape in H
    as (d & v & ds & a & b & w1 & w2 & w3 & w4 & -> & _ & _ & _ & _ & Hd & _).
  rewrite test_startsWithDate; apply Hd.
Qed.

End PatternFacts.

Section FabPatternClaims.
Import JsString JsNumber JsRegExp JsRegExpSemantics FabCommon.

Ltac read_parse :=
  repeat match goal with
         | H : parses (Cat _ _) _ _ |- _ =>
             let t1 := fresh "t" in let t2 := fresh "t" in
             let c1 := fresh "cs" in let c2 := fresh "cs" in
             apply parses_Cat_inv in H as (t1 & t2 & c1 & c2 & -> & -> & ? & ?)
         | H : parses (Group _ _) _ _ |- _ =>
             let c := fresh "cs" in apply parses_Group_inv in H as (c & -> & ?)
         | H : parses Bol _ _ |- _ => apply parses_Bol_inv in H as [-> ->]
         | H : parses Eol _ _ |- _ => apply parses_Eol_inv in H as [-> ->]
         | H : parses (Lit _) _ _ |- _ => apply parses_Lit_inv in H as [-> ->]
         | H : parses (Exactly _ _) _ _ |- _ =>
             apply parses_Exactly in H as (-> & ? & ?)
         | H : parses (Chr _) _ _ |- _ => apply parses_Chr in H as (-> & ->)
         | H : parses (Plus _) _ _ |- _ => apply parses_Plus in H as (-> & ? & ?)
         | H : parses (PlusLazy _) _ _ |- _ => apply parses_PlusLazy in H as (-> & ? & ?)
         | H : parses dateShape _ _ |- _ => apply dateShape_text in H as (-> & ? & ?)
         end.

Ltac split_goal :=
  repeat match goal with
         | |- context [match ?x with _ => _ end] => destruct x
         end.

Lemma accountNumber_marker (line : string) (m : matchResult) :
  exec accountNumberRegExp line = Some m -> includes line "AC-NUM " = true.
Proof.
  intros H; destruct m as [idx w gs af].
  apply exec_parses in H as (before & E & _ & P & _); simpl in *.
  unfold accountNumberRegExp in P; cbn [Seq] in P.
  apply parses_Cat_inv in P as (t1 & t2 & c1 & c2 & -> & -> & P1 & P2).
  apply parses_Lit_inv in P1 as [-> ->].
  apply includes_iff; exists before, (t2 ++ af)%string.
  rewrite E, append_assoc; reflexivity.
Qed.

Lemma statementPeriod_marker (line : string) (m : matchResult) :
  exec statementPeriodRegExp line = Some m ->
  includes line "Account Statement FROM " = true.
Proof.
  intros H; destruct m as [idx w gs af].
  apply exec_parses in H as (before & E & _ & P & _); simpl in *.
  unfold statementPeriodRegExp in P; cbn [Seq] in P.
  apply parses_Cat_inv in P as (t1 & t2 & c1 & c2 & -> & -> & P1 & P2).
  apply parses_Lit_inv in P1 as [-> ->].
  apply includes_iff; exists before, (t2 ++ af)%string.
  rewrite E, append_assoc; reflexivity.
Qed.

(** X19.  A line without the marker of a field leaves the field alone:
    [extractAccountInfo] keeps the name and the account suffix on a line
    that does not hold [AC-NUM ] and keeps the statement period and the
    year prefix on a line that does not hold [Account Statement
    FROM ]. *)
Theorem X19_fields_change_only_on_their_marker :
  forall (line : string) (output : ParsedOutput),
    (includes line "AC-NUM " = false ->
     name (extractAccountInfo line output) = name output
     /\ accountSuffix (extractAccountInfo line output) = accountSuffix output)
    /\ (includes line "Account Statement FROM " = false ->
        startDate (extractAccountInfo line output) = startDate output
        /\ endDate (extractAccountInfo line output) = endDate output
        /\ yearPrefix (extractAccountInfo line output) = yearPrefix output).
Proof.
  intros line output; split; intros Hm.
  - assert (E : exec accountNumberRegExp line = None).
    { destruct (exec accountNumberRegExp line) as [m|] eqn:E; [|reflexivity].
      apply accountNumber_marker in E; congruence. }
    unfold extractAccountInfo; rewrite E; split_goal; auto.
  - assert (E : exec statementPeriodRegExp line = None).
    { destruct (exec statementPeriodRegExp line) as [m|] eqn:E; [|reflexivity].
      apply statementPeriod_marker in E; congruence. }
    unfold extractAccountInfo; rewrite E; split_goal; auto.
Qed.

(** X19, witness: the closing line of the fixture changes nothing. *)
Lemma X19_fields_change_only_on_their_marker_witness :
  name (extractAccountInfo "*** END OF STATEMENT ***" initOutput) = None
  /\ accountSuffix (extractAccountInfo "*** END OF STATEMENT ***" initOutput) = "".
Proof.
  apply (X19_fields_change_only_on_their_marker "*** END OF STATEMENT ***" initOutput).
  reflexivity.
Defined.

Lemma extractAccountInfo_accountSuffix (line : string) (o : ParsedOutput) :
  accountSuffix (extractAccountInfo line o)
  = match exec accountNumberRegExp line with
    | Some am =>
        if present (group 1 am) then last (split "-" (text (group 1 am))) ""
        else accountSuffix o
    | None => accountSuffix o
    end.
Proof. unfold extractAccountInfo; split_goal; reflexivity. Qed.

Lemma digits_without_dash (t : string) :
  allChars digit t = true ->
  allChars (fun c => negb (Ascii.eqb c "-")) t = true.
Proof.
  apply allChars_impl; intros c; unfold digit, isDigit.
  destruct (Ascii.eqb_spec c "-") as [->|]; [discriminate | reflexivity].
Qed.

(** X20.  The account suffix is the last digit of the account number.
    On every line in which the account number pattern matches, the
    matched number has twenty characters and ends in a digit, and
    [extractAccountInfo] sets [accountSuffix] to that one digit. *)
Theorem X20_account_suffix_is_the_last_digit :
  forall (line : string) (output : ParsedOutput) (m : matchResult),
    exec accountNumberRegExp line = Some m ->
    exists (number : string) (d : ascii),
      group 1 m = Some number
      /\ includes line ("AC-NUM " ++ number) = true
      /\ String.length number = 20
      /\ isDigit d = true
      /\ number = (substring 0 19 number ++ String d "")%string
      /\ accountSuffix (extractAccountInfo line output) = String d "".
Proof.
  intros line output m H.
  rewrite extractAccountInfo_accountSuffix, H.
  destruct m as [idx w gs af].
  apply exec_parses in H as (before & E & _ & P & _); simpl in *.
  unfold accountNumberRegExp in P; cbn [Seq] in P; read_parse.
  match goal with H : parses (Class digit) _ _ |- _ =>
    apply parses_Class_inv in H as (d & -> & -> & Hd) end.
  unfold group; simpl.
  eexists; exists d; split; [reflexivity|].
  match goal with
  | |- context [String.length (?a ++ String "-" (?b ++ String "-" (?c ++ String "-"
                                 (?e ++ String "-" (String d "")))))%string] =>
      rename a into n1; rename b into n2; rename c into n3; rename e into n4
  end.
  assert (L : String.length
                (n1 ++ String "-" (n2 ++ String "-" (n3 ++ String "-"
                   (n4 ++ String "-" (String d "")))))%string = 20).
  { repeat (rewrite length_append; simpl). lia. }
  repeat split.
  - apply includes_iff; exists before, af.
    rewrite E; reflexivity.
  - exact L.
  - exact Hd.
  - repeat match goal with
           | L : String.length ?t = _ |- _ =>
               is_var t; repeat (destruct t as [|? t]; simpl in L; try lia); clear L
           end.
    reflexivity.
  - rewrite truthy_length by lia.
    unfold split.
    repeat (rewrite splitAux_cut by (apply digits_without_dash; assumption)).
    simpl.
    assert (Ascii.eqb d "-" = false) as ->.
    { destruct (Ascii.eqb_spec d "-") as [->|]; [discriminate | reflexivity]. }
    simpl; reflexivity.
Qed.

(** X20, witness: the account line of the test fixture. *)
Lemma X20_account_suffix_is_the_last_digit_witness :
  exists (number : string) (d : ascii),
    group 1 (MatchResult 58 "AC-NUM 123-456-7890123-45-6"
                         [(1, "123-456-7890123-45-6")] "")
    = Some number
    /\ includes
         "JOHN DOE SMITH                                            AC-NUM 123-456-7890123-45-6"
         ("AC-NUM " ++ number) = true
    /\ String.length number = 20
    /\ isDigit d = true
    /\ number = (substring 0 19 number ++ String d "")%string
    /\ accountSuffix
         (extractAccountInfo
            "JOHN DOE SMITH                                            AC-NUM 123-456-7890123-45-6"
            initOutput)
       = String d "".
Proof.
  apply (X20_account_suffix_is_the_last_digit
           "JOHN DOE SMITH                                            AC-NUM 123-456-7890123-45-6"
           initOutput
           (MatchResult 58 "AC-NUM 123-456-7890123-45-6"
                        [(1, "123-456-7890123-45-6")] "")).
  reflexivity.
Defined.

End FabPatternClaims.

Section FabTransactionShape.
Import JsString JsNumber JsRegExp JsRegExpSemantics FabCommon.

Lemma dated_truthy (t : string) :
  (forall u, hasDatePrefix (t ++ u) = true) -> truthy t = true.
Proof.
  intros H; destruct t; [|reflexivity].
  specialize (H ""); discriminate.
Qed.

(** The first pattern, read through what its match tells. *)
Lemma regularTransaction_shape (line clean : string) :
  match exec regularRegExp clean with
  | None => Fab.regularTransaction line clean = None
  | Some m =>
      exists dateStr valueDate desc amountStr balanceStr w1 w2 w3 w4 : string,
        clean = (dateStr ++ w1 ++ valueDate ++ w2 ++ desc ++ w3 ++ amountStr ++ w4
                 ++ balanceStr)%string
        /\ group 1 m = Some dateStr /\ group 3 m = Some desc
        /\ group 5 m = Some balanceStr
        /\ (present (group 1 m) = true /\ present (group 3 m) = true
            /\ present (group 5 m) = true)
        /\ (forall u, hasDatePrefix (dateStr ++ u) = true)
        /\ (forall u, hasDatePrefix (valueDate ++ u) = true)
        /\ allChars dot desc = true
        /\ allChars (either (either digit (isChar ",")) (isChar ".")) amountStr = true
        /\ allChars (either (either digit (isChar ",")) (isChar ".")) balanceStr = true
        /\ Forall (fun w => 1 <= String.length w /\ allChars space w = true)
                  [w1; w2; w3; w4]
        /\ Fab.regularTransaction line clean
           = match parseDate dateStr with
             | Some date =>
                 Some (MkTransaction date (trim desc)
                         (if Fab.isIncomeDescription (trim desc)
                          then mathAbs (parseAmount amountStr)
                          else neg (mathAbs (parseAmount amountStr)))
                         [line])
             | None => None
             end
  end.
Proof.
  destruct (exec regularRegExp clean) as [m|] eqn:E.
  - pose proof (regularRegExp_shape clean m E)
      as (d & v & ds & a & b & w1 & w2 & w3 & w4 & Hc & G1 & G3 & G4 & G5
          & Hd & Hv & [Lds Ads] & [La Aa] & [Lb Ab] & Hw).
    exists d, v, ds, a, b, w1, w2, w3, w4.
    assert (P1 : present (group 1 m) = true) by (rewrite G1; apply dated_truthy, Hd).
    assert (P3 : present (group 3 m) = true) by (rewrite G3; apply truthy_length, Lds).
    assert (P4 : present (group 4 m) = true) by (rewrite G4; apply truthy_length, La).
    assert (P5 : present (group 5 m) = true) by (rewrite G5; apply truthy_length, Lb).
    repeat split; auto.
    unfold Fab.regularTransaction; rewrite E, P1, P3, P4, P5, G1, G3, G4; reflexivity.
  - unfold Fab.regularTransaction; rewrite E; reflexivity.
Qed.

Lemma parseTransaction_regular (line : string) :
  Fab.parseTransaction line
  = Fab.regularTransaction line (trim (collapseSpaces false line)).
Proof.
  unfold Fab.parseTransaction.
  set (clean := trim (collapseSpaces false line)).
  pose proof (regularTransaction_shape line clean) as S.
  destruct (exec regularRegExp clean) as [m|] eqn:E.
  - rewrite (regularRegExp_dated clean m E); simpl.
    destruct S as (d & v & ds & a & b & w1 & w2 & w3 & w4 & _ & G1 & G3 & G5
                   & (P1 & P3 & P5) & _ & _ & _ & _ & _ & _ & R).
    rewrite R.
    destruct (parseDate d) as [date|] eqn:D; [reflexivity|].
    unfold Fab.depositTransaction; rewrite E, P1, P3, P5, G1; simpl.
    destruct (exec amountRegExp (text (group 3 m))) as [am|]; [|reflexivity].
    destruct (present (group 1 am)); [|reflexivity].
    rewrite D; reflexivity.
  - rewrite S; unfold Fab.depositTransaction; rewrite E.
    destruct (negb _); reflexivity.
Qed.

(** X21.  [parseTransaction] is decided by its first pattern alone.  The
    test for a leading date never rejects a line the first pattern
    would accept, and the second pattern, tried when the first gives
    nothing, never yields a transaction. *)
Theorem X21_first_pattern_decides :
  forall line : string,
    Fab.parseTransaction line
    = Fab.regularTransaction line (trim (collapseSpaces false line))
    /\ (Fab.regularTransaction line (trim (collapseSpaces false line)) = None ->
        Fab.depositTransaction line (trim (collapseSpaces false line)) = None).
Proof.
  intros line; split; [apply parseTransaction_regular|].
  intros R.
  pose proof (regularTransaction_shape line (trim (collapseSpaces false line))) as S.
  unfold Fab.depositTransaction.
  destruct (exec regularRegExp (trim (collapseSpaces false line))) as [m|] eqn:E;
    [|reflexivity].
  destruct S as (d & v & ds & a & b & w1 & w2 & w3 & w4 & _ & G1 & G3 & G5
                 & (P1 & P3 & P5) & _ & _ & _ & _ & _ & _ & R').
  rewrite R' in R.
  destruct (parseDate d) as [date|] eqn:D; [discriminate|].
  rewrite P1, P3, P5, G1; simpl.
  destruct (exec amountRegExp (text (group 3 m))) as [am|]; [|reflexivity].
  destruct (present (group 1 am)); [|reflexivity].
  rewrite D; reflexivity.
Qed.

(** X22.  What a recorded transaction says of its line.  Whenever
    [parseTransaction] returns a transaction, the cleaned line is, from
    its first to its last character, a date, a value date, a
    description, an amount text and a balance text, separated by white
    space.  The date of the transaction is the first date parsed, its
    description the trimmed description, its amount the value of the
    amount text (the column before the last), positive for an income
    description and negative otherwise, and its original text the line
    as given.  The value date and the balance are not used. *)
Theorem X22_transaction_accounts_for_the_whole_line :
  forall (line : string) (t : ParsedTransaction),
    Fab.parseTransaction line = Some t ->
    exists dateStr valueDate desc amountStr balanceStr w1 w2 w3 w4 : string,
      trim (collapseSpaces false line)
      = (dateStr ++ w1 ++ valueDate ++ w2 ++ desc ++ w3 ++ amountStr ++ w4
         ++ balanceStr)%string
      /\ Forall (fun w => 1 <= String.length w /\ allChars space w = true)
                [w1; w2; w3; w4]
      /\ hasDatePrefix dateStr = true /\ hasDatePrefix valueDate = true
      /\ allChars (either (either digit (isChar ",")) (isChar ".")) amountStr = true
      /\ allChars (either (either digit (isChar ",")) (isChar ".")) balanceStr = true
      /\ parseDate dateStr = Some (date t)
      /\ description t = trim desc
      /\ amount t = (if Fab.isIncomeDescription (trim desc)
                     then mathAbs (parseAmount amountStr)
                     else neg (mathAbs (parseAmount amountStr)))
      /\ originalText t = [line].
Proof.
  intros line t H.
  rewrite parseTransaction_regular in H.
  pose proof (regularTransaction_shape line (trim (collapseSpaces false line))) as S.
  destruct (exec regularRegExp (trim (collapseSpaces false line))) as [m|];
    [|congruence].
  destruct S as (d & v & ds & a & b & w1 & w2 & w3 & w4 & Hc & _ & _ & _ & _
                 & Hd & Hv & _ & Aa & Ab & Hw & R).
  rewrite R in H.
  destruct (parseDate d) as [date|] eqn:D; [|discriminate].
  injection H as <-.
  exists d, v, ds, a, b, w1, w2, w3, w4; simpl.
  specialize (Hd ""); specialize (Hv ""); rewrite append_nil_r in Hd, Hv.
  repeat split; auto.
Qed.

(** X22, witness: the first transaction line of the test fixture. *)
Lemma X22_transaction_accounts_for_the_whole_line_witness :
  exists dateStr valueDate desc amountStr balanceStr w1 w2 w3 w4 : string,
    trim (collapseSpaces false groceryLine)
    = (dateStr ++ w1 ++ valueDate ++ w2 ++ desc ++ w3 ++ amountStr ++ w4
       ++ balanceStr)%string
    /\ Forall (fun w => 1 <= String.length w /\ allChars space w = true)
              [w1; w2; w3; w4]
    /\ hasDatePrefix dateStr = true /\ hasDatePrefix valueDate = true
    /\ allChars (either (either digit (isChar ",")) (isChar ".")) amountStr = true
    /\ allChars (either (either digit (isChar ",")) (isChar ".")) balanceStr = true
    /\ parseDate dateStr = Some (date groceryTransaction)
    /\ description groceryTransaction = trim desc
    /\ amount groceryTransaction
       = (if Fab.isIncomeDescription (trim desc)
          then mathAbs (parseAmount amountStr)
          else neg (mathAbs (parseAmount amountStr)))
    /\ originalText groceryTransaction = [groceryLine].
Proof.
  apply (X22_transaction_accounts_for_the_whole_line groceryLine groceryTransaction).
  reflexivity.
Defined.

End FabTransactionShape.

Section FabNameShape.
Import JsString JsNumber JsRegExp JsRegExpSemantics FabCommon.

Lemma extractAccountInfo_name (line : string) (o : ParsedOutput) :
  name (extractAccountInfo line o)
  = match exec accountNumberRegExp line with
    | Some am =>
        if present (group 1 am) then
          match exec customerNameRegExp line with
          | Some nm =>
              if present (group 1 nm) then Some (trim (text (group 1 nm))) else name o
          | None => name o
          end
        else name o
    | None => name o
    end.
Proof.
  unfold extractAccountInfo.
  repeat match goal with
         | |- context [match ?x with _ => _ end] => destruct x
         end; reflexivity.
Qed.

Lemma customerName_shape (line : string) (m : matchResult) :
  exec customerNameRegExp line = Some m ->
  exists g w : string,
    line = (g ++ w ++ "AC-NUM" ++ after m)%string
    /\ group 1 m = Some g
    /\ 1 <= String.length g
    /\ allChars (either upper (isChar " ")) g = true
    /\ 1 <= String.length w /\ allChars space w = true.
Proof.
  intros H; destruct m as [idx wh gs af].
  apply exec_parses in H as (before & E & _ & P & B & _); simpl in *.
  rewrite (B eq_refl) in E; simpl in E; subst line; clear B before.
  unfold customerNameRegExp in P; cbn [Seq] in P.
  repeat match goal with
         | H : parses (Cat _ _) _ _ |- _ =>
             let t1 := fresh "t" in let t2 := fresh "t" in
             let c1 := fresh "cs" in let c2 := fresh "cs" in
             apply parses_Cat_inv in H as (t1 & t2 & c1 & c2 & -> & -> & ? & ?)
         | H : parses (Group _ _) _ _ |- _ =>
             let c := fresh "cs" in apply parses_Group_inv in H as (c & -> & ?)
         | H : parses Bol _ _ |- _ => apply parses_Bol_inv in H as [-> ->]
         | H : parses (Lit _) _ _ |- _ => apply parses_Lit_inv in H as [-> ->]
         | H : parses (Plus _) _ _ |- _ => apply parses_Plus in H as (-> & ? & ?)
         | H : parses (PlusLazy _) _ _ |- _ => apply parses_PlusLazy in H as (-> & ? & ?)
         end.
  simpl; unfold group; simpl.
  rewrite ?append_assoc.
  do 2 eexists.
  refine (conj _ (conj eq_refl _)); [reflexivity | auto].
Qed.

(** X23.  Where the customer name comes from.  [extractAccountInfo]
    leaves the name as it is, or sets it to the trimmed text that
    precedes [AC-NUM] on the line; it sets it only when that text, from
    the first character of the line on, is made of the capital letters
    A to Z and spaces alone.  A name that holds a small letter, a digit,
    a hyphen or an apostrophe is therefore never extracted. *)
Theorem X23_customer_name_is_capitals_and_spaces :
  forall (line : string) (output : ParsedOutput),
    name (extractAccountInfo line output) = name output
    \/ exists g w rest : string,
         line = (g ++ w ++ "AC-NUM" ++ rest)%string
         /\ 1 <= String.length g
         /\ allChars (either upper (isChar " ")) g = true
         /\ 1 <= String.length w /\ allChars space w = true
         /\ name (extractAccountInfo line output) = Some (trim g).
Proof.
  intros line output; rewrite extractAccountInfo_name.
  destruct (exec accountNumberRegExp line) as [am|]; [|left; reflexivity].
  destruct (present (group 1 am)); [|left; reflexivity].
  destruct (exec customerNameRegExp line) as [nm|] eqn:E; [|left; reflexivity].
  destruct (customerName_shape line nm E) as (g & w & Hl & G & Lg & Ag & Lw & Aw).
  rewrite G; simpl; rewrite truthy_length by exact Lg.
  right; exists g, w, (after nm); auto 10.
Qed.

End FabNameShape.

(* ================================================================== *)
(** * Properties of the revision with a keyword list *)
(* ================================================================== *)

Section FabKeywordsMore.
Import JsString JsNumber JsRegExp FabCommon.

Ltac split_hyp H :=
  repeat match type of H with
         | context [match ?x with _ => _ end] =>
             let E := fresh "E" in destruct x eqn:E; try discriminate
         end.

Lemma signedAmount_number (description : string) (a : number) :
  isNaN a = false -> isNaN (FabKeywords.signedAmount description a) = false.
Proof.
  unfold FabKeywords.signedAmount; destruct (FabKeywords.isIncomeTransaction _), a;
    simpl; congruence.
Qed.

(** What [parseTransactionLine] returns is checked: the amount is a
    number and the description is not empty. *)
Lemma parseTransactionLine_checked (line : string) (t : ParsedTransaction) :
  FabKeywords.parseTransactionLine line = Some t ->
  isNaN (amount t) = false /\ truthy (description t) = true.
Proof.
  unfold FabKeywords.parseTransactionLine; intros H.
  destruct (FabKeywords.isIrrelevantLine _); [discriminate|].
  destruct (FabKeywords.mainTransaction _) as [result|] eqn:M.
  - subst result; unfold FabKeywords.mainTransaction in M.
    split_hyp M; injection M as <-; simpl.
    match goal with H : _ || _ || _ = false |- _ =>
      apply orb_false_iff in H as [H ?]; apply orb_false_iff in H as [? ?] end.
    split; [apply signedAmount_number; assumption|].
    apply negb_false_iff; assumption.
  - unfold FabKeywords.alternativeTransaction in H.
    split_hyp H; injection H as <-; simpl.
    match goal with H : _ && _ && _ = true |- _ =>
      apply andb_true_iff in H as [H ?]; apply andb_true_iff in H as [? ?] end.
    split; [apply signedAmount_number, negb_true_iff; assumption | assumption].
Qed.

Lemma keywords_run_checked (lines : list string) (s : State) (o : ParsedOutput)
  (opts : ParserOptions) :
  let good o :=
    Forall (fun t => positiveAmount t /\ checkedTransaction t) (incomes o)
    /\ Forall (fun t => lt0 (amount t) || isZero (amount t) = true
                        /\ checkedTransaction t) (expenses o) in
  good o ->
  good (run FabKeywords.performStateAction FabKeywords.nextState opts s o lines).
Proof.
  intros good; revert s o; induction lines as [|line lines IH]; intros s o Ho; simpl;
    [exact Ho|].
  apply IH; clear IH; destruct Ho as [Hi He]; unfold good.
  unfold FabKeywords.performStateAction.
  set (o2 := defaultYearPrefix opts (FabKeywords.extractAccountInfo (trim line) o)).
  assert (Ei : incomes o2 = incomes o).
  { unfold o2; rewrite defaultYearPrefix_incomes; unfold FabKeywords.extractAccountInfo.
    repeat match goal with |- context [match ?x with _ => _ end] => destruct x end;
      reflexivity. }
  assert (Ee : expenses o2 = expenses o).
  { unfold o2; rewrite defaultYearPrefix_expenses; unfold FabKeywords.extractAccountInfo.
    repeat match goal with |- context [match ?x with _ => _ end] => destruct x end;
      reflexivity. }
  assert (Hgood : Forall (fun t => positiveAmount t /\ checkedTransaction t) (incomes o2)
                  /\ Forall (fun t => lt0 (amount t) || isZero (amount t) = true
                                      /\ checkedTransaction t) (expenses o2))
    by (rewrite Ei, Ee; auto).
  destruct s; try exact Hgood.
  destruct (FabKeywords.parseTransactionLine (trim line)) as [t|] eqn:P; [|exact Hgood].
  destruct (parseTransactionLine_checked _ _ P) as [Hn Hd].
  assert (Hc : checkedTransaction t).
  { split; [exact Hn|]; intros E; rewrite E in Hd; discriminate. }
  destruct (gt0 (amount t)) eqn:Hg; simpl; rewrite Ei, Ee; split; auto.
  - apply Forall_app; split; [exact Hi|].
    constructor; [split; [exact Hg | exact Hc] | constructor].
  - apply Forall_app; split; [exact He|].
    constructor; [split; [apply not_gt0; assumption | exact Hc] | constructor].
Qed.

(** X24.  The revision with a keyword list checks what it records.
    After any line sequence, every recorded transaction has an amount
    that is a number (never NaN) and a description that is not empty;
    incomes are strictly positive, expenses negative or zero. *)
Theorem X24_keyword_revision_records_checked_transactions :
  forall (lines : list string) (options : ParserOptions),
    Forall (fun t => positiveAmount t
                     /\ isNaN (amount t) = false /\ description t <> EmptyString)
           (incomes (FabKeywords.parseText lines options))
    /\ Forall (fun t => lt0 (amount t) || isZero (amount t) = true
                        /\ isNaN (amount t) = false /\ description t <> EmptyString)
              (expenses (FabKeywords.parseText lines options)).
Proof.
  intros lines options.
  apply (keywords_run_checked lines Header initOutput options).
  split; constructor.
Qed.

(** X25.  A statement period that does not parse never erases a date.
    In the revision with a keyword list, [extractAccountInfo] leaves a
    start date or an end date that is set in place, or replaces it by
    another date; it never resets it to [undefined]. *)
Theorem X25_keyword_revision_never_unsets_a_date :
  forall (line : string) (output : ParsedOutput),
    (startDate output <> None ->
     startDate (FabKeywords.extractAccountInfo line output) <> None)
    /\ (endDate output <> None ->
        endDate (FabKeywords.extractAccountInfo line output) <> None).
Proof.
  intros line output; unfold FabKeywords.extractAccountInfo; split; intros H;
    repeat match goal with |- context [match ?x with _ => _ end] => destruct x end;
    simpl; try exact H; discriminate.
Qed.

(** In [fab-bank-account-parser.ts] it does: a period line whose month
    is not in the table erases the start date. *)
Example period_line_erases_start_date :
  startDate
    (FabCommon.extractAccountInfo
       "Account Statement FROM 01 XXX 2024 TO 31 JAN 2024"
       (setStartDate (Some (MkDate 2024 1 1)) initOutput))
  = None.
Proof. vm_compute; reflexivity. Qed.

End FabKeywordsMore.

(* ================================================================== *)
(** * The order of arrival of the fragments *)
(* ================================================================== *)

Section ArrivalOrder.
Import JsString ReadPdf.

Lemma Permutation_filter {A : Type} (f : A -> bool) (l l' : list A) :
  Permutation l l' -> Permutation (filter f l) (filter f l').
Proof.
  induction 1 as [|x l l' _ IH|x y l|l l' l'' _ IH1 _ IH2]; simpl.
  - constructor.
  - destruct (f x); [apply perm_skip|]; exact IH.
  - destruct (f x), (f y); try apply Permutation_refl; apply perm_swap.
  - eapply Permutation_trans; eassumption.
Qed.

(** A list in strictly ascending order of x is determined by its
    members. *)
Lemma ascending_unique (l1 l2 : list item) :
  StronglySorted (fun a b => (xCoord a < xCoord b)%Q) l1 ->
  StronglySorted (fun a b => (xCoord a < xCoord b)%Q) l2 ->
  (forall f, In f l1 <-> In f l2) -> l1 = l2.
Proof.
  revert l2; induction l1 as [|x l1 IH]; intros l2 H1 H2 Hin.
  - destruct l2 as [|y l2]; [reflexivity|].
    destruct (proj2 (Hin y)); left; reflexivity.
  - destruct l2 as [|y l2]; [destruct (proj1 (Hin x)); left; reflexivity|].
    apply StronglySorted_inv in H1 as [H1 Hx], H2 as [H2 Hy].
    rewrite Forall_forall in Hx, Hy.
    assert (x = y) as <-.
    { destruct (proj1 (Hin x) (or_introl eq_refl)) as [E|Hx2]; [congruence|].
      destruct (proj2 (Hin y) (or_introl eq_refl)) as [E|Hy1]; [congruence|].
      specialize (Hx _ Hy1); specialize (Hy _ Hx2); lra. }
    f_equal; apply IH; [assumption | assumption|].
    intros z; split; intros Hz.
    + destruct (proj1 (Hin z) (or_intror Hz)) as [E|]; [|assumption].
      subst z; specialize (Hx _ Hz); lra.
    + destruct (proj2 (Hin z) (or_intror Hz)) as [E|]; [|assumption].
      subst z; specialize (Hy _ Hz); lra.
Qed.

(** Fragments of one bucket that land at distinct places are, once
    sorted, in strictly ascending order of x. *)
Lemma sorted_strictly (k : Z) (l : list item) :
  Forall (fun f => bucketOf f = Some k) l ->
  NoDup (map place l) ->
  StronglySorted (fun a b => (xCoord a <= xCoord b)%Q) l ->
  StronglySorted (fun a b => (xCoord a < xCoord b)%Q) l.
Proof.
  induction l as [|a l IH]; intros Hb Hnd Hs; [constructor|].
  inversion Hb as [|? ? Ha Hb']; subst.
  inversion Hnd as [|? ? Hnin Hnd']; subst.
  apply StronglySorted_inv in Hs as [Hs Hle].
  constructor; [apply IH; assumption|].
  rewrite Forall_forall in *; intros b Hbin.
  specialize (Hle b Hbin).
  destruct (Qeq_dec (xCoord a) (xCoord b)) as [E|NE]; [|lra].
  exfalso; apply Hnin, in_map_iff; exists b; split; [|exact Hbin].
  unfold place; rewrite (Hb' b Hbin), Ha.
  f_equal; apply Qred_complete; symmetry; exact E.
Qed.

Lemma sortByX_order_free (k : Z) (l l' : list item) :
  Permutation l l' ->
  Forall (fun f => bucketOf f = Some k) l ->
  NoDup (map place l) ->
  sortByX l = sortByX l'.
Proof.
  intros Hp Hb Hnd.
  assert (Hp1 : Permutation (sortByX l) l) by apply jsSort_perm.
  assert (Hp2 : Permutation (sortByX l') l') by apply jsSort_perm.
  apply ascending_unique.
  - apply (sorted_strictly k); [| |apply sortByX_sorted].
    + eapply Permutation_Forall; [apply Permutation_sym, Hp1 | exact Hb].
    + eapply Permutation_NoDup; [|exact Hnd].
      apply Permutation_map, Permutation_sym, Hp1.
  - apply (sorted_strictly k); [| |apply sortByX_sorted].
    + eapply Permutation_Forall; [|exact Hb].
      eapply Permutation_trans; [exact Hp | apply Permutation_sym, Hp2].
    + eapply Permutation_NoDup; [|exact Hnd].
      apply Permutation_map.
      eapply Permutation_trans; [exact Hp | apply Permutation_sym, Hp2].
  - intros f; rewrite !sortByX_In; split; apply Permutation_in;
      [exact Hp | apply Permutation_sym, Hp].
Qed.

Lemma NoDup_map_filter {A B : Type} (f : A -> B) (g h : A -> bool) (l : list A) :
  (forall a, h a = true -> g a = true) ->
  NoDup (map f (filter g l)) -> NoDup (map f (filter h l)).
Proof.
  intros Hgh; induction l as [|a l IH]; simpl; [auto|].
  destruct (h a) eqn:Eh.
  - rewrite (Hgh a Eh); simpl; intros Hnd.
    inversion Hnd as [|? ? Hnin Hnd']; subst.
    constructor; [|apply IH, Hnd'].
    intros Hin; apply Hnin.
    apply in_map_iff in Hin as (b & Eb & Hb); apply in_map_iff; exists b; split; [exact Eb|].
    apply filter_In in Hb as [Hb Hhb]; apply filter_In; auto.
  - destruct (g a); simpl; intros Hnd; [inversion Hnd; subst|]; auto.
Qed.

Lemma numbersOf_perm (l l' : list (option Z)) :
  Permutation l l' -> Permutation (numbersOf l) (numbersOf l').
Proof.
  induction 1 as [|x l l' _ IH|x y l|l l' l'' _ IH1 _ IH2]; simpl.
  - constructor.
  - apply Permutation_app_head, IH.
  - destruct x, y; simpl; try apply Permutation_refl; apply perm_swap.
  - eapply Permutation_trans; eassumption.
Qed.

Lemma visitedKeys_order_free (p p' : page) :
  Permutation p p' -> visitedKeys p = visitedKeys p'.
Proof.
  intros Hp; rewrite !visitedKeys_eq.
  apply sortNumbers_any_order, numbersOf_perm, Permutation_map.
  apply NoDup_Permutation; [apply itemsByY_nodup | apply itemsByY_nodup|].
  intros name; rewrite !in_keys_itemsByY; split;
    intros (f & k & Hf & Hb & Hn); exists f, k; (split; [|split; assumption]).
  - eapply Permutation_in; [exact Hp | exact Hf].
  - eapply Permutation_in; [apply Permutation_sym, Hp | exact Hf].
Qed.

Lemma rows_order_free (p p' : page) :
  Permutation p p' -> distinctX p -> rows p = rows p'.
Proof.
  intros Hp Hd; rewrite !rows_visited, <- (visitedKeys_order_free p p' Hp).
  apply flat_map_ext; intros k.
  assert (Hs : sortByX (filter (inBucket k) p) = sortByX (filter (inBucket k) p')).
  { apply (sortByX_order_free k).
    - apply Permutation_filter, Hp.
    - apply Forall_forall; intros f Hf; apply in_filter_inBucket in Hf; tauto.
    - eapply NoDup_map_filter; [|exact Hd].
      intros a; unfold inBucket, hasCoordinate; destruct (bucketOf a); [reflexivity|].
      discriminate. }
  pose proof (Permutation_filter (inBucket k) p p' Hp) as Hf.
  rewrite Hs.
  destruct (filter (inBucket k) p) as [|a l], (filter (inBucket k) p') as [|a' l'];
    try reflexivity.
  - apply Permutation_nil in Hf; discriminate.
  - apply Permutation_sym, Permutation_nil in Hf; discriminate.
Qed.

(** X26.  The order in which pdf.js delivers the fragments of a page
    does not reach the output, provided no two fragments land in the
    same row at the same horizontal coordinate: any rearrangement of
    such a page gives the same rows and the same lines. *)
Theorem X26_lines_do_not_depend_on_arrival_order :
  forall p p' : page,
    Permutation p p' -> distinctX p ->
    rows p = rows p' /\ pageLines p = pageLines p'.
Proof.
  intros p p' Hp Hd.
  pose proof (rows_order_free p p' Hp Hd) as E.
  split; [exact E | rewrite !pageLines_rows, E; reflexivity].
Qed.

(** X26, witness: the sample table page and its reverse. *)
Lemma X26_lines_do_not_depend_on_arrival_order_witness :
  rows tablePage = rows (rev tablePage)
  /\ pageLines tablePage = pageLines (rev tablePage).
Proof.
  apply (X26_lines_do_not_depend_on_arrival_order tablePage (rev tablePage)).
  - apply Permutation_rev.
  - unfold distinctX; simpl.
    repeat (constructor; [simpl; intuition discriminate|]).
    constructor.
Defined.

End ArrivalOrder.
